(** * QuestBot: XP aggregation, level markers and the channel gate

    A shallow embedding of [src/bot.py] and the properties of its XP
    engine.

    - Python integers are [Z]; strings are strings of bytes.
    - The dictionaries of the bot are finite maps.  The SQLite tables are
      finite maps where the code relies on a unique key ([users],
      [quests]) and lists of rows otherwise ([streak_role_gains],
      [whitelisted_channels]).
    - An SQLite INTEGER holds 64 bits.  Binding a Python integer outside
      [-2^63, 2^63) to a statement raises [OverflowError] before the
      statement runs, and [SUM] raises "integer overflow" once its
      running sum, taken in the order of insertion, leaves that range.
      The amounts of XP are whatever a command was given or the settings
      hold, so these two are modelled; the ids are those the platform
      hands out, which fit, and the levels are those of the table.
      Database calls do not raise otherwise.
    - The chat platform is the cache of guilds, members and roles that
      [discord.py] exposes through the global [bot].  Reading it returns
      or raises; granting, revoking and creating roles raise when the bot
      lacks the permission, and otherwise show in the cache as soon as
      the call returns.  The permission is one per guild: a guild in
      which the bot may manage some roles and not others is not
      modelled, and what is stated of role changes that are carried out
      is stated for a guild whose roles the bot may manage.  Sending a
      message does not raise.
    - A coroutine handed to [asyncio.create_task] stays pending until the
      running handler is suspended on a send or ends; it then runs to its
      end.  Handlers are not interleaved with one another.
    - The table [settings] is a map of its own, passed beside the bot.
      A command whose confirmation is not among the notices of the
      engine answers with it. *)

From Stdlib Require Import ZArith Lia Ascii String.
From stdpp Require Import gmap strings list fin_maps pretty sorting.

Open Scope Z_scope.

(** ** Strings *)

Module Str.

(** [s.startswith(p)] *)
Definition startswith (s p : string) : bool := String.prefix p s.

(** [sub in s] *)
Fixpoint contains (sub s : string) : bool :=
  String.prefix sub s ||
  match s with
  | EmptyString => false
  | String _ rest => contains sub rest
  end.

Definition lower_ascii (c : ascii) : ascii :=
  let n := nat_of_ascii c in
  if ((65 <=? n) && (n <=? 90))%nat then ascii_of_nat (n + 32) else c.

(** [s.lower()]: names are byte strings, and no character outside
    [A-Z] lowers to an ASCII letter that occurs in the words searched
    for below. *)
Fixpoint lower (s : string) : string :=
  match s with
  | EmptyString => EmptyString
  | String c rest => String (lower_ascii c) (lower rest)
  end.

(** [str(n)] and the [{n}] of an f-string, for an integer. *)
Definition str (n : Z) : string := pretty n.

End Str.

(** ** Level thresholds *)

(** [LEVEL_THRESHOLDS] *)
Definition LEVEL_THRESHOLDS : gmap Z Z :=
  list_to_map
    [ (1, 0); (2, 100); (3, 500); (4, 1200); (5, 2200);
      (6, 3500); (7, 5100); (8, 7000); (9, 9200); (10, 11700) ].

(** [LEVEL_THRESHOLDS[level]]; every key the code uses is present, see
    [LEVEL_THRESHOLDS_keys]. *)
Definition threshold (level : Z) : Z := default 0 (LEVEL_THRESHOLDS !! level).

(** [range(10, 0, -1)] *)
Definition range_10_0 : list Z := [10; 9; 8; 7; 6; 5; 4; 3; 2; 1].

(** The [for] loop of [calculate_level]: the first level of the range
    whose threshold is reached, if any. *)
Fixpoint first_reached (levels : list Z) (xp : Z) : option Z :=
  match levels with
  | [] => None
  | level :: rest =>
      if xp >=? threshold level then Some level else first_reached rest xp
  end.

(** [QuestBot.calculate_level] *)
Definition calculate_level (xp : Z) : Z :=
  match first_reached range_10_0 xp with
  | Some level => level
  | None => 1
  end.

(** ** The platform: guilds, members, roles *)

(** A [discord.Role].  Role objects compare by id, and on the platform
    an id names one role: the comparison is equality of the records. *)
Record Role := { role_id : Z; role_name : string }.

#[global] Instance Role_eq_dec : EqDecision Role.
Proof. solve_decision. Defined.

(** A call on the platform returns a value or raises. *)
Inductive outcome (A : Type) : Type :=
| Return (a : A)
| Raise.
Arguments Return {A} a.
Arguments Raise {A}.

(** A text channel of a guild, with
    [channel.permissions_for(guild.me).send_messages]. *)
Record TextChannel := { text_channel_id : Z; send_messages : bool }.

(** A guild of the cache: [guild.roles], the members with their
    [member.roles] (a member whose entry is [Raise] cannot be read),
    [guild.text_channels], and whether the bot may manage roles
    (otherwise granting, revoking and creating roles raise
    [discord.Forbidden]). *)
Record Guild := {
  guild_roles : list Role;
  guild_members : gmap Z (outcome (list Role));
  text_channels : list TextChannel;
  manage_roles : bool;
}.

(** [role in roles] *)
Definition role_in (r : Role) (roles : list Role) : bool :=
  bool_decide (r ∈ roles).

(** A role the code treats as a level marker:
    [role.name.startswith("Level ")]. *)
Definition is_level_role (r : Role) : bool :=
  Str.startswith (role_name r) "Level ".

(** [f"Level {level}"] *)
Definition level_role_name (level : Z) : string := "Level " +:+ Str.str level.

(** [discord.utils.get(roles, name=name)] *)
Definition utils_get (roles : list Role) (name : string) : option Role :=
  find (λ r, bool_decide (role_name r = name)) roles.

(** ** The persistent store *)

(** A row of [users], keyed by [(user_id, guild_id)]. *)
Record UserRow := { row_xp : Z; row_level : Z }.

(** A row of [quests], keyed by [message_id]; [completed_users] is the
    decoded JSON list, [xp_reward] may be NULL. *)
Record QuestRow := {
  quest_guild_id : Z;
  quest_channel_id : Z;
  quest_title : string;
  completed_users : list Z;
  xp_reward : option Z;
}.

(** A row of [streak_role_gains]. *)
Record StreakGain := {
  gain_user_id : Z;
  gain_guild_id : Z;
  gain_role_id : Z;
  gain_role_name : string;
  xp_awarded : Z;
}.

(** A row of [whitelisted_channels]. *)
Record WhitelistRow := {
  wl_guild_id : Z;
  wl_channel_id : Z;
  wl_channel_name : string;
}.

Record DB := {
  users : gmap (Z * Z) UserRow;
  quests : gmap Z QuestRow;
  whitelisted_channels : list WhitelistRow;
  streak_role_gains : list StreakGain;
}.

(** The least and the greatest SQLite INTEGER. *)
Definition INT64_MIN : Z := - 2 ^ 63.

Definition INT64_MAX : Z := 2 ^ 63 - 1.

(** Whether a Python integer fits an SQLite INTEGER. *)
Definition fits_int64 (n : Z) : bool := (INT64_MIN <=? n) && (n <=? INT64_MAX).

(** A value of [role_xp_assignments[guild_id]]:
    [{"xp": xp_amount, "type": role_type}]. *)
Record RoleXp := { assigned_xp : Z; assigned_type : string }.

(** The fields of [QuestBot] the engine reads. *)
Record QuestBot := {
  db_connection : option DB;
  role_xp_assignments : gmap Z (gmap string RoleXp);
  optin_message_id : option Z;
}.

(** ** Notifications and background tasks *)

(** What a sent embed says. *)
Inductive Notice :=
| Welcome (user : Z)
| QuestCompleted (user reward new_xp new_level : Z)
| StreakRoleGained (user : Z) (role : Role) (reward total : Z) (level_up : option Z)
| RoleGained (user : Z) (role : Role) (reward total : Z) (level_up : option Z)
| UserNotOptedIn (user : Z)
| XpAdded (user amount new_total new_level : Z)
| XpRemoved (user amount new_total new_level : Z)
| XpError (doing : string).

(** A coroutine [update_user_level_role(user_id, guild_id, old_level,
    new_level)] handed to [asyncio.create_task]. *)
Record Task := {
  task_user : Z;
  task_guild : Z;
  task_old_level : Z;
  task_new_level : Z;
}.

(** The world: the cache of the global [bot], the global [quest_bot],
    the messages sent so far (channel id and content, oldest first), and
    the tasks created and not yet run. *)
Record World := {
  guilds : gmap Z (outcome Guild);
  quest_bot : QuestBot;
  sent : list (Z * Notice);
  pending : list Task;
}.

Definition set_guilds (f : gmap Z (outcome Guild) → gmap Z (outcome Guild)) (w : World) : World :=
  {| guilds := f (guilds w); quest_bot := quest_bot w;
     sent := sent w; pending := pending w |}.

Definition set_quest_bot (f : QuestBot → QuestBot) (w : World) : World :=
  {| guilds := guilds w; quest_bot := f (quest_bot w);
     sent := sent w; pending := pending w |}.

Definition set_sent (f : list (Z * Notice) → list (Z * Notice)) (w : World) : World :=
  {| guilds := guilds w; quest_bot := quest_bot w;
     sent := f (sent w); pending := pending w |}.

Definition set_pending (f : list Task → list Task) (w : World) : World :=
  {| guilds := guilds w; quest_bot := quest_bot w;
     sent := sent w; pending := f (pending w) |}.

Definition set_db (f : DB → DB) (w : World) : World :=
  set_quest_bot (λ qb,
    {| db_connection := f <$> db_connection qb;
       role_xp_assignments := role_xp_assignments qb;
       optin_message_id := optin_message_id qb |}) w.

Definition set_users (f : gmap (Z * Z) UserRow → gmap (Z * Z) UserRow) (db : DB) : DB :=
  {| users := f (users db); quests := quests db;
     whitelisted_channels := whitelisted_channels db;
     streak_role_gains := streak_role_gains db |}.

Definition set_quests (f : gmap Z QuestRow → gmap Z QuestRow) (db : DB) : DB :=
  {| users := users db; quests := f (quests db);
     whitelisted_channels := whitelisted_channels db;
     streak_role_gains := streak_role_gains db |}.

Definition set_streak_role_gains (f : list StreakGain → list StreakGain) (db : DB) : DB :=
  {| users := users db; quests := quests db;
     whitelisted_channels := whitelisted_channels db;
     streak_role_gains := f (streak_role_gains db) |}.

Definition set_guild_roles (f : list Role → list Role) (g : Guild) : Guild :=
  {| guild_roles := f (guild_roles g); guild_members := guild_members g;
     text_channels := text_channels g; manage_roles := manage_roles g |}.

Definition set_guild_members
    (f : gmap Z (outcome (list Role)) → gmap Z (outcome (list Role))) (g : Guild) : Guild :=
  {| guild_roles := guild_roles g; guild_members := f (guild_members g);
     text_channels := text_channels g; manage_roles := manage_roles g |}.

(** ** Actions: state passing with exceptions *)

(** A block of code that may raise; what it did before raising stays
    done. *)
Definition Act (A : Type) : Type := World → outcome A * World.

Definition ret {A} (a : A) : Act A := λ w, (Return a, w).

Definition raise {A} : Act A := λ w, (Raise, w).

Definition bind {A B} (m : Act A) (k : A → Act B) : Act B :=
  λ w, match m w with
       | (Return a, w') => k a w'
       | (Raise, w') => (Raise, w')
       end.

(** A function that cannot raise, used inside a block that can. *)
Definition lift {A} (f : World → A * World) : Act A :=
  λ w, let '(a, w') := f w in (Return a, w').

(** The outcome of a read of the cache. *)
Definition reading {A} (f : World → outcome A) : Act A := λ w, (f w, w).

(** [try: body  except Exception: handler] *)
Definition try_except {A} (body : Act A) (handler : World → A * World) : World → A * World :=
  λ w, match body w with
       | (Return a, w') => (a, w')
       | (Raise, w') => handler w'
       end.

Notation "'let*' x ':=' m 'in' k" := (bind m (λ x, k))
  (at level 10, x name, m at level 100, k at level 200).

(** [for x in l: body(x)] *)
Fixpoint for_each {A} (l : list A) (body : A → Act unit) : Act unit :=
  match l with
  | [] => ret tt
  | x :: rest => bind (body x) (λ _, for_each rest body)
  end.

(** Binding the Python integer [n] to a [?] of a statement. *)
Definition bind_int (n : Z) : Act unit :=
  λ w, if fits_int64 n then (Return tt, w) else (Raise, w).

(** *** Reads of the cache *)

(** [bot.get_guild(guild_id)] *)
Definition get_guild (guild_id : Z) (w : World) : outcome (option Guild) :=
  match guilds w !! guild_id with
  | None => Return None
  | Some (Return g) => Return (Some g)
  | Some Raise => Raise
  end.

(** [guild.get_member(user_id)], giving the member's [roles]. *)
Definition get_member (g : Guild) (user_id : Z) : outcome (option (list Role)) :=
  match guild_members g !! user_id with
  | None => Return None
  | Some (Return roles) => Return (Some roles)
  | Some Raise => Raise
  end.

(** [member.roles] of a member obtained before, read now. *)
Definition member_roles (guild_id user_id : Z) (w : World) : outcome (list Role) :=
  match get_guild guild_id w with
  | Return (Some g) =>
      match get_member g user_id with
      | Return (Some roles) => Return roles
      | _ => Raise
      end
  | _ => Raise
  end.

(** [guild.roles] of a guild obtained before, read now. *)
Definition roles_of_guild (guild_id : Z) (w : World) : outcome (list Role) :=
  match get_guild guild_id w with
  | Return (Some g) => Return (guild_roles g)
  | _ => Raise
  end.

(** *** Role changes on the platform *)

Definition update_guild (guild_id : Z) (f : Guild → Guild) (w : World) : World :=
  set_guilds (λ gs, match gs !! guild_id with
                    | Some (Return g) => <[guild_id := Return (f g)]> gs
                    | _ => gs
                    end) w.

Definition update_member_roles (guild_id user_id : Z) (f : list Role → list Role)
    (w : World) : World :=
  update_guild guild_id
    (set_guild_members (λ ms, match ms !! user_id with
                              | Some (Return roles) => <[user_id := Return (f roles)]> ms
                              | _ => ms
                              end)) w.

(** The bot may manage the roles of this guild. *)
Definition may_manage_roles (guild_id : Z) (w : World) : bool :=
  match get_guild guild_id w with
  | Return (Some g) => manage_roles g
  | _ => false
  end.

(** [await member.remove_roles(role)] *)
Definition remove_roles (guild_id user_id : Z) (role : Role) : Act unit :=
  λ w, if may_manage_roles guild_id w
       then (Return tt,
             update_member_roles guild_id user_id
               (filter (λ r, r ≠ role)) w)
       else (Raise, w).

(** [await member.add_roles(role)] *)
Definition add_roles (guild_id user_id : Z) (role : Role) : Act unit :=
  λ w, if may_manage_roles guild_id w
       then (Return tt,
             update_member_roles guild_id user_id
               (λ roles, if role_in role roles then roles else roles ++ [role]) w)
       else (Raise, w).

(** An id no role of the guild has. *)
Definition fresh_role_id (roles : list Role) : Z :=
  1 + foldr (λ r acc, Z.max (role_id r) acc) 0 roles.

(** [await guild.create_role(name=name, ...)] *)
Definition create_role (guild_id : Z) (name : string) : Act unit :=
  λ w, if may_manage_roles guild_id w
       then (Return tt,
             update_guild guild_id
               (set_guild_roles (λ roles,
                  roles ++ [{| role_id := fresh_role_id roles; role_name := name |}])) w)
       else (Raise, w).

(** ** The ledger and the XP aggregator *)

(** The row a missing user gets, and what is answered without a
    connection: [{'xp': 0, 'level': 1}]. *)
Definition new_user_row : UserRow := {| row_xp := 0; row_level := 1 |}.

(** [QuestBot.get_user_data]: reads the row, creating it when absent. *)
Definition get_user_data (user_id guild_id : Z) (w : World) : UserRow * World :=
  match db_connection (quest_bot w) with
  | None => (new_user_row, w)
  | Some db =>
      match users db !! (user_id, guild_id) with
      | Some row => (row, w)
      | None =>
          (new_user_row,
           set_db (set_users <[(user_id, guild_id) := new_user_row]>) w)
      end
  end.

(** [QuestBot.get_role_xp_and_type] *)
Definition get_role_xp_and_type (qb : QuestBot) (guild_id : Z) (role_id : string)
    : option (Z * string) :=
  match role_xp_assignments qb !! guild_id with
  | None => None
  | Some assignments =>
      match assignments !! role_id with
      | Some role_data => Some (assigned_xp role_data, assigned_type role_data)
      | None => None
      end
  end.

(** [QuestBot.assign_role_xp] *)
Definition assign_role_xp (guild_id : Z) (role_id : string) (xp_amount : Z)
    (role_type : string) (qb : QuestBot) : QuestBot :=
  {| db_connection := db_connection qb;
     role_xp_assignments :=
       <[guild_id :=
           <[role_id := {| assigned_xp := xp_amount; assigned_type := role_type |}]>
             (default ∅ (role_xp_assignments qb !! guild_id))]>
         (role_xp_assignments qb);
     optin_message_id := optin_message_id qb |}.

(** The rows [SELECT ... FROM streak_role_gains WHERE user_id = ? AND
    guild_id = ?] ranges over. *)
Definition streak_gains_of (db : DB) (user_id guild_id : Z) : list StreakGain :=
  filter (λ g, gain_user_id g = user_id ∧ gain_guild_id g = guild_id)
         (streak_role_gains db).

(** The running sum of SQL [SUM] over integers, row by row. *)
Fixpoint running_sum (acc : Z) (values : list Z) : outcome Z :=
  match values with
  | [] => Return acc
  | value :: rest =>
      if fits_int64 (acc + value) then running_sum (acc + value) rest else Raise
  end.

(** SQL [SUM]: NULL over no row. *)
Definition sql_sum (values : list Z) : outcome (option Z) :=
  match values with
  | [] => Return None
  | _ =>
      match running_sum 0 values with
      | Return total => Return (Some total)
      | Raise => Raise
      end
  end.

(** [QuestBot.get_accumulated_streak_xp] *)
Definition get_accumulated_streak_xp (qb : QuestBot) (user_id guild_id : Z) : outcome Z :=
  match db_connection qb with
  | None => Return 0
  | Some db =>
      match sql_sum (xp_awarded <$> streak_gains_of db user_id guild_id) with
      | Return (Some total) => Return (if bool_decide (total = 0) then 0 else total)
      | Return None => Return 0
      | Raise => Raise
      end
  end.

(** [INSERT INTO streak_role_gains (user_id, guild_id, role_id,
    role_name, xp_awarded) VALUES (?, ?, ?, ?, ?)] *)
Definition insert_streak_gain (row : StreakGain) (w : World) : World :=
  set_db (set_streak_role_gains (λ rows, rows ++ [row])) w.

(** [QuestBot.record_streak_role_gain] *)
Definition record_streak_role_gain (user_id guild_id role_id : Z) (role_name : string)
    (xp_awarded : Z) : Act unit :=
  λ w, match db_connection (quest_bot w) with
       | None => (Return tt, w)
       | Some _ =>
           (let* _ := bind_int xp_awarded in
            lift (λ w, (tt, insert_streak_gain
                              {| gain_user_id := user_id; gain_guild_id := guild_id;
                                 gain_role_id := role_id; gain_role_name := role_name;
                                 xp_awarded := xp_awarded |} w))) w
       end.

(** The first loop of [calculate_total_user_xp] over [member.roles]. *)
Definition custom_role_xp (qb : QuestBot) (guild_id : Z) (roles : list Role) : Z :=
  fold_left (λ acc role,
    if is_level_role role then acc
    else match get_role_xp_and_type qb guild_id (Str.str (role_id role)) with
         | Some (xp_amount, role_type) =>
             if bool_decide (role_type ≠ "streak") then acc + xp_amount else acc
         | None => acc
         end) roles 0.

(** The second loop of [calculate_total_user_xp] over [member.roles]. *)
Definition auto_role_xp (qb : QuestBot) (guild_id : Z) (roles : list Role) : Z :=
  fold_left (λ acc role,
    if is_level_role role then acc
    else match get_role_xp_and_type qb guild_id (Str.str (role_id role)) with
         | Some _ => acc
         | None =>
             if Str.contains "badge" (Str.lower (role_name role)) then acc + 5 else acc
         end) roles 0.

(** [user_data = self.get_user_data(...); return user_data.get('xp', 0)] *)
Definition base_xp_of (user_id guild_id : Z) (w : World) : Z * World :=
  let '(user_data, w') := get_user_data user_id guild_id w in
  (row_xp user_data, w').

(** [QuestBot.calculate_total_user_xp] *)
Definition calculate_total_user_xp (user_id guild_id : Z) : World → Z * World :=
  try_except
    (let* guild := reading (get_guild guild_id) in
     match guild with
     | None => lift (base_xp_of user_id guild_id)
     | Some guild =>
         let* member := reading (λ _, get_member guild user_id) in
         match member with
         | None => lift (base_xp_of user_id guild_id)
         | Some roles =>
             let* base_xp := lift (base_xp_of user_id guild_id) in
             let* qb := reading (λ w, Return (quest_bot w)) in
             let custom := custom_role_xp qb guild_id roles in
             let* accumulated_streak_xp :=
               reading (λ _, get_accumulated_streak_xp qb user_id guild_id) in
             let auto := auto_role_xp qb guild_id roles in
             ret (base_xp + custom + auto + accumulated_streak_xp)
         end
     end)
    (base_xp_of user_id guild_id).

(** [QuestBot.is_user_opted_in] *)
Definition is_user_opted_in (user_id guild_id : Z) (w : World) : bool :=
  fst (try_except
    (let* guild := reading (get_guild guild_id) in
     match guild with
     | None => ret false
     | Some guild =>
         let* member := reading (λ _, get_member guild user_id) in
         match member with
         | None => ret false
         | Some roles => ret (existsb is_level_role roles)
         end
     end)
    (λ w', (false, w')) w).

(** ** The role synchronizer *)

(** [QuestBot.create_level_roles] *)
Definition create_level_roles (guild_id : Z) : World → unit * World :=
  try_except
    (for_each [1; 2; 3; 4; 5; 6; 7; 8; 9; 10] (λ level,
       let role_name := level_role_name level in
       let* roles := reading (roles_of_guild guild_id) in
       match utils_get roles role_name with
       | Some _ => ret tt
       | None => create_role guild_id role_name
       end))
    (λ w, (tt, w)).

(** [QuestBot.update_user_level_role] *)
Definition update_user_level_role (user_id guild_id old_level new_level : Z)
    : World → unit * World :=
  try_except
    (let* guild := reading (get_guild guild_id) in
     match guild with
     | None => ret tt
     | Some guild =>
         let* member := reading (λ _, get_member guild user_id) in
         match member with
         | None => ret tt
         | Some roles =>
             let new_role_name := level_role_name new_level in
             let* _ := for_each roles (λ role,
               if is_level_role role && bool_decide (role_name role ≠ new_role_name)
               then remove_roles guild_id user_id role
               else ret tt) in
             let* guild_roles := reading (roles_of_guild guild_id) in
             match utils_get guild_roles new_role_name with
             | Some new_role =>
                 let* now := reading (member_roles guild_id user_id) in
                 if role_in new_role now then ret tt
                 else add_roles guild_id user_id new_role
             | None =>
                 let* _ := lift (create_level_roles guild_id) in
                 let* guild_roles := reading (roles_of_guild guild_id) in
                 match utils_get guild_roles new_role_name with
                 | Some new_role => add_roles guild_id user_id new_role
                 | None => ret tt
                 end
             end
         end
     end)
    (λ w, (tt, w)).

(** The event loop runs the tasks created so far, oldest first, each to
    its end. *)
Definition run_tasks (w : World) : World :=
  fold_left (λ w t,
      snd (update_user_level_role (task_user t) (task_guild t)
             (task_old_level t) (task_new_level t) w))
    (pending w) (set_pending (λ _, []) w).

(** [asyncio.create_task(self.update_user_level_role(...))] *)
Definition create_task (t : Task) (w : World) : World :=
  set_pending (λ ts, ts ++ [t]) w.

(** [UPDATE users SET level = ? WHERE user_id = ? AND guild_id = ?] *)
Definition store_level (user_id guild_id new_level : Z) (w : World) : World :=
  set_db (set_users (alter (λ row, {| row_xp := row_xp row; row_level := new_level |})
                           (user_id, guild_id))) w.

(** [UPDATE users SET xp = ? WHERE user_id = ? AND guild_id = ?] *)
Definition store_xp (user_id guild_id new_xp : Z) (w : World) : World :=
  set_db (set_users (alter (λ row, {| row_xp := new_xp; row_level := row_level row |})
                           (user_id, guild_id))) w.

(** [QuestBot.update_user_xp]: binding the new base XP to the [UPDATE]
    raises when it does not fit, after the row has been read or
    created. *)
Definition update_user_xp (user_id guild_id xp_change : Z) : Act (Z * Z) :=
  λ w, match db_connection (quest_bot w) with
       | None => (Return (0, 1), w)
       | Some _ =>
           (let* current_data := lift (get_user_data user_id guild_id) in
            let old_level := row_level current_data in
            let new_base_xp := Z.max 0 (row_xp current_data + xp_change) in
            let* _ := bind_int new_base_xp in
            let* _ := lift (λ w, (tt, store_xp user_id guild_id new_base_xp w)) in
            let* total_xp := lift (calculate_total_user_xp user_id guild_id) in
            let new_level := calculate_level total_xp in
            if bool_decide (old_level ≠ new_level)
            then
              let* _ := lift (λ w,
                (tt, create_task {| task_user := user_id; task_guild := guild_id;
                                    task_old_level := old_level;
                                    task_new_level := new_level |}
                       (store_level user_id guild_id new_level w))) in
              ret (total_xp, new_level)
            else ret (total_xp, new_level)) w
       end.

(** [check_and_update_level_roles]; [calculate_total_user_xp] catches
    what it raises and a level of the table fits the store, so nothing
    in its [try] block raises and its [except] branch, which answers
    [(1, 1, 0)], is not reached. *)
Definition check_and_update_level_roles (user_id guild_id : Z) (w : World)
    : (Z * Z * Z) * World :=
  let '(current_data, w) := get_user_data user_id guild_id w in
  let old_level := row_level current_data in
  let '(current_total_xp, w) := calculate_total_user_xp user_id guild_id w in
  let new_level := calculate_level current_total_xp in
  if bool_decide (old_level ≠ new_level)
  then match db_connection (quest_bot w) with
       | Some _ =>
           ((old_level, new_level, current_total_xp),
            create_task {| task_user := user_id; task_guild := guild_id;
                           task_old_level := old_level; task_new_level := new_level |}
              (store_level user_id guild_id new_level w))
       | None => ((old_level, new_level, current_total_xp), w)
       end
  else ((old_level, old_level, current_total_xp), w).

(** ** The channel gate *)

(** [QuestBot.get_whitelisted_channels] *)
Definition get_whitelisted_channels (qb : QuestBot) (guild_id : Z) : list (Z * string) :=
  match db_connection qb with
  | Some db =>
      (λ row, (wl_channel_id row, wl_channel_name row)) <$>
        filter (λ row, wl_guild_id row = guild_id) (whitelisted_channels db)
  | None => []
  end.

(** What the global check reads of a command invocation: [ctx.guild]
    ([None] in a direct message), [ctx.author.guild_permissions
    .manage_guild], the name of [ctx.command] if any, [ctx.channel.id]. *)
Record Context := {
  ctx_guild : option Z;
  ctx_manage_guild : bool;
  ctx_command : option string;
  ctx_channel : Z;
}.

(** [is_channel_whitelisted_check] *)
Definition is_channel_whitelisted_check (qb : QuestBot) (ctx : Context) : bool :=
  match ctx_guild ctx with
  | None => true
  | Some guild_id =>
      if ctx_manage_guild ctx then true
      else if bool_decide (ctx_command ctx = Some "whitelist") then true
      else
        let whitelisted_channels := get_whitelisted_channels qb guild_id in
        match whitelisted_channels with
        | [] => true
        | _ =>
            let whitelisted_channel_ids := fst <$> whitelisted_channels in
            if bool_decide (ctx_channel ctx ∉ whitelisted_channel_ids)
            then false
            else true
        end
  end.

(** A channel a message is sent to: its id and its guild, if it has
    one. *)
Record ChannelRef := { channel_id : Z; channel_guild : option Z }.

(** [await channel.send(...)]: the coroutine is suspended, the tasks
    created so far run, and the message is out. *)
Definition channel_send (channel : Z) (notice : Notice) (w : World) : World :=
  set_sent (λ log, log ++ [(channel, notice)]) (run_tasks w).

(** [send_whitelisted_message]: [true] when a message was sent, [false]
    for the [None] of a suppressed one. *)
Definition send_whitelisted_message (channel : ChannelRef) (notice : Notice) (w : World)
    : bool * World :=
  match channel_guild channel with
  | None => (true, channel_send (channel_id channel) notice w)
  | Some guild_id =>
      let whitelisted_channels := get_whitelisted_channels (quest_bot w) guild_id in
      match whitelisted_channels with
      | [] => (true, channel_send (channel_id channel) notice w)
      | _ =>
          let whitelisted_channel_ids := fst <$> whitelisted_channels in
          if bool_decide (channel_id channel ∈ whitelisted_channel_ids)
          then (true, channel_send (channel_id channel) notice w)
          else (false, w)
      end
  end.

(** ** The event reactor *)

(** What [on_reaction_add] reads of [reaction] and [user]: whether
    [str(reaction.emoji)] is the check mark, the message with its guild
    and channel, [user.id] ([reaction_user]) and [user.bot]. *)
Record Reaction := {
  emoji_is_check : bool;
  message_id : Z;
  message_guild : Z;
  message_channel : Z;
  reaction_user : Z;
  user_bot : bool;
}.

(** [INSERT OR IGNORE INTO users (user_id, guild_id, xp, level)
    VALUES (?, ?, 0, 1)], under [if quest_bot.db_connection]. *)
Definition insert_or_ignore_user (user_id guild_id : Z) (w : World) : World :=
  set_db (set_users (λ rows,
    match rows !! (user_id, guild_id) with
    | Some _ => rows
    | None => <[(user_id, guild_id) := new_user_row]> rows
    end)) w.

(** The three steps both opt-in branches share once the Level 1 role is
    at hand: grant it, initialise the ledger row, confirm. *)
Definition grant_level_1 (reaction : Reaction) (level_1_role : Role) : Act unit :=
  let* _ := add_roles (message_guild reaction) (reaction_user reaction) level_1_role in
  let* _ := lift (λ w, (tt, insert_or_ignore_user (reaction_user reaction)
                              (message_guild reaction) w)) in
  lift (λ w, (tt, snd (send_whitelisted_message
                         {| channel_id := message_channel reaction;
                            channel_guild := Some (message_guild reaction) |}
                         (Welcome (reaction_user reaction)) w))).

(** The opt-in branch of [on_reaction_add]. *)
Definition on_optin_reaction (reaction : Reaction) : World → unit * World :=
  try_except
    (let* guild := reading (get_guild (message_guild reaction)) in
     match guild with
     | None => raise
     | Some guild =>
         let* member := reading (λ _, get_member guild (reaction_user reaction)) in
         match member with
         | None => ret tt
         | Some roles =>
             let has_level_role := existsb is_level_role roles in
             if negb has_level_role then
               match utils_get (guild_roles guild) "Level 1" with
               | Some level_1_role =>
                   lift (try_except (grant_level_1 reaction level_1_role) (λ w, (tt, w)))
               | None =>
                   lift (try_except
                     (let* _ := lift (create_level_roles (message_guild reaction)) in
                      let* guild_roles := reading (roles_of_guild (message_guild reaction)) in
                      match utils_get guild_roles "Level 1" with
                      | Some level_1_role => grant_level_1 reaction level_1_role
                      | None => ret tt
                      end)
                     (λ w, (tt, w)))
               end
             else ret tt
         end
     end)
    (λ w, (tt, w)).

(** [UPDATE quests SET completed_users = ? WHERE message_id = ?] *)
Definition store_completed_users (message_id : Z) (completed : list Z) (w : World) : World :=
  set_db (set_quests (alter (λ q,
    {| quest_guild_id := quest_guild_id q; quest_channel_id := quest_channel_id q;
       quest_title := quest_title q; completed_users := completed;
       xp_reward := xp_reward q |}) message_id)) w.

(** The quest branch of [on_reaction_add].  It is under no [try]: when
    [update_user_xp] raises, the handler ends there. *)
Definition on_quest_reaction (reaction : Reaction) (w : World) : World :=
  match db_connection (quest_bot w) with
  | None => w
  | Some db =>
      match quests db !! message_id reaction with
      | None => w
      | Some quest_data =>
          if negb (is_user_opted_in (reaction_user reaction) (message_guild reaction) w) then w
          else
            let reward := default 50 (xp_reward quest_data) in
            let completed := completed_users quest_data in
            if bool_decide (reaction_user reaction ∉ completed) then
              match update_user_xp (reaction_user reaction) (message_guild reaction)
                      reward w with
              | (Return (new_xp, new_level), w) =>
                  let completed := completed ++ [reaction_user reaction] in
                  let w := store_completed_users (message_id reaction) completed w in
                  snd (send_whitelisted_message
                         {| channel_id := message_channel reaction;
                            channel_guild := Some (message_guild reaction) |}
                         (QuestCompleted (reaction_user reaction) reward new_xp new_level) w)
              | (Raise, w) => w
              end
            else w
      end
  end.

(** [quest_bot.optin_message_id and reaction.message.id ==
    quest_bot.optin_message_id] *)
Definition is_optin_message (qb : QuestBot) (message_id : Z) : bool :=
  match optin_message_id qb with
  | Some m => bool_decide (m ≠ 0) && bool_decide (message_id = m)
  | None => false
  end.

(** [on_reaction_add] *)
Definition on_reaction_add (reaction : Reaction) (w : World) : World :=
  if user_bot reaction then w
  else if emoji_is_check reaction then
    if is_optin_message (quest_bot w) (message_id reaction)
    then snd (on_optin_reaction reaction w)
    else on_quest_reaction reaction w
  else w.

(** [set(after.roles) - set(before.roles)], in the order of
    [after.roles]. *)
Fixpoint added_roles (before after : list Role) : list Role :=
  match after with
  | [] => []
  | role :: rest =>
      if role_in role before || role_in role rest
      then added_roles before rest
      else role :: added_roles before rest
  end.

(** [for channel in after.guild.text_channels: if ... send_messages:
    await channel.send(embed=embed); break] *)
Definition send_to_first_channel (guild_id : Z) (notice : Notice) (w : World) : World :=
  match get_guild guild_id w with
  | Return (Some g) =>
      match find send_messages (text_channels g) with
      | Some channel => channel_send (text_channel_id channel) notice w
      | None => w
      end
  | _ => w
  end.

(** [f" -> Level {new_level}!" if old_level != new_level else ""] *)
Definition level_text (old_level new_level : Z) : option Z :=
  if bool_decide (old_level ≠ new_level) then Some new_level else None.

(** The body of the loop of [on_member_update] over the added roles. *)
Definition on_role_added (user_id guild_id : Z) (role : Role) : Act unit :=
  λ w,
  if negb (is_user_opted_in user_id guild_id w) then (Return tt, w)
  else
    match get_role_xp_and_type (quest_bot w) guild_id (Str.str (role_id role)) with
    | Some (reward, role_type) =>
        if bool_decide (role_type = "streak") then
          match record_streak_role_gain user_id guild_id (role_id role)
                  (role_name role) reward w with
          | (Return _, w) =>
              let '((old_level, new_level, total_xp), w) :=
                check_and_update_level_roles user_id guild_id w in
              (Return tt,
               send_to_first_channel guild_id
                 (StreakRoleGained user_id role reward total_xp
                    (level_text old_level new_level)) w)
          | (Raise, w) => (Raise, w)
          end
        else
          let '((old_level, new_level, total_xp), w) :=
            check_and_update_level_roles user_id guild_id w in
          (Return tt,
           send_to_first_channel guild_id
             (RoleGained user_id role reward total_xp (level_text old_level new_level)) w)
    | None =>
        if Str.contains "badge" (Str.lower (role_name role)) then
          let '((old_level, new_level, total_xp), w) :=
            check_and_update_level_roles user_id guild_id w in
          (Return tt,
           send_to_first_channel guild_id
             (RoleGained user_id role 5 total_xp (level_text old_level new_level)) w)
        else (Return tt, w)
    end.

(** [on_member_update(before, after)], with [after.id], [after.guild.id],
    [before.roles] and [after.roles].  The loop is under no [try]: when
    the body raises, the handler ends there. *)
Definition on_member_update (user_id guild_id : Z) (before after : list Role)
    (w : World) : World :=
  snd (for_each (added_roles before after) (on_role_added user_id guild_id) w).

(** ** Administrative XP commands *)

(** [add_xp_command], invoked in channel [channel] of guild [guild_id];
    its [except] branch answers "Error adding XP". *)
Definition add_xp_command (guild_id channel amount member : Z) (w : World) : World :=
  if negb (is_user_opted_in member guild_id w)
  then channel_send channel (UserNotOptedIn member) w
  else
    match update_user_xp member guild_id amount w with
    | (Return (new_total_xp, new_level), w) =>
        channel_send channel (XpAdded member amount new_total_xp new_level) w
    | (Raise, w) => channel_send channel (XpError "adding XP") w
    end.

(** [remove_xp_command]; its [except] branch answers "Error removing
    XP". *)
Definition remove_xp_command (guild_id channel amount member : Z) (w : World) : World :=
  if negb (is_user_opted_in member guild_id w)
  then channel_send channel (UserNotOptedIn member) w
  else
    match update_user_xp member guild_id (- amount) w with
    | (Return (new_total_xp, new_level), w) =>
        channel_send channel (XpRemoved member amount new_total_xp new_level) w
    | (Raise, w) => channel_send channel (XpError "removing XP") w
    end.

(** ** Events as the platform delivers them *)

(** An event handler has completed once the event loop has also run the
    tasks it created. *)
Definition completes (handler : World → World) (w : World) : World :=
  run_tasks (handler w).

(** Somebody grants [role] to a member: the cache is updated, then
    [on_member_update] is dispatched. *)
Definition member_gains_role (user_id guild_id : Z) (role : Role) (w : World) : World :=
  match member_roles guild_id user_id w with
  | Return before =>
      let after := if role_in role before then before else before ++ [role] in
      completes (on_member_update user_id guild_id before after)
        (update_member_roles guild_id user_id (λ _, after) w)
  | Raise => w
  end.

(** Somebody revokes [role] from a member. *)
Definition member_loses_role (user_id guild_id : Z) (role : Role) (w : World) : World :=
  match member_roles guild_id user_id w with
  | Return before =>
      let after := filter (λ r, r ≠ role) before in
      completes (on_member_update user_id guild_id before after)
        (update_member_roles guild_id user_id (λ _, after) w)
  | Raise => w
  end.

(** ** Further operations of the store *)

(** [QuestBot.unassign_role_xp] *)
Definition unassign_role_xp (guild_id : Z) (role_id : string) (qb : QuestBot) : QuestBot :=
  match role_xp_assignments qb !! guild_id with
  | Some assignments =>
      match assignments !! role_id with
      | Some _ =>
          {| db_connection := db_connection qb;
             role_xp_assignments :=
               <[guild_id := delete role_id assignments]> (role_xp_assignments qb);
             optin_message_id := optin_message_id qb |}
      | None => qb
      end
  | None => qb
  end.

Definition set_whitelisted_channels (f : list WhitelistRow → list WhitelistRow) (db : DB) : DB :=
  {| users := users db; quests := quests db;
     whitelisted_channels := f (whitelisted_channels db);
     streak_role_gains := streak_role_gains db |}.

(** The bot after a statement has changed its database. *)
Definition with_db (f : DB → DB) (qb : QuestBot) : QuestBot :=
  {| db_connection := f <$> db_connection qb;
     role_xp_assignments := role_xp_assignments qb;
     optin_message_id := optin_message_id qb |}.

(** [WHERE guild_id = ? AND channel_id = ?] on [whitelisted_channels]. *)
Definition is_row_of (guild_id channel_id : Z) (row : WhitelistRow) : Prop :=
  wl_guild_id row = guild_id ∧ wl_channel_id row = channel_id.

#[global] Instance is_row_of_dec guild_id channel_id row :
  Decision (is_row_of guild_id channel_id row).
Proof. unfold is_row_of. apply _. Defined.

(** [QuestBot.add_whitelisted_channel]: the table is declared
    [UNIQUE(guild_id, channel_id)], so [INSERT OR REPLACE] deletes the
    row of the channel, if there is one, and inserts the new row. *)
Definition add_whitelisted_channel (guild_id channel_id : Z) (channel_name : string)
    (qb : QuestBot) : bool * QuestBot :=
  match db_connection qb with
  | Some _ =>
      (true,
       with_db (set_whitelisted_channels (λ rows,
         filter (λ row, ¬ is_row_of guild_id channel_id row) rows
         ++ [{| wl_guild_id := guild_id; wl_channel_id := channel_id;
                wl_channel_name := channel_name |}])) qb)
  | None => (false, qb)
  end.


(** [QuestBot.is_channel_whitelisted]: without a connection the answer
    is the final [return True]. *)
Definition is_channel_whitelisted (qb : QuestBot) (guild_id channel_id : Z) : bool :=
  match db_connection qb with
  | Some db =>
      match filter (is_row_of guild_id channel_id) (whitelisted_channels db) with
      | [] => false
      | _ :: _ => true
      end
  | None => true
  end.


(** ** The leaderboard *)

(** [l.sort(key=key, reverse=True)]: descending by key, and entries
    with equal keys stay in the order they had. *)
Fixpoint insert_desc {A} (key : A → Z) (x : A) (l : list A) : list A :=
  match l with
  | [] => [x]
  | y :: rest => if key x <=? key y then y :: insert_desc key x rest else x :: l
  end.

Definition sort_desc {A} (key : A → Z) (l : list A) : list A :=
  fold_left (λ sorted x, insert_desc key x sorted) l [].

(** [l[:limit]] *)
Definition slice_to {A} (limit : Z) (l : list A) : list A :=
  if limit <? 0 then take (length l - Z.to_nat (- limit)) l
  else take (Z.to_nat limit) l.

(** [SELECT user_id, xp, level FROM users WHERE guild_id = ? ORDER BY xp
    DESC].  SQL leaves the order of rows with equal xp open; here it is
    the order of the keys of the map. *)
Definition select_users_by_xp (db : DB) (guild_id : Z) : list (Z * Z * Z) :=
  sort_desc (λ row, row.1.2)
    ((λ entry, (entry.1.1, row_xp entry.2, row_level entry.2)) <$>
       filter (λ entry, entry.1.2 = guild_id) (map_to_list (users db))).

(** The loop of [get_leaderboard] over the rows fetched. *)
Definition users_with_total_xp (guild_id : Z) (all_users : list (Z * Z * Z)) (w : World)
    : list (Z * Z * Z) * World :=
  fold_left (λ (state : list (Z * Z * Z) * World) (row : Z * Z * Z),
      let user_id := row.1.1 in
      if is_user_opted_in user_id guild_id state.2 then
        let '(total_xp, w) := calculate_total_user_xp user_id guild_id state.2 in
        let new_level := calculate_level total_xp in
        (state.1 ++ [(user_id, total_xp, new_level)], w)
      else state)
    all_users ([], w).

(** [QuestBot.get_leaderboard]: entries [(user_id, total_xp, level)]. *)
Definition get_leaderboard (guild_id limit : Z) (w : World) : list (Z * Z * Z) * World :=
  match db_connection (quest_bot w) with
  | None => ([], w)
  | Some db =>
      let all_users := select_users_by_xp db guild_id in
      let '(entries, w) := users_with_total_xp guild_id all_users w in
      (slice_to limit (sort_desc (λ entry, entry.1.2) entries), w)
  end.

(** ** Commands that answer with figures *)

(** What the confirmation of [set_xp_command] says: the member, the
    amount asked for, the new total and the new level. *)
Record XpSet := {
  set_member : Z;
  set_amount : Z;
  set_total : Z;
  set_level : Z;
}.

(** [set_xp_command], invoked in channel [channel] of guild [guild_id].
    The refusal is sent as for the other XP commands, and so is the
    "Error setting XP" of the [except] branch; the confirmation is the
    result, and sending it lets the pending tasks run. *)
Definition set_xp_command (guild_id channel amount member : Z) (w : World)
    : option XpSet * World :=
  if negb (is_user_opted_in member guild_id w)
  then (None, channel_send channel (UserNotOptedIn member) w)
  else
    let '(current_data, w) := get_user_data member guild_id w in
    let current_base_xp := row_xp current_data in
    let xp_change := amount - current_base_xp in
    match update_user_xp member guild_id xp_change w with
    | (Return (new_total_xp, new_level), w) =>
        (Some {| set_member := member; set_amount := amount;
                 set_total := new_total_xp; set_level := new_level |},
         run_tasks w)
    | (Raise, w) => (None, channel_send channel (XpError "setting XP") w)
    end.

(** The figures [check_xp] and [check_member_xp] compute for their
    embed, before the progress bar. *)
Record XpReport := {
  report_xp : Z;
  report_level : Z;
  report_quest_xp : Z;
  report_streak_xp : Z;
  report_badge_xp : Z;
  report_auto_badge_xp : Z;
  report_xp_needed : Z;
}.

(** The loop of [check_xp] over [target_member.roles]: the XP of the
    roles assigned as badges, and 5 for each unassigned role named as a
    badge. *)
Definition badge_breakdown (qb : QuestBot) (guild_id : Z) (roles : list Role) : Z * Z :=
  fold_left (λ (acc : Z * Z) role,
    if is_level_role role then acc
    else match get_role_xp_and_type qb guild_id (Str.str (role_id role)) with
         | Some (xp_amount, role_type) =>
             if bool_decide (role_type = "badge") then (acc.1 + xp_amount, acc.2) else acc
         | None =>
             if Str.contains "badge" (Str.lower (role_name role))
             then (acc.1, acc.2 + 5) else acc
         end) roles (0, 0).

(** The figures of [check_xp] for a member whose [roles] are read once
    the opt-in check has passed.  When a call raises, the [except]
    branch of the command answers that the data could not be retrieved
    and no figure is shown. *)
Definition xp_report (guild_id target_member : Z) (roles : list Role) : Act XpReport :=
  let* current_xp := lift (calculate_total_user_xp target_member guild_id) in
  let current_level := calculate_level current_xp in
  let* user_data := lift (get_user_data target_member guild_id) in
  let quest_xp := row_xp user_data in
  let* streak_xp :=
    reading (λ w, get_accumulated_streak_xp (quest_bot w) target_member guild_id) in
  let* qb := reading (λ w, Return (quest_bot w)) in
  let badges := badge_breakdown qb guild_id roles in
  let next_level := Z.min (current_level + 1) 10 in
  let next_level_xp := default (threshold 10) (LEVEL_THRESHOLDS !! next_level) in
  let xp_needed := Z.max 0 (next_level_xp - current_xp) in
  ret {| report_xp := current_xp; report_level := current_level;
         report_quest_xp := quest_xp; report_streak_xp := streak_xp;
         report_badge_xp := badges.1; report_auto_badge_xp := badges.2;
         report_xp_needed := xp_needed |}.

(** ** Saved settings *)

(** A value of the JSON object kept in the column [role_xp_assignments]
    of [settings]: an integer in the old format, [{"xp": ..., "type":
    ...}] in the new one. *)
Inductive StoredAssignment :=
| OldFormat (xp : Z)
| NewFormat (data : RoleXp).

(** A row of [settings], keyed by [guild_id]: the decoded column
    [role_xp_assignments] and the column [optin_message_id], which may
    be NULL.  The other columns hold fields that [QuestBot] above leaves
    out. *)
Record SettingsRow := {
  settings_role_xp : gmap string StoredAssignment;
  settings_optin_message_id : option Z;
}.

(** [QuestBot.save_settings], as a function on the table [settings]. *)
Definition save_settings (guild_id : Z) (qb : QuestBot) (settings : gmap Z SettingsRow)
    : gmap Z SettingsRow :=
  match db_connection qb with
  | None => settings
  | Some _ =>
      <[guild_id :=
          {| settings_role_xp :=
               NewFormat <$> default ∅ (role_xp_assignments qb !! guild_id);
             settings_optin_message_id := optin_message_id qb |}]> settings
  end.

(** The body of the migration loop of [load_settings]. *)
Definition migrated (data : StoredAssignment) : RoleXp :=
  match data with
  | OldFormat xp => {| assigned_xp := xp; assigned_type := "badge" |}
  | NewFormat data => data
  end.

(** [QuestBot.load_settings], reading the table [settings]. *)
Definition load_settings (guild_id : Z) (settings : gmap Z SettingsRow) (qb : QuestBot)
    : QuestBot :=
  match db_connection qb with
  | None => qb
  | Some _ =>
      match settings !! guild_id with
      | None => qb
      | Some result =>
          {| db_connection := db_connection qb;
             role_xp_assignments :=
               <[guild_id := migrated <$> settings_role_xp result]>
                 (role_xp_assignments qb);
             optin_message_id := settings_optin_message_id result |}
      end
  end.

(** ** The assignment commands *)

(** What the commands below do to the bot and to the table [settings];
    [None] when they refuse.  Each then sends its confirmation. *)

(** [assign_role_xp] (assignroleXP) in guild [guild_id];
    [role_type_lower] is [role_type.lower()]. *)
Definition assign_role_xp_command (guild_id xp_amount : Z) (role : Role)
    (role_type_lower : string) (qb : QuestBot) (settings : gmap Z SettingsRow)
    : option (QuestBot * gmap Z SettingsRow) :=
  if bool_decide (role_type_lower ∉ ["badge"; "streak"]) then None
  else
    let qb := assign_role_xp guild_id (Str.str (role_id role)) xp_amount role_type_lower qb in
    Some (qb, save_settings guild_id qb settings).

(** The body shared by [assign_streak_xp_multi] (assignstreakXP) and
    [assign_badge_xp_multi] (assignbadgeXP), which assign the type
    "streak" and the type "badge". *)
Definition assign_xp_multi (role_type : string) (guild_id xp_amount : Z) (roles : list Role)
    (qb : QuestBot) (settings : gmap Z SettingsRow)
    : option (QuestBot * gmap Z SettingsRow) :=
  match roles with
  | [] => None
  | _ =>
      if bool_decide (xp_amount ≤ 0) then None
      else
        let qb := fold_left (λ qb role,
                    assign_role_xp guild_id (Str.str (role_id role)) xp_amount role_type qb)
                    roles qb in
        Some (qb, save_settings guild_id qb settings)
  end.

Definition assign_streak_xp_multi := assign_xp_multi "streak".

Definition assign_badge_xp_multi := assign_xp_multi "badge".

(** [unassign_role_xp] (unassignroleXP) *)
Definition unassign_role_xp_command (guild_id : Z) (roles : list Role)
    (qb : QuestBot) (settings : gmap Z SettingsRow)
    : option (QuestBot * gmap Z SettingsRow) :=
  match roles with
  | [] => None
  | _ =>
      let qb := fold_left (λ qb role,
                  unassign_role_xp guild_id (Str.str (role_id role)) qb) roles qb in
      Some (qb, save_settings guild_id qb settings)
  end.

(** ** Observations used in the statements *)

(** The ledger row of a user, if the store has one. *)
Definition ledger_row (w : World) (user_id guild_id : Z) : option UserRow :=
  db_connection (quest_bot w) ≫= λ db, users db !! (user_id, guild_id).

(** The persisted base XP of a user: that of the ledger row, 0 without
    one. *)
Definition stored_xp (w : World) (user_id guild_id : Z) : Z :=
  default 0 (row_xp <$> ledger_row w user_id guild_id).

(** The quest row of a message, if the store has one. *)
Definition quest_row (w : World) (message_id : Z) : option QuestRow :=
  db_connection (quest_bot w) ≫= λ db, quests db !! message_id.

(** The streak-gain log of a user. *)
Definition streak_log (w : World) (user_id guild_id : Z) : list StreakGain :=
  match db_connection (quest_bot w) with
  | Some db => streak_gains_of db user_id guild_id
  | None => []
  end.

Definition sumZ (values : list Z) : Z := foldr Z.add 0 values.

(** Every sum of the first [k] of some values fits an SQLite INTEGER:
    adding them up one after the other never leaves 64 bits. *)
Definition sums_fit (values : list Z) : Prop :=
  Forall (λ k, fits_int64 (sumZ (take k values)) = true) (seq 0 (S (length values))).

#[global] Instance sums_fit_dec values : Decision (sums_fit values).
Proof. unfold sums_fit. apply _. Defined.

(** The same of the streak-gain log of a user. *)
Definition streak_log_sums_fit (w : World) (user_id guild_id : Z) : Prop :=
  sums_fit (xp_awarded <$> streak_log w user_id guild_id).

#[global] Instance streak_log_sums_fit_dec w user_id guild_id :
  Decision (streak_log_sums_fit w user_id guild_id).
Proof. unfold streak_log_sums_fit. apply _. Defined.

(** The level markers among some roles. *)
Definition level_markers (roles : list Role) : list Role :=
  filter (λ r, is_level_role r = true) roles.

(** ** The aggregation rule in the words of the specification *)

Module Spec.

(** The explicit assignment of a role, if it has one. *)
Definition assignment (qb : QuestBot) (guild_id : Z) (r : Role) : option RoleXp :=
  role_xp_assignments qb !! guild_id ≫= λ assignments,
    assignments !! Str.str (role_id r).

(** The held roles that are not level markers. *)
Definition non_level (roles : list Role) : list Role :=
  filter (λ r, is_level_role r = false) roles.

(** xp of a role with an explicit Badge assignment; nothing
    otherwise. *)
Definition badge_xp (qb : QuestBot) (guild_id : Z) (r : Role) : Z :=
  match assignment qb guild_id r with
  | Some a => if bool_decide (assigned_type a = "badge") then assigned_xp a else 0
  | None => 0
  end.

(** 5 for a role whose name contains "badge" case-insensitively and
    that has no explicit assignment; nothing otherwise. *)
Definition name_badge_xp (qb : QuestBot) (guild_id : Z) (r : Role) : Z :=
  match assignment qb guild_id r with
  | Some _ => 0
  | None => if Str.contains "badge" (Str.lower (role_name r)) then 5 else 0
  end.

(** The sum of the logged streak gains. *)
Definition accumulated_streak_xp (w : World) (user_id guild_id : Z) : Z :=
  sumZ (xp_awarded <$> streak_log w user_id guild_id).

(** total = baseXp + badge XP of the held roles + 5 per held
    unassigned badge-named role + accumulated streak XP. *)
Definition total_xp (w : World) (user_id guild_id : Z) (held : list Role) : Z :=
  stored_xp w user_id guild_id
  + sumZ (badge_xp (quest_bot w) guild_id <$> non_level held)
  + sumZ (name_badge_xp (quest_bot w) guild_id <$> non_level held)
  + accumulated_streak_xp w user_id guild_id.

(** Every explicit assignment of the guild is a Badge or a Streak
    one, as the assignment commands make them. *)
Definition kinds_ok (qb : QuestBot) (guild_id : Z) : Prop :=
  map_Forall (λ _ a, assigned_type a = "badge" ∨ assigned_type a = "streak")
             (default ∅ (role_xp_assignments qb !! guild_id)).

(** A role that the rule excludes: a level marker, or a role with an
    explicit Streak assignment. *)
Definition excluded (qb : QuestBot) (guild_id : Z) (r : Role) : bool :=
  is_level_role r ||
  match assignment qb guild_id r with
  | Some a => bool_decide (assigned_type a = "streak")
  | None => false
  end.

End Spec.

(** ** Notions used in the proofs *)

(** Every run of the block relates the world before to the world after,
    also when it raises. *)
Definition keeps {A} (R : relation World) (m : Act A) : Prop := ∀ w, R w (m w).2.

(** The same for code that cannot raise. *)
Definition keeps_fn {A} (R : relation World) (f : World → A * World) : Prop :=
  ∀ w, R w (f w).2.

(** Only the platform cache differs. *)
Definition same_bot_state (w w' : World) : Prop :=
  quest_bot w' = quest_bot w ∧ sent w' = sent w ∧ pending w' = pending w.

(** Only the store differs, and of the store only [users]. *)
Definition same_but_users (w w' : World) : Prop :=
  guilds w' = guilds w ∧ sent w' = sent w ∧ pending w' = pending w ∧
  role_xp_assignments (quest_bot w') = role_xp_assignments (quest_bot w) ∧
  optin_message_id (quest_bot w') = optin_message_id (quest_bot w) ∧
  (quests <$> db_connection (quest_bot w')) = (quests <$> db_connection (quest_bot w)) ∧
  (whitelisted_channels <$> db_connection (quest_bot w'))
    = (whitelisted_channels <$> db_connection (quest_bot w)) ∧
  (streak_role_gains <$> db_connection (quest_bot w'))
    = (streak_role_gains <$> db_connection (quest_bot w)).

(** Everything but the ledger rows and the pending tasks is the same. *)
Definition same_but_ledger (w w' : World) : Prop :=
  guilds w' = guilds w ∧ sent w' = sent w ∧
  role_xp_assignments (quest_bot w') = role_xp_assignments (quest_bot w) ∧
  optin_message_id (quest_bot w') = optin_message_id (quest_bot w) ∧
  (quests <$> db_connection (quest_bot w')) = (quests <$> db_connection (quest_bot w)) ∧
  (whitelisted_channels <$> db_connection (quest_bot w'))
    = (whitelisted_channels <$> db_connection (quest_bot w)) ∧
  (streak_role_gains <$> db_connection (quest_bot w'))
    = (streak_role_gains <$> db_connection (quest_bot w)).

(** The world after the first two statements of [update_user_xp]: the
    row read (and created if absent) and the clamped base XP stored. *)
Definition after_xp_stored (user_id guild_id xp_change : Z) (w : World) : World :=
  store_xp user_id guild_id (Z.max 0 (stored_xp w user_id guild_id + xp_change))
    (get_user_data user_id guild_id w).2.

(** What [update_user_xp] returns and leaves on a store that takes the
    new base XP. *)
Definition updated_user_xp (user_id guild_id xp_change : Z) (w : World) : (Z * Z) * World :=
  match db_connection (quest_bot w) with
  | None => ((0, 1), w)
  | Some _ =>
      let '(current_data, w) := get_user_data user_id guild_id w in
      let old_level := row_level current_data in
      let new_base_xp := Z.max 0 (row_xp current_data + xp_change) in
      let w := store_xp user_id guild_id new_base_xp w in
      let '(total_xp, w) := calculate_total_user_xp user_id guild_id w in
      let new_level := calculate_level total_xp in
      if bool_decide (old_level ≠ new_level)
      then ((total_xp, new_level),
            create_task {| task_user := user_id; task_guild := guild_id;
                           task_old_level := old_level; task_new_level := new_level |}
              (store_level user_id guild_id new_level w))
      else ((total_xp, new_level), w)
  end.

(** What [record_streak_role_gain] leaves on a store that takes the
    amount. *)
Definition logged_gain (user_id guild_id role_id : Z) (role_name : string)
    (xp_awarded : Z) (w : World) : World :=
  match db_connection (quest_bot w) with
  | None => w
  | Some _ =>
      insert_streak_gain
        {| gain_user_id := user_id; gain_guild_id := guild_id;
           gain_role_id := role_id; gain_role_name := role_name;
           xp_awarded := xp_awarded |} w
  end.

(** What [on_role_added] leaves when the store takes the gain. *)
Definition role_added (user_id guild_id : Z) (role : Role) (w : World) : World :=
  if negb (is_user_opted_in user_id guild_id w) then w
  else
    match get_role_xp_and_type (quest_bot w) guild_id (Str.str (role_id role)) with
    | Some (reward, role_type) =>
        if bool_decide (role_type = "streak") then
          let w := logged_gain user_id guild_id (role_id role)
                     (role_name role) reward w in
          let '((old_level, new_level, total_xp), w) :=
            check_and_update_level_roles user_id guild_id w in
          send_to_first_channel guild_id
            (StreakRoleGained user_id role reward total_xp (level_text old_level new_level)) w
        else
          let '((old_level, new_level, total_xp), w) :=
            check_and_update_level_roles user_id guild_id w in
          send_to_first_channel guild_id
            (RoleGained user_id role reward total_xp (level_text old_level new_level)) w
    | None =>
        if Str.contains "badge" (Str.lower (role_name role)) then
          let '((old_level, new_level, total_xp), w) :=
            check_and_update_level_roles user_id guild_id w in
          send_to_first_channel guild_id
            (RoleGained user_id role 5 total_xp (level_text old_level new_level)) w
        else w
    end.

(** The store refuses the gain of [role]: the member has opted in, the
    role is a streak role, and its amount does not fit an SQLite
    INTEGER. *)
Definition gain_refused (user_id guild_id : Z) (role : Role) (w : World) : bool :=
  is_user_opted_in user_id guild_id w &&
  bool_decide (is_Some (db_connection (quest_bot w))) &&
  match get_role_xp_and_type (quest_bot w) guild_id (Str.str (role_id role)) with
  | Some (reward, role_type) =>
      bool_decide (role_type = "streak") && negb (fits_int64 reward)
  | None => false
  end.

(** What [calculate_total_user_xp] adds to the base XP of a member
    whose roles it reads: nothing when the [SUM] over the streak log
    raises, since the [except] branch then answers the base XP. *)
Definition role_and_streak_xp (qb : QuestBot) (user_id guild_id : Z) (roles : list Role)
    : Z :=
  match get_accumulated_streak_xp qb user_id guild_id with
  | Return accumulated =>
      custom_role_xp qb guild_id roles + auto_role_xp qb guild_id roles + accumulated
  | Raise => 0
  end.

(** The rule as the specification words it, for a command invoked in a
    guild: privileged actors pass; with an empty whitelist every channel
    passes; otherwise a channel passes exactly when it is whitelisted. *)
Definition gate_as_specified (qb : QuestBot) (ctx : Context) (guild_id : Z) : Prop :=
  is_channel_whitelisted_check qb ctx = true ↔
  ctx_manage_guild ctx = true ∨
  get_whitelisted_channels qb guild_id = [] ∨
  ctx_channel ctx ∈ (fst <$> get_whitelisted_channels qb guild_id).



(** The guild with other roles for one member, and with other roles of
    its own. *)
Definition with_member_roles (user_id : Z) (roles : list Role) (g : Guild) : Guild :=
  set_guild_members <[user_id := Return roles]> g.

Definition with_guild_roles (roles : list Role) (g : Guild) : Guild :=
  set_guild_roles (λ _, roles) g.

(** What one turn of the loop of [create_level_roles] does to
    [guild.roles]. *)
Definition ensure_level_role (roles : list Role) (level : Z) : list Role :=
  match utils_get roles (level_role_name level) with
  | Some _ => roles
  | None =>
      roles ++ [{| role_id := fresh_role_id roles; role_name := level_role_name level |}]
  end.

Definition ensure_level_roles (levels : list Z) (roles : list Role) : list Role :=
  fold_left ensure_level_role levels roles.

(** A level marker other than the one of [new_level]: what the loop of
    [update_user_level_role] removes. *)
Definition stale_marker (new_level : Z) (r : Role) : bool :=
  is_level_role r && bool_decide (role_name r ≠ level_role_name new_level).

(** The roles of a member after [add_roles]. *)
Definition granted (role : Role) (roles : list Role) : list Role :=
  if role_in role roles then roles else roles ++ [role].

(** The guild [update_user_level_role] leaves when the member is in the
    cache and the bot may manage roles. *)
Definition synced_guild (user_id new_level : Z) (g : Guild) (roles : list Role) : Guild :=
  let kept := filter (λ r, stale_marker new_level r = false) roles in
  match utils_get (guild_roles g) (level_role_name new_level) with
  | Some new_role => with_member_roles user_id (granted new_role kept) g
  | None =>
      let ladder := ensure_level_roles [1; 2; 3; 4; 5; 6; 7; 8; 9; 10] (guild_roles g) in
      match utils_get ladder (level_role_name new_level) with
      | Some new_role =>
          with_member_roles user_id (granted new_role kept) (with_guild_roles ladder g)
      | None => with_member_roles user_id kept (with_guild_roles ladder g)
      end
  end.

(** No two roles of the guild share the name of a level marker. *)
Definition markers_distinct (g : Guild) : Prop :=
  Forall (λ r1,
    Forall (λ r2, is_level_role r1 = true → role_name r1 = role_name r2 → r1 = r2)
           (guild_roles g))
    (guild_roles g).


(** The invariant on level markers as the specification words it: the
    member holds exactly one level marker, the one of the level of the
    total. *)
Definition marker_matches_level (user_id guild_id : Z) (w : World) : Prop :=
  ∃ marker held,
    member_roles guild_id user_id w = Return held ∧
    level_markers held = [marker] ∧
    role_name marker
    = level_role_name (calculate_level (calculate_total_user_xp user_id guild_id w).1).

(** The roles of a member that are not level markers, if the member can
    be read. *)
Definition holdings (guild_id user_id : Z) (w : World) : outcome (list Role) :=
  match member_roles guild_id user_id w with
  | Return roles => Return (Spec.non_level roles)
  | Raise => Raise
  end.

(** Only the roles of guilds and the level markers held differ. *)
Definition same_holdings (w w' : World) : Prop :=
  same_bot_state w w' ∧
  ∀ guild_id user_id, holdings guild_id user_id w' = holdings guild_id user_id w.

(** Nothing differs, unless the bot may manage the roles of the
    guild. *)
Definition unchanged_unless_permitted (guild_id : Z) (w w' : World) : Prop :=
  may_manage_roles guild_id w = false → w' = w.

(** The other members keep their roles. *)
Definition same_other_members (guild_id user_id : Z) (w w' : World) : Prop :=
  ∀ g u, (g, u) ≠ (guild_id, user_id) → member_roles g u w' = member_roles g u w.


(** The [UNIQUE(guild_id, channel_id)] constraint of
    [whitelisted_channels]. *)
Definition whitelist_unique (qb : QuestBot) : Prop :=
  match db_connection qb with
  | Some db =>
      NoDup ((λ row, (wl_guild_id row, wl_channel_id row)) <$> whitelisted_channels db)
  | None => True
  end.

(** Two bots that differ at most in the whitelist table. *)
Definition same_but_whitelist (qb qb' : QuestBot) : Prop :=
  role_xp_assignments qb' = role_xp_assignments qb ∧
  optin_message_id qb' = optin_message_id qb ∧
  (users <$> db_connection qb') = (users <$> db_connection qb) ∧
  (quests <$> db_connection qb') = (quests <$> db_connection qb) ∧
  (streak_role_gains <$> db_connection qb') = (streak_role_gains <$> db_connection qb).

(** The assignments, the opt-in message and every table but [users] are
    the same. *)
Definition same_but_users_and_cache (w w' : World) : Prop :=
  role_xp_assignments (quest_bot w') = role_xp_assignments (quest_bot w) ∧
  optin_message_id (quest_bot w') = optin_message_id (quest_bot w) ∧
  (quests <$> db_connection (quest_bot w')) = (quests <$> db_connection (quest_bot w)) ∧
  (whitelisted_channels <$> db_connection (quest_bot w'))
    = (whitelisted_channels <$> db_connection (quest_bot w)) ∧
  (streak_role_gains <$> db_connection (quest_bot w'))
    = (streak_role_gains <$> db_connection (quest_bot w)).

(** What a role event may change of the store: the cached levels and
    the streak log of the member, which only grows. *)
Definition role_event_frame (user_id guild_id : Z) (w w' : World) : Prop :=
  (∀ u g, stored_xp w' u g = stored_xp w u g) ∧
  role_xp_assignments (quest_bot w') = role_xp_assignments (quest_bot w) ∧
  optin_message_id (quest_bot w') = optin_message_id (quest_bot w) ∧
  (quests <$> db_connection (quest_bot w')) = (quests <$> db_connection (quest_bot w)) ∧
  (whitelisted_channels <$> db_connection (quest_bot w'))
    = (whitelisted_channels <$> db_connection (quest_bot w)) ∧
  (∀ u g, (u, g) ≠ (user_id, guild_id) → streak_log w' u g = streak_log w u g) ∧
  streak_log w user_id guild_id `prefix_of` streak_log w' user_id guild_id.

(** What a handler that is about one user leaves alone: the ledger rows
    and the streak logs of the other users, the roles of everybody
    apart from level markers, and the role XP assignments. *)
Definition only_about (user_id guild_id : Z) (w w' : World) : Prop :=
  (∀ u g, (u, g) ≠ (user_id, guild_id) → ledger_row w' u g = ledger_row w u g) ∧
  (∀ u g, (u, g) ≠ (user_id, guild_id) → streak_log w' u g = streak_log w u g) ∧
  (∀ g u, holdings g u w' = holdings g u w) ∧
  role_xp_assignments (quest_bot w') = role_xp_assignments (quest_bot w).

(** The other users keep their ledger row and their total XP. *)
Definition others_untouched (user_id guild_id : Z) (w w' : World) : Prop :=
  ∀ u g, (u, g) ≠ (user_id, guild_id) →
    ledger_row w' u g = ledger_row w u g ∧
    (calculate_total_user_xp u g w').1 = (calculate_total_user_xp u g w).1.

(** ** A community used in the examples *)

Module Example.

Definition level_1 : Role := {| role_id := 101; role_name := "Level 1" |}.
Definition level_2 : Role := {| role_id := 102; role_name := "Level 2" |}.
Definition gold_badge : Role := {| role_id := 201; role_name := "Gold Medal" |}.
Definition team_badge : Role := {| role_id := 202; role_name := "Team BADGE" |}.
Definition streak_7 : Role := {| role_id := 301; role_name := "Streak 7" |}.

(** Member 7 has opted in; member 8 rejoined the guild and holds no
    role; member 9 cannot be read. *)
Definition guild_1 : Guild :=
  {| guild_roles := [level_1; level_2; gold_badge; team_badge; streak_7];
     guild_members := {[ 7 := Return [level_1; gold_badge; team_badge];
                         8 := Return [];
                         9 := Raise ]};
     text_channels := [ {| text_channel_id := 901; send_messages := true |} ];
     manage_roles := true |}.

Definition db : DB :=
  {| users := {[ (7, 1) := {| row_xp := 40; row_level := 1 |};
                 (8, 1) := {| row_xp := 150; row_level := 2 |} ]};
     quests := {[ 5000 := {| quest_guild_id := 1; quest_channel_id := 900;
                             quest_title := "Introduce yourself";
                             completed_users := []; xp_reward := Some 60 |};
                  5001 := {| quest_guild_id := 1; quest_channel_id := 900;
                             quest_title := "Say hello";
                             completed_users := []; xp_reward := Some 10 |} ]};
     whitelisted_channels :=
       [ {| wl_guild_id := 1; wl_channel_id := 900; wl_channel_name := "quests" |} ];
     streak_role_gains := [] |}.

Definition the_bot : QuestBot :=
  {| db_connection := Some db;
     role_xp_assignments :=
       {[ 1 := {[ "201" := {| assigned_xp := 30; assigned_type := "badge" |};
                  "301" := {| assigned_xp := 10; assigned_type := "streak" |} ]} ]};
     optin_message_id := Some 4000 |}.

Definition world : World :=
  {| guilds := {[ 1 := Return guild_1 ]}; quest_bot := the_bot;
     sent := []; pending := [] |}.

(** An acknowledgement by [user] on message [message] of guild 1. *)
Definition ack (message user : Z) : Reaction :=
  {| emoji_is_check := true; message_id := message; message_guild := 1;
     message_channel := 900; reaction_user := user; user_bot := false |}.

(** A member without the permission invokes [whitelist] in a channel
    that is not whitelisted. *)
Definition whitelist_elsewhere : Context :=
  {| ctx_guild := Some 1; ctx_manage_guild := false;
     ctx_command := Some "whitelist"; ctx_channel := 901 |}.


(** Member 8 opts in again, then completes the 10 XP quest. *)
Definition rejoined_and_completed : World :=
  completes (on_reaction_add (ack 5001 8))
    (completes (on_reaction_add (ack 4000 8)) world).

End Example.

(** ** Further situations used in the examples *)

Module Scenario.

(** Guild 1 when the bot may not manage its roles. *)
Definition locked_guild : Guild :=
  {| guild_roles := guild_roles Example.guild_1;
     guild_members := guild_members Example.guild_1;
     text_channels := text_channels Example.guild_1;
     manage_roles := false |}.

Definition locked_world : World :=
  {| guilds := {[ 1 := Return locked_guild ]}; quest_bot := Example.the_bot;
     sent := []; pending := [] |}.

(** The roles of member 7. *)
Definition roles_of_7 : list Role :=
  [Example.level_1; Example.gold_badge; Example.team_badge].

(** The settings of guild 1 as an old version saved them: the badge in
    the old format, the streak role in the new one. *)
Definition old_row : SettingsRow :=
  {| settings_role_xp :=
       {[ "201" := OldFormat 30;
          "301" := NewFormat {| assigned_xp := 10; assigned_type := "streak" |} ]};
     settings_optin_message_id := Some 4000 |}.

Definition old_settings : gmap Z SettingsRow := {[ 1 := old_row ]}.

(** Staff have made the streak role of guild 1 worth 2^62 XP; the
    assignment commands accept any positive amount. *)
Definition generous_world : World :=
  set_quest_bot (assign_role_xp 1 (Str.str (role_id Example.streak_7)) (2 ^ 62) "streak")
    Example.world.

(** Member 7 is then granted the role twice and loses it in between:
    the two logged gains add up to 2^63. *)
Definition after_two_large_gains : World :=
  member_gains_role 7 1 Example.streak_7
    (member_loses_role 7 1 Example.streak_7
       (member_gains_role 7 1 Example.streak_7 generous_world)).

(** Staff have made the streak role of guild 1 worth 2^63 XP, which no
    SQLite INTEGER holds. *)
Definition unstorable_world : World :=
  set_quest_bot (assign_role_xp 1 (Str.str (role_id Example.streak_7)) (2 ^ 63) "streak")
    Example.world.

(** Staff have set the base XP of member 7 to 2^63 - 1 with setXP. *)
Definition rich_world : World := (set_xp_command 1 901 INT64_MAX 7 Example.world).2.

End Scenario.

(** * Properties *)

(** ** The level table *)

Lemma LEVEL_THRESHOLDS_entry (k t : Z) :
  LEVEL_THRESHOLDS !! k = Some t →
  (k, t) ∈ [ (1, 0); (2, 100); (3, 500); (4, 1200); (5, 2200);
             (6, 3500); (7, 5100); (8, 7000); (9, 9200); (10, 11700) ].
Proof. apply elem_of_list_to_map_2. Qed.

Lemma LEVEL_THRESHOLDS_keys level :
  level ∈ range_10_0 → LEVEL_THRESHOLDS !! level = Some (threshold level).
Proof.
  unfold range_10_0. rewrite !elem_of_cons, elem_of_nil.
  intros H. repeat destruct H as [-> | H]; try reflexivity. destruct H.
Qed.

Ltac table_cases H :=
  apply LEVEL_THRESHOLDS_entry in H;
  rewrite !elem_of_cons, elem_of_nil in H;
  repeat destruct H as [H | H]; [inversion H; subst; clear H .. | destruct H].

Lemma calculate_level_cases (xp : Z) :
  (xp < 100 ∧ calculate_level xp = 1) ∨
  (100 ≤ xp < 500 ∧ calculate_level xp = 2) ∨
  (500 ≤ xp < 1200 ∧ calculate_level xp = 3) ∨
  (1200 ≤ xp < 2200 ∧ calculate_level xp = 4) ∨
  (2200 ≤ xp < 3500 ∧ calculate_level xp = 5) ∨
  (3500 ≤ xp < 5100 ∧ calculate_level xp = 6) ∨
  (5100 ≤ xp < 7000 ∧ calculate_level xp = 7) ∨
  (7000 ≤ xp < 9200 ∧ calculate_level xp = 8) ∨
  (9200 ≤ xp < 11700 ∧ calculate_level xp = 9) ∨
  (11700 ≤ xp ∧ calculate_level xp = 10).
Proof.
  unfold calculate_level, range_10_0, first_reached.
  change (threshold 10) with 11700. change (threshold 9) with 9200.
  change (threshold 8) with 7000. change (threshold 7) with 5100.
  change (threshold 6) with 3500. change (threshold 5) with 2200.
  change (threshold 4) with 1200. change (threshold 3) with 500.
  change (threshold 2) with 100. change (threshold 1) with 0.
  repeat (match goal with
          | |- context [?a >=? ?b] => destruct (Z.geb_spec a b)
          end); lia.
Qed.

(** C5. The table has ten entries, ascending, with threshold 0 at level
    1; [calculate_level xp] is a level of the table; when some threshold
    is at most [xp] it is the highest level whose threshold is, and when
    none is it is 1. *)
Theorem calculate_level_highest (xp : Z) :
  size LEVEL_THRESHOLDS = 10%nat ∧
  LEVEL_THRESHOLDS !! 1 = Some 0 ∧
  (∀ k1 t1 k2 t2,
     LEVEL_THRESHOLDS !! k1 = Some t1 → LEVEL_THRESHOLDS !! k2 = Some t2 →
     k1 < k2 → t1 < t2) ∧
  is_Some (LEVEL_THRESHOLDS !! calculate_level xp) ∧
  ((∃ k t, LEVEL_THRESHOLDS !! k = Some t ∧ t ≤ xp) →
     threshold (calculate_level xp) ≤ xp ∧
     ∀ k t, LEVEL_THRESHOLDS !! k = Some t → t ≤ xp → k ≤ calculate_level xp) ∧
  ((∀ k t, LEVEL_THRESHOLDS !! k = Some t → xp < t) → calculate_level xp = 1).
Proof.
  split; [reflexivity |]. split; [reflexivity |].
  split.
  { intros k1 t1 k2 t2 H1 H2 Hlt. table_cases H1; table_cases H2; lia. }
  pose proof (calculate_level_cases xp) as Hc.
  split.
  { repeat destruct Hc as [Hc | Hc]; destruct Hc as [_ ->]; eexists; reflexivity. }
  split.
  - intros (k0 & t0 & H0 & Hle0).
    assert (0 ≤ xp) as Hxp by (table_cases H0; lia).
    split.
    + repeat destruct Hc as [Hc | Hc]; destruct Hc as [Hr ->];
        match goal with
        | |- threshold ?k ≤ _ =>
            let v := eval vm_compute in (threshold k) in change (threshold k) with v
        end; lia.
    + intros k t Hk Hle.
      repeat destruct Hc as [Hc | Hc]; destruct Hc as [Hr ->];
        table_cases Hk; lia.
  - intros Hnone. specialize (Hnone 1 0 eq_refl).
    repeat destruct Hc as [Hc | Hc]; destruct Hc as [Hr Heq]; [exact Heq | lia ..].
Qed.

(** ** What a block of code leaves alone *)

Section Frames.
Context (R : relation World) `{!PreOrder R}.

Lemma keeps_ret {A} (a : A) : keeps R (ret a).
Proof. intros w. reflexivity. Qed.

Lemma keeps_raise {A} : keeps R (@raise A).
Proof. intros w. reflexivity. Qed.

Lemma keeps_reading {A} (f : World → outcome A) : keeps R (reading f).
Proof. intros w. reflexivity. Qed.

Lemma keeps_bind {A B} (m : Act A) (k : A → Act B) :
  keeps R m → (∀ a, keeps R (k a)) → keeps R (bind m k).
Proof.
  intros Hm Hk w. unfold bind. specialize (Hm w).
  destruct (m w) as [[a|] w']; simpl in *; [| exact Hm].
  etransitivity; [exact Hm | apply Hk].
Qed.

Lemma keeps_lift {A} (f : World → A * World) : keeps_fn R f → keeps R (lift f).
Proof.
  intros Hf w. unfold lift. specialize (Hf w). destruct (f w); exact Hf.
Qed.

Lemma keeps_try_except {A} (body : Act A) (handler : World → A * World) :
  keeps R body → keeps_fn R handler → keeps_fn R (try_except body handler).
Proof.
  intros Hb Hh w. unfold try_except. specialize (Hb w).
  destruct (body w) as [[a|] w']; simpl in *; [exact Hb |].
  etransitivity; [exact Hb | apply Hh].
Qed.

Lemma keeps_for_each {A} (l : list A) (body : A → Act unit) :
  (∀ x, keeps R (body x)) → keeps R (for_each l body).
Proof.
  intros Hb. induction l as [| x l IH]; simpl.
  - apply keeps_ret.
  - apply keeps_bind; [apply Hb | intros _; exact IH].
Qed.

Lemma keeps_fn_id {A} (a : A) : keeps_fn R (λ w, (a, w)).
Proof. intros w. reflexivity. Qed.

End Frames.

#[local] Instance same_bot_state_preorder : PreOrder same_bot_state.
Proof.
  split.
  - intros w. repeat split.
  - intros w1 w2 w3 (H1 & H2 & H3) (H4 & H5 & H6).
    repeat split; congruence.
Qed.

#[local] Instance same_but_users_preorder : PreOrder same_but_users.
Proof.
  split.
  - intros w. repeat split.
  - intros w1 w2 w3 H1 H2. unfold same_but_users in *.
    destruct H1 as (?&?&?&?&?&?&?&?), H2 as (?&?&?&?&?&?&?&?).
    repeat split; congruence.
Qed.

Lemma world_eq (w w' : World) :
  guilds w = guilds w' → quest_bot w = quest_bot w' → sent w = sent w' →
  pending w = pending w' → w = w'.
Proof. destruct w, w'; simpl; by intros -> -> -> ->. Qed.

Lemma update_guild_same guild_id f w : same_bot_state w (update_guild guild_id f w).
Proof. repeat split. Qed.

Lemma remove_roles_keeps guild_id user_id role :
  keeps same_bot_state (remove_roles guild_id user_id role).
Proof.
  intros w. unfold remove_roles. destruct (may_manage_roles guild_id w); repeat split.
Qed.

Lemma add_roles_keeps guild_id user_id role :
  keeps same_bot_state (add_roles guild_id user_id role).
Proof.
  intros w. unfold add_roles. destruct (may_manage_roles guild_id w); repeat split.
Qed.

Lemma create_role_keeps guild_id name :
  keeps same_bot_state (create_role guild_id name).
Proof.
  intros w. unfold create_role. destruct (may_manage_roles guild_id w); repeat split.
Qed.

Lemma create_level_roles_keeps guild_id :
  keeps_fn same_bot_state (create_level_roles guild_id).
Proof.
  apply keeps_try_except; [apply _ | | apply keeps_fn_id; apply _].
  apply keeps_for_each; [apply _ |]. intros level.
  apply keeps_bind; [apply _ | apply keeps_reading; apply _ |].
  intros roles. destruct (utils_get roles _).
  - apply keeps_ret; apply _.
  - apply create_role_keeps.
Qed.

Lemma update_user_level_role_keeps user_id guild_id old_level new_level :
  keeps_fn same_bot_state (update_user_level_role user_id guild_id old_level new_level).
Proof.
  apply keeps_try_except; [apply _ | | apply keeps_fn_id; apply _].
  apply keeps_bind; [apply _ | apply keeps_reading; apply _ |].
  intros [g |]; [| apply keeps_ret; apply _].
  apply keeps_bind; [apply _ | apply keeps_reading; apply _ |].
  intros [roles |]; [| apply keeps_ret; apply _].
  apply keeps_bind; [apply _ | |].
  { apply keeps_for_each; [apply _ |]. intros role.
    destruct (_ && _); [apply remove_roles_keeps | apply keeps_ret; apply _]. }
  intros _. apply keeps_bind; [apply _ | apply keeps_reading; apply _ |].
  intros groles. destruct (utils_get groles _) as [new_role |].
  - apply keeps_bind; [apply _ | apply keeps_reading; apply _ |].
    intros now. destruct (role_in new_role now);
      [apply keeps_ret; apply _ | apply add_roles_keeps].
  - apply keeps_bind; [apply _ | apply keeps_lift, create_level_roles_keeps |].
    intros _. apply keeps_bind; [apply _ | apply keeps_reading; apply _ |].
    intros groles'. destruct (utils_get groles' _);
      [apply add_roles_keeps | apply keeps_ret; apply _].
Qed.

Lemma run_tasks_from_keeps (ts : list Task) (w : World) :
  same_bot_state w
    (fold_left (λ w t,
        snd (update_user_level_role (task_user t) (task_guild t)
               (task_old_level t) (task_new_level t) w)) ts w).
Proof.
  revert w. induction ts as [| t ts IH]; intros w; simpl.
  - reflexivity.
  - etransitivity; [| apply IH]. apply update_user_level_role_keeps.
Qed.

(** Running the pending tasks touches neither the store nor the
    messages sent, and leaves no task pending. *)
Lemma run_tasks_spec (w : World) :
  quest_bot (run_tasks w) = quest_bot w ∧ sent (run_tasks w) = sent w ∧
  pending (run_tasks w) = [].
Proof.
  unfold run_tasks.
  destruct (run_tasks_from_keeps (pending w) (set_pending (λ _, []) w)) as (H1 & H2 & H3).
  rewrite H1, H2, H3. repeat split.
Qed.

Lemma run_tasks_idle (w : World) : pending w = [] → run_tasks w = w.
Proof.
  intros H. unfold run_tasks. rewrite H. simpl. destruct w; simpl in *. by subst.
Qed.

Lemma channel_send_spec channel notice w :
  quest_bot (channel_send channel notice w) = quest_bot w ∧
  sent (channel_send channel notice w) = sent w ++ [(channel, notice)] ∧
  pending (channel_send channel notice w) = [].
Proof.
  unfold channel_send. destruct (run_tasks_spec w) as (H1 & H2 & H3).
  simpl. rewrite H1, H2, H3. repeat split.
Qed.

(** ** The ledger *)

Lemma get_user_data_xp user_id guild_id w :
  row_xp (get_user_data user_id guild_id w).1 = stored_xp w user_id guild_id.
Proof.
  unfold get_user_data, stored_xp, ledger_row.
  destruct (db_connection (quest_bot w)) as [db |]; simpl; [| reflexivity].
  destruct (users db !! (user_id, guild_id)); reflexivity.
Qed.

Lemma get_user_data_row user_id guild_id w :
  (get_user_data user_id guild_id w).1
  = default new_user_row (ledger_row w user_id guild_id).
Proof.
  unfold get_user_data, ledger_row.
  destruct (db_connection (quest_bot w)) as [db |]; simpl; [| reflexivity].
  destruct (users db !! (user_id, guild_id)); reflexivity.
Qed.

Lemma get_user_data_ledger user_id guild_id w db :
  db_connection (quest_bot w) = Some db →
  ledger_row (get_user_data user_id guild_id w).2 user_id guild_id
  = Some (get_user_data user_id guild_id w).1.
Proof.
  intros Hdb. unfold get_user_data, ledger_row. rewrite Hdb.
  destruct (users db !! (user_id, guild_id)) eqn:Hrow; simpl.
  - rewrite Hdb. exact Hrow.
  - rewrite Hdb. simpl. apply lookup_insert_eq.
Qed.

Lemma get_user_data_present user_id guild_id w row :
  ledger_row w user_id guild_id = Some row →
  get_user_data user_id guild_id w = (row, w).
Proof.
  unfold get_user_data, ledger_row.
  destruct (db_connection (quest_bot w)) as [db |]; simpl; [| discriminate].
  intros ->. reflexivity.
Qed.

Lemma get_user_data_frame user_id guild_id :
  keeps_fn same_but_users (get_user_data user_id guild_id).
Proof.
  intros w. unfold get_user_data.
  destruct (db_connection (quest_bot w)) as [db |] eqn:Hdb; simpl; [| reflexivity].
  destruct (users db !! (user_id, guild_id)); simpl; [reflexivity |].
  unfold same_but_users; simpl. rewrite Hdb. repeat split.
Qed.

Lemma get_user_data_idempotent user_id guild_id w :
  get_user_data user_id guild_id (get_user_data user_id guild_id w).2
  = get_user_data user_id guild_id w.
Proof.
  destruct (db_connection (quest_bot w)) as [db |] eqn:Hdb.
  - pose proof (get_user_data_ledger user_id guild_id w db Hdb) as Hrow.
    rewrite (get_user_data_present _ _ _ _ Hrow). by destruct (get_user_data _ _ w).
  - unfold get_user_data. rewrite Hdb. cbn [snd]. by rewrite Hdb.
Qed.

Lemma base_xp_of_spec user_id guild_id w :
  base_xp_of user_id guild_id w
  = (stored_xp w user_id guild_id, (get_user_data user_id guild_id w).2).
Proof.
  unfold base_xp_of. rewrite <- get_user_data_xp.
  destruct (get_user_data user_id guild_id w); reflexivity.
Qed.

(** ** The 64 bits of an SQLite INTEGER *)

Lemma fits_int64_spec n :
  fits_int64 n = true ↔ -9223372036854775808 ≤ n ≤ 9223372036854775807.
Proof.
  unfold fits_int64, INT64_MIN, INT64_MAX.
  rewrite andb_true_iff, !Z.leb_le.
  change (- 2 ^ 63) with (-9223372036854775808).
  change (2 ^ 63 - 1) with 9223372036854775807. reflexivity.
Qed.

Lemma fits_int64_false n :
  fits_int64 n = false ↔ n < -9223372036854775808 ∨ 9223372036854775807 < n.
Proof.
  rewrite <- not_true_iff_false, fits_int64_spec. lia.
Qed.

Lemma sumZ_cons (x : Z) (l : list Z) : sumZ (x :: l) = x + sumZ l.
Proof. reflexivity. Qed.


Lemma sums_fit_alt values :
  sums_fit values ↔ ∀ k, fits_int64 (sumZ (take k values)) = true.
Proof.
  unfold sums_fit. rewrite Forall_forall. split.
  - intros Hfit k. destruct (decide (k ≤ length values)%nat) as [Hk | Hk].
    + apply Hfit, elem_of_seq. lia.
    + rewrite take_ge by lia. rewrite <- (firstn_all values).
      apply Hfit, elem_of_seq. lia.
  - intros Hfit k _. apply Hfit.
Qed.

Lemma sums_fit_nil : sums_fit [].
Proof. apply sums_fit_alt. intros k. by rewrite take_nil. Qed.

(** The running sum returns the sum when every partial sum fits, and
    raises otherwise. *)
Lemma running_sum_spec acc values :
  (∀ k, (0 < k)%nat → fits_int64 (acc + sumZ (take k values)) = true) →
  running_sum acc values = Return (acc + sumZ values).
Proof.
  revert acc. induction values as [| value rest IH]; intros acc Hfit.
  - simpl. f_equal. unfold sumZ. simpl. lia.
  - cbn [running_sum].
    pose proof (Hfit 1%nat ltac:(lia)) as Hfirst.
    rewrite firstn_cons, take_0, sumZ_cons in Hfirst.
    replace (value + sumZ []) with value in Hfirst by (unfold sumZ; simpl; lia).
    rewrite Hfirst, IH.
    + f_equal. rewrite sumZ_cons. lia.
    + intros k Hk. specialize (Hfit (S k) ltac:(lia)).
      rewrite firstn_cons, sumZ_cons in Hfit.
      by replace (acc + value + sumZ (take k rest))
        with (acc + (value + sumZ (take k rest))) by lia.
Qed.

Lemma running_sum_raises acc values k :
  fits_int64 (acc + sumZ (take k values)) = false →
  fits_int64 acc = true →
  running_sum acc values = Raise.
Proof.
  revert acc k. induction values as [| value rest IH]; intros acc k Hout Hacc.
  - rewrite take_nil in Hout. unfold sumZ in Hout. simpl in Hout.
    rewrite Z.add_0_r in Hout. congruence.
  - destruct k as [| k].
    { rewrite take_0 in Hout. unfold sumZ in Hout. simpl in Hout.
      rewrite Z.add_0_r in Hout. congruence. }
    cbn [running_sum]. destruct (fits_int64 (acc + value)) eqn:Hstep; [| reflexivity].
    apply (IH _ k); [| exact Hstep].
    rewrite firstn_cons, sumZ_cons in Hout.
    by replace (acc + value + sumZ (take k rest))
      with (acc + (value + sumZ (take k rest))) by lia.
Qed.

Lemma sql_sum_spec values :
  sql_sum values
  = if decide (sums_fit values)
    then Return (match values with [] => None | _ => Some (sumZ values) end)
    else Raise.
Proof.
  destruct values as [| value rest].
  { rewrite decide_True by apply sums_fit_nil. reflexivity. }
  unfold sql_sum. case_decide as Hfit.
  - rewrite sums_fit_alt in Hfit. rewrite running_sum_spec; [reflexivity |].
    intros k _. apply Hfit.
  - assert (∃ k, fits_int64 (sumZ (take k (value :: rest))) = false) as [k Hk].
    { unfold sums_fit in Hfit. apply not_Forall_Exists in Hfit; [| apply _].
      apply Exists_exists in Hfit as (k & _ & Hk). exists k.
      by apply not_true_is_false. }
    by rewrite (running_sum_raises 0 _ k).
Qed.

(** ** The aggregator *)

(** Whether the live role membership of a user can be read, case by
    case. *)
Lemma member_roles_cases guild_id user_id w :
  (guilds w !! guild_id = None ∧ member_roles guild_id user_id w = Raise) ∨
  (guilds w !! guild_id = Some Raise ∧ member_roles guild_id user_id w = Raise) ∨
  (∃ g, guilds w !! guild_id = Some (Return g) ∧
        ((guild_members g !! user_id = None ∧ member_roles guild_id user_id w = Raise) ∨
         (guild_members g !! user_id = Some Raise ∧
          member_roles guild_id user_id w = Raise) ∨
         (∃ roles, guild_members g !! user_id = Some (Return roles) ∧
                   member_roles guild_id user_id w = Return roles))).
Proof.
  unfold member_roles, get_guild, get_member.
  destruct (guilds w !! guild_id) as [[g |] |]; [| by auto | by auto].
  right; right. exists g. split; [reflexivity |].
  destruct (guild_members g !! user_id) as [[roles |] |]; eauto.
Qed.

Lemma calculate_total_user_xp_unreadable user_id guild_id w :
  member_roles guild_id user_id w = Raise →
  calculate_total_user_xp user_id guild_id w = base_xp_of user_id guild_id w.
Proof.
  unfold member_roles, calculate_total_user_xp, try_except, bind, reading, lift.
  destruct (get_guild guild_id w) as [[g |] |]; simpl.
  - destruct (get_member g user_id) as [[roles |] |]; simpl;
      [discriminate | |]; intros _; by destruct (base_xp_of _ _ _).
  - intros _; by destruct (base_xp_of _ _ _).
  - reflexivity.
Qed.

Lemma calculate_total_user_xp_readable user_id guild_id w roles :
  member_roles guild_id user_id w = Return roles →
  calculate_total_user_xp user_id guild_id w
  = (stored_xp w user_id guild_id
     + role_and_streak_xp (quest_bot (get_user_data user_id guild_id w).2)
         user_id guild_id roles,
     (get_user_data user_id guild_id w).2).
Proof.
  unfold member_roles, calculate_total_user_xp, try_except, bind, reading, lift, ret,
    role_and_streak_xp.
  destruct (get_guild guild_id w) as [[g |] |]; simpl; [| discriminate ..].
  destruct (get_member g user_id) as [[roles' |] |]; simpl; [| discriminate ..].
  intros [= ->]. rewrite base_xp_of_spec.
  destruct (get_accumulated_streak_xp _ user_id guild_id) as [accumulated |].
  - f_equal. lia.
  - rewrite base_xp_of_spec, get_user_data_idempotent. f_equal.
    rewrite <- (get_user_data_xp user_id guild_id (get_user_data user_id guild_id w).2).
    rewrite get_user_data_idempotent, get_user_data_xp. lia.
Qed.

Lemma calculate_total_user_xp_world user_id guild_id w :
  (calculate_total_user_xp user_id guild_id w).2 = (get_user_data user_id guild_id w).2.
Proof.
  destruct (member_roles guild_id user_id w) as [roles |] eqn:Hr.
  - by rewrite (calculate_total_user_xp_readable _ _ _ _ Hr).
  - rewrite (calculate_total_user_xp_unreadable _ _ _ Hr), base_xp_of_spec. reflexivity.
Qed.

(** C7. When the live role membership of the user cannot be read (the
    guild or the member is not in the cache, or reading either raises),
    [calculate_total_user_xp] returns the persisted base XP alone; being
    a total function, it hands its caller a number in every case. *)
Theorem total_xp_falls_back_to_base (user_id guild_id : Z) (w : World) :
  member_roles guild_id user_id w = Raise →
  ∃ w', calculate_total_user_xp user_id guild_id w = (stored_xp w user_id guild_id, w').
Proof.
  intros Hr. rewrite (calculate_total_user_xp_unreadable _ _ _ Hr), base_xp_of_spec.
  eexists. reflexivity.
Qed.

Lemma fold_left_add {A} (f : A → Z) (step : Z → A → Z) (l : list A) (acc : Z) :
  (∀ a x, step a x = a + f x) →
  fold_left step l acc = acc + sumZ (f <$> l).
Proof.
  intros Hstep. revert acc. induction l as [| x l IH]; intros acc; simpl.
  - unfold sumZ; simpl. lia.
  - rewrite IH, Hstep. unfold sumZ; simpl. symmetry. apply Z.add_assoc.
Qed.

Lemma sumZ_non_level (f : Role → Z) (roles : list Role) :
  sumZ (f <$> Spec.non_level roles)
  = sumZ ((λ r, if is_level_role r then 0 else f r) <$> roles).
Proof.
  unfold Spec.non_level. induction roles as [| r roles IH]; [reflexivity |].
  rewrite filter_cons, fmap_cons, sumZ_cons.
  destruct (is_level_role r) eqn:Hl.
  - rewrite decide_False by discriminate. rewrite IH. lia.
  - rewrite decide_True by reflexivity. rewrite fmap_cons, sumZ_cons, IH. lia.
Qed.

Lemma get_role_xp_and_type_assignment qb guild_id (r : Role) :
  get_role_xp_and_type qb guild_id (Str.str (role_id r))
  = (λ a, (assigned_xp a, assigned_type a)) <$> Spec.assignment qb guild_id r.
Proof.
  unfold get_role_xp_and_type, Spec.assignment.
  destruct (role_xp_assignments qb !! guild_id) as [m |]; simpl; [| reflexivity].
  destruct (m !! Str.str (role_id r)); reflexivity.
Qed.

Lemma assignment_kind qb guild_id r a :
  Spec.kinds_ok qb guild_id → Spec.assignment qb guild_id r = Some a →
  assigned_type a = "badge" ∨ assigned_type a = "streak".
Proof.
  unfold Spec.kinds_ok, Spec.assignment. intros Hk Ha.
  destruct (role_xp_assignments qb !! guild_id) as [m |] eqn:Hm; simpl in Ha;
    [| discriminate].
  exact (Hk _ _ Ha).
Qed.

(** [assign_role_xp] with one of the two types the commands pass keeps
    the assignments well formed. *)
Lemma assign_role_xp_kinds_ok qb guild_id role_id xp_amount role_type g :
  role_type = "badge" ∨ role_type = "streak" →
  Spec.kinds_ok qb g →
  Spec.kinds_ok (assign_role_xp guild_id role_id xp_amount role_type qb) g.
Proof.
  intros Htype Hk. unfold Spec.kinds_ok, assign_role_xp in *. simpl.
  destruct (decide (guild_id = g)) as [-> | Hne].
  - rewrite lookup_insert_eq. simpl. apply map_Forall_insert_2; [exact Htype |].
    destruct (role_xp_assignments qb !! g); [exact Hk | apply map_Forall_empty].
  - by rewrite lookup_insert_ne.
Qed.

Lemma custom_role_xp_spec qb guild_id roles :
  Spec.kinds_ok qb guild_id →
  custom_role_xp qb guild_id roles
  = sumZ (Spec.badge_xp qb guild_id <$> Spec.non_level roles).
Proof.
  intros Hk. unfold custom_role_xp. rewrite sumZ_non_level.
  rewrite (fold_left_add
             (λ r, if is_level_role r then 0 else Spec.badge_xp qb guild_id r));
    [lia |].
  intros acc r. destruct (is_level_role r); [lia |].
  rewrite get_role_xp_and_type_assignment. unfold Spec.badge_xp.
  destruct (Spec.assignment qb guild_id r) as [a |] eqn:Ha; simpl; [| lia].
  destruct (assignment_kind _ _ _ _ Hk Ha) as [Hb | Hs]; rewrite ?Hb, ?Hs.
  - reflexivity.
  - rewrite bool_decide_eq_false_2 by (intros Hne; by apply Hne).
    rewrite bool_decide_eq_false_2 by discriminate. lia.
Qed.

Lemma auto_role_xp_spec qb guild_id roles :
  auto_role_xp qb guild_id roles
  = sumZ (Spec.name_badge_xp qb guild_id <$> Spec.non_level roles).
Proof.
  unfold auto_role_xp. rewrite sumZ_non_level.
  rewrite (fold_left_add
             (λ r, if is_level_role r then 0 else Spec.name_badge_xp qb guild_id r));
    [lia |].
  intros acc r. destruct (is_level_role r); [lia |].
  rewrite get_role_xp_and_type_assignment. unfold Spec.name_badge_xp.
  destruct (Spec.assignment qb guild_id r) as [a |]; simpl; [lia |].
  destruct (Str.contains _ _); lia.
Qed.

(** [get_accumulated_streak_xp] returns the sum of the logged gains
    when the running sum stays within 64 bits, and raises otherwise. *)
Lemma get_accumulated_streak_xp_spec w user_id guild_id :
  get_accumulated_streak_xp (quest_bot w) user_id guild_id
  = if decide (streak_log_sums_fit w user_id guild_id)
    then Return (Spec.accumulated_streak_xp w user_id guild_id)
    else Raise.
Proof.
  unfold get_accumulated_streak_xp.
  case_decide as Hfit;
    unfold Spec.accumulated_streak_xp, streak_log_sums_fit, streak_log in *;
    destruct (db_connection (quest_bot w)) as [db |].
  - rewrite sql_sum_spec, decide_True by exact Hfit.
    destruct (xp_awarded <$> streak_gains_of db user_id guild_id) as [| v vs] eqn:Hv;
      [reflexivity |].
    case_bool_decide as H0; [by rewrite H0 | reflexivity].
  - reflexivity.
  - by rewrite sql_sum_spec, decide_False by exact Hfit.
  - destruct Hfit. apply sums_fit_nil.
Qed.

Lemma role_and_streak_xp_spec w user_id guild_id roles :
  role_and_streak_xp (quest_bot w) user_id guild_id roles
  = if decide (streak_log_sums_fit w user_id guild_id)
    then custom_role_xp (quest_bot w) guild_id roles
         + auto_role_xp (quest_bot w) guild_id roles
         + Spec.accumulated_streak_xp w user_id guild_id
    else 0.
Proof.
  unfold role_and_streak_xp. rewrite get_accumulated_streak_xp_spec. by case_decide.
Qed.

Lemma member_roles_Return guild_id user_id w roles :
  member_roles guild_id user_id w = Return roles ↔
  ∃ g, guilds w !! guild_id = Some (Return g) ∧
       guild_members g !! user_id = Some (Return roles).
Proof.
  unfold member_roles, get_guild, get_member. split.
  - destruct (guilds w !! guild_id) as [[g |] |] eqn:Hg; try discriminate.
    destruct (guild_members g !! user_id) as [[r |] |] eqn:Hm; try discriminate.
    intros [= ->]. eauto.
  - intros (g & -> & ->). reflexivity.
Qed.

Lemma update_member_roles_guilds guild_id user_id f w g roles :
  guilds w !! guild_id = Some (Return g) →
  guild_members g !! user_id = Some (Return roles) →
  guilds (update_member_roles guild_id user_id f w)
  = <[guild_id := Return (set_guild_members <[user_id := Return (f roles)]> g)]>
      (guilds w).
Proof.
  intros Hg Hm. unfold update_member_roles, update_guild, set_guilds; simpl.
  rewrite Hg. unfold set_guild_members at 1. rewrite Hm. reflexivity.
Qed.

Lemma member_roles_update guild_id user_id f w roles :
  member_roles guild_id user_id w = Return roles →
  member_roles guild_id user_id (update_member_roles guild_id user_id f w)
  = Return (f roles).
Proof.
  intros (g & Hg & Hm)%member_roles_Return. apply member_roles_Return.
  eexists. rewrite (update_member_roles_guilds _ _ _ _ _ _ Hg Hm).
  split; [apply lookup_insert_eq |]. simpl. apply lookup_insert_eq.
Qed.

Lemma excluded_contributes_nothing (f : Role → Z) qb guild_id (held : list Role) :
  (∀ r, Spec.excluded qb guild_id r = true → is_level_role r = false → f r = 0) →
  sumZ (f <$> Spec.non_level held)
  = sumZ (f <$> filter (λ r, Spec.excluded qb guild_id r = false) held).
Proof.
  intros Hf. unfold Spec.non_level. induction held as [| r held IH]; [reflexivity |].
  rewrite !filter_cons.
  destruct (is_level_role r) eqn:Hl.
  - rewrite decide_False by discriminate.
    rewrite decide_False; [exact IH |]. unfold Spec.excluded. rewrite Hl. discriminate.
  - rewrite decide_True by reflexivity. rewrite fmap_cons, sumZ_cons, IH.
    destruct (Spec.excluded qb guild_id r) eqn:He.
    + rewrite decide_False by discriminate. rewrite (Hf r He Hl). lia.
    + rewrite decide_True by reflexivity. by rewrite fmap_cons, sumZ_cons.
Qed.

Lemma spec_total_xp_excluded w user_id guild_id held held' :
  filter (λ r, Spec.excluded (quest_bot w) guild_id r = false) held'
  = filter (λ r, Spec.excluded (quest_bot w) guild_id r = false) held →
  Spec.total_xp w user_id guild_id held' = Spec.total_xp w user_id guild_id held.
Proof.
  intros Hsame. unfold Spec.total_xp.
  assert (∀ r, Spec.excluded (quest_bot w) guild_id r = true → is_level_role r = false →
               Spec.badge_xp (quest_bot w) guild_id r = 0) as Hb.
  { intros r. unfold Spec.excluded, Spec.badge_xp. intros He Hl. rewrite Hl in He.
    simpl in He. destruct (Spec.assignment _ _ r) as [a |]; [| reflexivity].
    apply bool_decide_eq_true in He. rewrite He. reflexivity. }
  assert (∀ r, Spec.excluded (quest_bot w) guild_id r = true → is_level_role r = false →
               Spec.name_badge_xp (quest_bot w) guild_id r = 0) as Hn.
  { intros r. unfold Spec.excluded, Spec.name_badge_xp. intros He Hl. rewrite Hl in He.
    simpl in He. destruct (Spec.assignment _ _ r) as [a |]; [reflexivity | discriminate]. }
  rewrite !(excluded_contributes_nothing _ _ _ _ Hb).
  rewrite !(excluded_contributes_nothing _ _ _ _ Hn).
  by rewrite Hsame.
Qed.

Lemma streak_log_same_gains w w' user_id guild_id :
  (streak_role_gains <$> db_connection (quest_bot w'))
    = (streak_role_gains <$> db_connection (quest_bot w)) →
  streak_log w' user_id guild_id = streak_log w user_id guild_id.
Proof.
  unfold streak_log, streak_gains_of.
  destruct (db_connection (quest_bot w')), (db_connection (quest_bot w));
    simpl; try discriminate; [| reflexivity].
  by intros [= ->].
Qed.

Lemma get_accumulated_streak_xp_same qb qb' user_id guild_id :
  (streak_role_gains <$> db_connection qb') = (streak_role_gains <$> db_connection qb) →
  get_accumulated_streak_xp qb' user_id guild_id
  = get_accumulated_streak_xp qb user_id guild_id.
Proof.
  unfold get_accumulated_streak_xp, streak_gains_of.
  destruct (db_connection qb'), (db_connection qb); simpl; try discriminate;
    [| reflexivity].
  by intros [= ->].
Qed.

Lemma role_and_streak_xp_same qb qb' user_id guild_id roles :
  role_xp_assignments qb' = role_xp_assignments qb →
  (streak_role_gains <$> db_connection qb') = (streak_role_gains <$> db_connection qb) →
  role_and_streak_xp qb' user_id guild_id roles
  = role_and_streak_xp qb user_id guild_id roles.
Proof.
  intros Ha Hs. unfold role_and_streak_xp.
  rewrite (get_accumulated_streak_xp_same _ _ _ _ Hs).
  unfold custom_role_xp, auto_role_xp, get_role_xp_and_type. by rewrite Ha.
Qed.

(** The total of a readable member, in the world the call was made
    in. *)
Lemma total_xp_value user_id guild_id w roles :
  member_roles guild_id user_id w = Return roles →
  (calculate_total_user_xp user_id guild_id w).1
  = stored_xp w user_id guild_id
    + if decide (streak_log_sums_fit w user_id guild_id)
      then custom_role_xp (quest_bot w) guild_id roles
           + auto_role_xp (quest_bot w) guild_id roles
           + Spec.accumulated_streak_xp w user_id guild_id
      else 0.
Proof.
  intros Hr. rewrite (calculate_total_user_xp_readable _ _ _ _ Hr). simpl.
  destruct (get_user_data_frame user_id guild_id w) as (_ & _ & _ & Ha & _ & _ & _ & Hs).
  by rewrite (role_and_streak_xp_same _ _ _ _ _ Ha Hs), role_and_streak_xp_spec.
Qed.

Lemma total_xp_formula user_id guild_id w held :
  member_roles guild_id user_id w = Return held →
  Spec.kinds_ok (quest_bot w) guild_id →
  streak_log_sums_fit w user_id guild_id →
  (calculate_total_user_xp user_id guild_id w).1 = Spec.total_xp w user_id guild_id held.
Proof.
  intros Hheld Hk Hfit.
  rewrite (total_xp_value _ _ _ _ Hheld), decide_True by exact Hfit.
  rewrite (custom_role_xp_spec _ _ _ Hk), auto_role_xp_spec.
  unfold Spec.total_xp. lia.
Qed.

(** When the running sum of the streak log leaves 64 bits, the total of
    a readable member is the base XP alone. *)
Lemma total_xp_overflow user_id guild_id w held :
  member_roles guild_id user_id w = Return held →
  ¬ streak_log_sums_fit w user_id guild_id →
  (calculate_total_user_xp user_id guild_id w).1 = stored_xp w user_id guild_id.
Proof.
  intros Hheld Hout.
  rewrite (total_xp_value _ _ _ _ Hheld), decide_False by exact Hout. lia.
Qed.

(** C1, as the code has it. When the live role membership of the user
    is readable and the logged streak gains, added up one after the
    other, stay within the 64 bits of an SQLite INTEGER, the total that
    [calculate_total_user_xp] returns is base XP, plus the xp of each
    held role that is not a level marker and has an explicit Badge
    assignment, plus 5 for each such role without assignment whose
    name contains "badge" in any letter case, plus the sum of the logged
    streak gains.  When the running sum leaves 64 bits, [SUM] raises and
    the total is the base XP alone.  In both cases level markers and
    held roles with a Streak assignment contribute nothing: with other
    such roles held, the total is the same. *)
Theorem total_xp_is_sum_of_sources (user_id guild_id : Z) (w : World) (held : list Role) :
  member_roles guild_id user_id w = Return held →
  Spec.kinds_ok (quest_bot w) guild_id →
  (streak_log_sums_fit w user_id guild_id →
   (calculate_total_user_xp user_id guild_id w).1 = Spec.total_xp w user_id guild_id held) ∧
  (¬ streak_log_sums_fit w user_id guild_id →
   (calculate_total_user_xp user_id guild_id w).1 = stored_xp w user_id guild_id) ∧
  ∀ held',
    filter (λ r, Spec.excluded (quest_bot w) guild_id r = false) held'
    = filter (λ r, Spec.excluded (quest_bot w) guild_id r = false) held →
    (calculate_total_user_xp user_id guild_id
       (update_member_roles guild_id user_id (λ _, held') w)).1
    = (calculate_total_user_xp user_id guild_id w).1.
Proof.
  intros Hheld Hk. split; [by apply total_xp_formula |].
  split; [by apply (total_xp_overflow _ _ _ held) |].
  intros held' Hsame.
  assert (Hheld' : member_roles guild_id user_id
                     (update_member_roles guild_id user_id (λ _, held') w) = Return held')
    by (by rewrite (member_roles_update _ _ _ _ _ Hheld)).
  destruct (decide (streak_log_sums_fit w user_id guild_id)) as [Hfit | Hout].
  - rewrite (total_xp_formula _ _ _ _ Hheld Hk Hfit).
    rewrite (total_xp_formula _ _ (update_member_roles _ _ _ w) held' Hheld' Hk Hfit).
    rewrite <- (spec_total_xp_excluded w user_id guild_id held held' Hsame).
    reflexivity.
  - rewrite (total_xp_overflow _ _ _ _ Hheld Hout).
    by rewrite (total_xp_overflow _ _ (update_member_roles _ _ _ w) held' Hheld' Hout).
Qed.

(** ** The ledger update *)

Lemma ledger_row_store_xp user_id guild_id new_xp w u g :
  ledger_row (store_xp user_id guild_id new_xp w) u g
  = if decide ((user_id, guild_id) = (u, g))
    then (λ row, {| row_xp := new_xp; row_level := row_level row |})
           <$> ledger_row w user_id guild_id
    else ledger_row w u g.
Proof.
  unfold ledger_row, store_xp; simpl.
  destruct (db_connection (quest_bot w)) as [db |]; simpl.
  - apply lookup_alter.
  - by case_decide.
Qed.

Lemma ledger_row_store_level user_id guild_id new_level w u g :
  ledger_row (store_level user_id guild_id new_level w) u g
  = if decide ((user_id, guild_id) = (u, g))
    then (λ row, {| row_xp := row_xp row; row_level := new_level |})
           <$> ledger_row w user_id guild_id
    else ledger_row w u g.
Proof.
  unfold ledger_row, store_level; simpl.
  destruct (db_connection (quest_bot w)) as [db |]; simpl.
  - apply lookup_alter.
  - by case_decide.
Qed.

Lemma store_xp_frame user_id guild_id new_xp w :
  same_but_users w (store_xp user_id guild_id new_xp w).
Proof.
  unfold same_but_users, store_xp; simpl.
  destruct (db_connection (quest_bot w)); repeat split.
Qed.

Lemma store_level_frame user_id guild_id new_level w :
  same_but_users w (store_level user_id guild_id new_level w).
Proof.
  unfold same_but_users, store_level; simpl.
  destruct (db_connection (quest_bot w)); repeat split.
Qed.

(** [update_user_xp], step by step, on a connected store that takes the
    new base XP. *)
Lemma updated_user_xp_steps user_id guild_id xp_change w db :
  db_connection (quest_bot w) = Some db →
  let old_level := row_level (default new_user_row (ledger_row w user_id guild_id)) in
  let w2 := after_xp_stored user_id guild_id xp_change w in
  let total_xp := (calculate_total_user_xp user_id guild_id w2).1 in
  let new_level := calculate_level total_xp in
  ledger_row w2 user_id guild_id
    = Some {| row_xp := Z.max 0 (stored_xp w user_id guild_id + xp_change);
              row_level := old_level |} ∧
  (calculate_total_user_xp user_id guild_id w2).2 = w2 ∧
  updated_user_xp user_id guild_id xp_change w
  = if bool_decide (old_level ≠ new_level)
    then ((total_xp, new_level),
          create_task {| task_user := user_id; task_guild := guild_id;
                         task_old_level := old_level; task_new_level := new_level |}
            (store_level user_id guild_id new_level w2))
    else ((total_xp, new_level), w2).
Proof.
  intros Hdb old_level w2 total_xp new_level.
  assert (ledger_row w2 user_id guild_id
          = Some {| row_xp := Z.max 0 (stored_xp w user_id guild_id + xp_change);
                    row_level := old_level |}) as Hrow.
  { unfold w2, after_xp_stored. rewrite ledger_row_store_xp.
    rewrite decide_True by reflexivity.
    rewrite (get_user_data_ledger _ _ _ _ Hdb), get_user_data_row. reflexivity. }
  assert ((calculate_total_user_xp user_id guild_id w2).2 = w2) as Hsame.
  { rewrite calculate_total_user_xp_world.
    by rewrite (get_user_data_present _ _ _ _ Hrow). }
  split; [exact Hrow |]. split; [exact Hsame |].
  unfold updated_user_xp. rewrite Hdb.
  rewrite (surjective_pairing (get_user_data user_id guild_id w)).
  rewrite get_user_data_xp, get_user_data_row.
  fold (after_xp_stored user_id guild_id xp_change w). fold w2. fold old_level.
  rewrite (surjective_pairing (calculate_total_user_xp user_id guild_id w2)).
  rewrite Hsame. reflexivity.
Qed.

Lemma updated_user_xp_stored user_id guild_id xp_change w db :
  db_connection (quest_bot w) = Some db →
  stored_xp (updated_user_xp user_id guild_id xp_change w).2 user_id guild_id
  = Z.max 0 (stored_xp w user_id guild_id + xp_change).
Proof.
  intros Hdb.
  destruct (updated_user_xp_steps user_id guild_id xp_change w db Hdb) as (Hrow & _ & ->).
  unfold stored_xp at 1.
  case_bool_decide; simpl.
  - change (ledger_row (create_task ?t ?w) ?u ?g) with (ledger_row w u g).
    rewrite ledger_row_store_level, decide_True by reflexivity.
    rewrite Hrow. reflexivity.
  - rewrite Hrow. reflexivity.
Qed.

Lemma stored_xp_run_tasks w user_id guild_id :
  stored_xp (run_tasks w) user_id guild_id = stored_xp w user_id guild_id.
Proof.
  unfold stored_xp, ledger_row. by destruct (run_tasks_spec w) as (-> & _ & _).
Qed.

Lemma stored_xp_channel_send channel notice w user_id guild_id :
  stored_xp (channel_send channel notice w) user_id guild_id
  = stored_xp w user_id guild_id.
Proof.
  unfold stored_xp, ledger_row.
  by destruct (channel_send_spec channel notice w) as (-> & _ & _).
Qed.

Lemma updated_user_xp_row user_id guild_id xp_change w db :
  db_connection (quest_bot w) = Some db →
  is_Some (ledger_row (updated_user_xp user_id guild_id xp_change w).2 user_id guild_id).
Proof.
  intros Hdb.
  destruct (updated_user_xp_steps user_id guild_id xp_change w db Hdb) as (Hrow & _ & ->).
  case_bool_decide; simpl.
  - change (ledger_row (create_task ?t ?w) ?u ?g) with (ledger_row w u g).
    rewrite ledger_row_store_level, decide_True by reflexivity.
    rewrite Hrow. by eexists.
  - rewrite Hrow. by eexists.
Qed.

(** [update_user_xp] returns when the store is not connected or the new
    base XP fits, and raises at the [UPDATE] otherwise, with the row
    read or created and nothing stored. *)
Lemma update_user_xp_returns user_id guild_id xp_change w :
  db_connection (quest_bot w) = None ∨
  fits_int64 (Z.max 0 (stored_xp w user_id guild_id + xp_change)) = true →
  update_user_xp user_id guild_id xp_change w
  = (Return (updated_user_xp user_id guild_id xp_change w).1,
     (updated_user_xp user_id guild_id xp_change w).2).
Proof.
  intros Hfit. unfold update_user_xp, updated_user_xp.
  destruct (db_connection (quest_bot w)) as [db |] eqn:Hdb; [| reflexivity].
  destruct Hfit as [? | Hfit]; [done |].
  unfold bind, lift, bind_int, ret.
  pose proof (get_user_data_xp user_id guild_id w) as Hxp.
  destruct (get_user_data user_id guild_id w) as [current_data w1]. cbn [fst] in Hxp.
  rewrite Hxp, Hfit.
  destruct (calculate_total_user_xp user_id guild_id _) as [total_xp w2].
  by case_bool_decide.
Qed.

Lemma update_user_xp_returned user_id guild_id xp_change w figures w' :
  update_user_xp user_id guild_id xp_change w = (Return figures, w') →
  updated_user_xp user_id guild_id xp_change w = (figures, w').
Proof.
  destruct (db_connection (quest_bot w)) as [db |] eqn:Hdb.
  - destruct (fits_int64 (Z.max 0 (stored_xp w user_id guild_id + xp_change))) eqn:Hfit.
    + rewrite update_user_xp_returns by (by right). intros [= <- <-].
      by destruct (updated_user_xp _ _ _ _).
    + unfold update_user_xp. rewrite Hdb. unfold bind, lift, bind_int.
      pose proof (get_user_data_xp user_id guild_id w) as Hxp.
      destruct (get_user_data user_id guild_id w) as [current_data w1]. cbn [fst] in Hxp.
      rewrite Hxp, Hfit. discriminate.
  - rewrite update_user_xp_returns by (by left). intros [= <- <-].
    by destruct (updated_user_xp _ _ _ _).
Qed.

Lemma update_user_xp_raises user_id guild_id xp_change w db :
  db_connection (quest_bot w) = Some db →
  fits_int64 (Z.max 0 (stored_xp w user_id guild_id + xp_change)) = false →
  update_user_xp user_id guild_id xp_change w
  = (Raise, (get_user_data user_id guild_id w).2).
Proof.
  intros Hdb Hout. unfold update_user_xp. rewrite Hdb.
  unfold bind, lift, bind_int.
  pose proof (get_user_data_xp user_id guild_id w) as Hxp.
  destruct (get_user_data user_id guild_id w) as [current_data w1]. cbn [fst] in Hxp.
  by rewrite Hxp, Hout.
Qed.

Lemma stored_xp_get_user_data user_id guild_id w u g :
  stored_xp (get_user_data user_id guild_id w).2 u g = stored_xp w u g.
Proof.
  unfold stored_xp, ledger_row, get_user_data.
  destruct (db_connection (quest_bot w)) as [db |] eqn:Hdb; simpl; [| by rewrite Hdb].
  destruct (users db !! (user_id, guild_id)) eqn:Hrow; simpl; [by rewrite Hdb |].
  rewrite Hdb. simpl.
  destruct (decide ((user_id, guild_id) = (u, g))) as [[= <- <-] | Hne].
  - by rewrite lookup_insert_eq, Hrow.
  - by rewrite lookup_insert_ne.
Qed.

Lemma clamped_fits base xp_change :
  base + xp_change ≤ INT64_MAX ↔ fits_int64 (Z.max 0 (base + xp_change)) = true.
Proof.
  rewrite fits_int64_spec. unfold INT64_MAX.
  change (2 ^ 63 - 1) with 9223372036854775807. lia.
Qed.

Lemma clamped_overflows base xp_change :
  INT64_MAX < base + xp_change ↔ fits_int64 (Z.max 0 (base + xp_change)) = false.
Proof.
  rewrite fits_int64_false. unfold INT64_MAX.
  change (2 ^ 63 - 1) with 9223372036854775807. lia.
Qed.

(** C9, as the code has it. On a connected store, when the previous
    base XP plus [xp_change] is at most 2^63 - 1, the greatest SQLite
    INTEGER, [update_user_xp] returns and the stored base XP of the user
    is [max(0, previous + xp_change)], where the previous base XP of a
    user without a row is 0; it is never negative, also once the handler
    has completed.  When the sum is greater, the [UPDATE] raises and the
    stored base XP stays as it was.  [remove_xp_command] with an amount
    of at least the balance of an opted-in user leaves 0. *)
Theorem update_user_xp_clamps_at_zero
    (user_id guild_id xp_change : Z) (w : World) (db : DB) :
  db_connection (quest_bot w) = Some db →
  let result := update_user_xp user_id guild_id xp_change w in
  let w' := result.2 in
  (stored_xp w user_id guild_id + xp_change ≤ INT64_MAX →
   (∃ figures, result.1 = Return figures) ∧
   stored_xp w' user_id guild_id = Z.max 0 (stored_xp w user_id guild_id + xp_change) ∧
   is_Some (ledger_row w' user_id guild_id) ∧
   0 ≤ stored_xp w' user_id guild_id ∧
   stored_xp (run_tasks w') user_id guild_id = stored_xp w' user_id guild_id) ∧
  (INT64_MAX < stored_xp w user_id guild_id + xp_change →
   result.1 = Raise ∧
   stored_xp w' user_id guild_id = stored_xp w user_id guild_id ∧
   stored_xp (run_tasks w') user_id guild_id = stored_xp w user_id guild_id) ∧
  ∀ channel amount,
    is_user_opted_in user_id guild_id w = true →
    stored_xp w user_id guild_id ≤ amount →
    stored_xp (completes (remove_xp_command guild_id channel amount user_id) w)
      user_id guild_id = 0.
Proof.
  intros Hdb result w'. split; [| split].
  - intros Hfit%clamped_fits. unfold w', result.
    rewrite update_user_xp_returns by (by right). cbn [fst snd].
    pose proof (updated_user_xp_stored user_id guild_id xp_change _ _ Hdb) as Hst.
    split; [by eexists |]. split; [exact Hst |].
    split; [by apply (updated_user_xp_row _ _ _ _ db) |].
    split; [rewrite Hst; lia | apply stored_xp_run_tasks].
  - intros Hout%clamped_overflows. unfold w', result.
    rewrite (update_user_xp_raises _ _ _ _ db Hdb Hout). cbn [fst snd].
    split; [done |].
    by rewrite stored_xp_run_tasks, stored_xp_get_user_data.
  - intros channel amount Hopt Hle.
    unfold completes, remove_xp_command. rewrite Hopt. cbn [negb].
    rewrite update_user_xp_returns.
    + rewrite (surjective_pairing (updated_user_xp user_id guild_id (- amount) w).1).
      rewrite stored_xp_run_tasks, stored_xp_channel_send.
      rewrite (updated_user_xp_stored user_id guild_id _ _ _ Hdb). lia.
    + right. apply clamped_fits. unfold INT64_MAX.
      change (2 ^ 63 - 1) with 9223372036854775807. lia.
Qed.

(** ** The opt-in predicate *)

Lemma is_user_opted_in_unreadable user_id guild_id w :
  member_roles guild_id user_id w = Raise → is_user_opted_in user_id guild_id w = false.
Proof.
  unfold member_roles, is_user_opted_in, try_except, bind, reading, ret.
  destruct (get_guild guild_id w) as [[g |] |]; simpl; [| reflexivity ..].
  destruct (get_member g user_id) as [[roles |] |]; simpl;
    [discriminate | reflexivity ..].
Qed.

Lemma is_user_opted_in_readable user_id guild_id w roles :
  member_roles guild_id user_id w = Return roles →
  is_user_opted_in user_id guild_id w = existsb is_level_role roles.
Proof.
  unfold member_roles, is_user_opted_in, try_except, bind, reading, ret.
  destruct (get_guild guild_id w) as [[g |] |]; simpl; [| discriminate ..].
  destruct (get_member g user_id) as [[roles' |] |]; simpl; [| discriminate ..].
  by intros [= ->].
Qed.

Lemma on_quest_reaction_not_opted_in reaction w :
  is_user_opted_in (reaction_user reaction) (message_guild reaction) w = false →
  on_quest_reaction reaction w = w.
Proof.
  intros Hno. unfold on_quest_reaction.
  destruct (db_connection (quest_bot w)) as [db |]; [| reflexivity].
  destruct (quests db !! message_id reaction); [| reflexivity].
  by rewrite Hno.
Qed.

(** C10. When the guild or the member cannot be resolved from the cache,
    or reading either raises, [is_user_opted_in] is [False]; then an
    acknowledgement on a quest message changes nothing, and [addXP] and
    [removeXP] leave the store as it is and answer that the user has not
    opted in. *)
Theorem unreadable_member_is_not_opted_in (user_id guild_id : Z) (w : World) :
  member_roles guild_id user_id w = Raise →
  is_user_opted_in user_id guild_id w = false ∧
  (∀ reaction,
     reaction_user reaction = user_id → message_guild reaction = guild_id →
     is_optin_message (quest_bot w) (message_id reaction) = false →
     on_reaction_add reaction w = w) ∧
  (∀ channel amount,
     quest_bot (add_xp_command guild_id channel amount user_id w) = quest_bot w ∧
     sent (add_xp_command guild_id channel amount user_id w)
       = sent w ++ [(channel, UserNotOptedIn user_id)] ∧
     quest_bot (remove_xp_command guild_id channel amount user_id w) = quest_bot w ∧
     sent (remove_xp_command guild_id channel amount user_id w)
       = sent w ++ [(channel, UserNotOptedIn user_id)]).
Proof.
  intros Hr. pose proof (is_user_opted_in_unreadable _ _ _ Hr) as Hno.
  split; [exact Hno |]. split.
  - intros reaction Hu Hg Hopt. unfold on_reaction_add. rewrite Hopt.
    destruct (user_bot reaction); [reflexivity |].
    destruct (emoji_is_check reaction); [| reflexivity].
    apply on_quest_reaction_not_opted_in. by rewrite Hu, Hg.
  - intros channel amount. unfold add_xp_command, remove_xp_command. rewrite Hno. simpl.
    destruct (channel_send_spec channel (UserNotOptedIn user_id) w) as (H1 & H2 & _).
    auto.
Qed.

(** ** The channel gate *)

Lemma send_whitelisted_message_rule guild_id channel notice w :
  let target := {| channel_id := channel; channel_guild := Some guild_id |} in
  let allowed := fst <$> get_whitelisted_channels (quest_bot w) guild_id in
  ((send_whitelisted_message target notice w).1 = true ↔ allowed = [] ∨ channel ∈ allowed) ∧
  ((send_whitelisted_message target notice w).1 = true →
     (send_whitelisted_message target notice w).2 = channel_send channel notice w) ∧
  ((send_whitelisted_message target notice w).1 = false →
     (send_whitelisted_message target notice w).2 = w).
Proof.
  intros target allowed. unfold send_whitelisted_message, allowed. simpl.
  destruct (get_whitelisted_channels (quest_bot w) guild_id) as [| c cs] eqn:Hw.
  - simpl. repeat split; auto. discriminate.
  - case_bool_decide as Hin; simpl.
    + repeat split; auto. discriminate.
    + repeat split; try discriminate; auto. intros [Hnil | Hc]; [discriminate | done].
Qed.

(** C6, as the code has it. For a command invoked in a guild, the global
    check passes exactly when the author may manage the guild, or the
    command is [whitelist], or the whitelist of the guild is empty, or
    the channel is on it.  [send_whitelisted_message] to a channel of
    the guild sends exactly when the whitelist is empty or the channel
    is on it, and otherwise does nothing; so for an actor without the
    permission and a command other than [whitelist], both decide
    alike. *)
Theorem channel_gate_rule (qb : QuestBot) (ctx : Context) (guild_id : Z) :
  ctx_guild ctx = Some guild_id →
  let allowed := fst <$> get_whitelisted_channels qb guild_id in
  (is_channel_whitelisted_check qb ctx = true ↔
     ctx_manage_guild ctx = true ∨ ctx_command ctx = Some "whitelist" ∨
     allowed = [] ∨ ctx_channel ctx ∈ allowed) ∧
  ∀ w notice,
    quest_bot w = qb →
    let target := {| channel_id := ctx_channel ctx; channel_guild := Some guild_id |} in
    ((send_whitelisted_message target notice w).1 = true ↔
       allowed = [] ∨ ctx_channel ctx ∈ allowed) ∧
    ((send_whitelisted_message target notice w).1 = true →
       (send_whitelisted_message target notice w).2
       = channel_send (ctx_channel ctx) notice w) ∧
    ((send_whitelisted_message target notice w).1 = false →
       (send_whitelisted_message target notice w).2 = w) ∧
    (ctx_manage_guild ctx = false → ctx_command ctx ≠ Some "whitelist" →
       is_channel_whitelisted_check qb ctx = (send_whitelisted_message target notice w).1).
Proof.
  intros Hg allowed.
  assert (is_channel_whitelisted_check qb ctx = true ↔
            ctx_manage_guild ctx = true ∨ ctx_command ctx = Some "whitelist" ∨
            allowed = [] ∨ ctx_channel ctx ∈ allowed) as Hgate.
  { unfold is_channel_whitelisted_check, allowed. rewrite Hg.
    destruct (ctx_manage_guild ctx); [split; auto |].
    case_bool_decide as Hc; [split; auto |].
    destruct (get_whitelisted_channels qb guild_id) as [| c cs]; [split; auto |].
    case_bool_decide as Hin; split; try discriminate.
    - intros [Hp | [Hw | [Hnil | Hmem]]];
        [discriminate Hp | destruct (Hc Hw) | discriminate Hnil | destruct (Hin Hmem)].
    - intros _. right; right; right. exact Hin.
    - reflexivity. }
  split; [exact Hgate |].
  intros w notice <- target.
  destruct (send_whitelisted_message_rule guild_id (ctx_channel ctx) notice w)
    as (Hsend & Hyes & Hno).
  fold target in Hsend, Hyes, Hno. fold allowed in Hsend.
  repeat split; try apply Hsend; auto.
  intros Hpriv Hcmd.
  destruct (send_whitelisted_message target notice w).1 eqn:Hs.
  - apply Hgate. right; right. by apply Hsend.
  - apply not_true_is_false. intros Hchk.
    apply Hgate in Hchk as [Hp | [Hc | Hin]]; [congruence | done |].
    apply Hsend in Hin. congruence.
Qed.

(** ** Quest completion *)

#[local] Instance same_but_ledger_preorder : PreOrder same_but_ledger.
Proof.
  split.
  - intros w. repeat split.
  - intros w1 w2 w3 H1 H2. unfold same_but_ledger in *.
    destruct H1 as (?&?&?&?&?&?&?), H2 as (?&?&?&?&?&?&?).
    repeat split; congruence.
Qed.

Lemma same_but_users_ledger w w' : same_but_users w w' → same_but_ledger w w'.
Proof. intros (?&?&?&?&?&?&?&?). repeat split; assumption. Qed.

Lemma after_xp_stored_frame user_id guild_id xp_change w :
  same_but_users w (after_xp_stored user_id guild_id xp_change w).
Proof.
  unfold after_xp_stored. etransitivity; [apply get_user_data_frame |].
  apply store_xp_frame.
Qed.

Lemma updated_user_xp_frame user_id guild_id xp_change :
  keeps_fn same_but_ledger (updated_user_xp user_id guild_id xp_change).
Proof.
  intros w. destruct (db_connection (quest_bot w)) as [db |] eqn:Hdb.
  - destruct (updated_user_xp_steps user_id guild_id xp_change w db Hdb) as (_ & _ & ->).
    pose proof (after_xp_stored_frame user_id guild_id xp_change w) as H2.
    case_bool_decide; simpl.
    + apply same_but_users_ledger in H2.
      etransitivity; [exact H2 |].
      apply (same_but_users_ledger _ (store_level _ _ _ _)), store_level_frame.
    + by apply same_but_users_ledger.
  - unfold updated_user_xp. rewrite Hdb. reflexivity.
Qed.

Lemma quest_row_same_but_ledger w w' message_id :
  same_but_ledger w w' → quest_row w' message_id = quest_row w message_id.
Proof.
  intros (_ & _ & _ & _ & Hq & _). unfold quest_row.
  destruct (db_connection (quest_bot w')), (db_connection (quest_bot w));
    simpl in *; congruence.
Qed.

Lemma quest_row_store_completed_users message_id completed w q :
  quest_row w message_id = Some q →
  completed_users <$> quest_row (store_completed_users message_id completed w) message_id
  = Some completed.
Proof.
  unfold quest_row, store_completed_users; simpl.
  destruct (db_connection (quest_bot w)) as [db |]; simpl; [| discriminate].
  intros Hq. rewrite lookup_alter_eq, Hq. reflexivity.
Qed.

Lemma stored_xp_store_completed_users message_id completed w user_id guild_id :
  stored_xp (store_completed_users message_id completed w) user_id guild_id
  = stored_xp w user_id guild_id.
Proof.
  unfold stored_xp, ledger_row, store_completed_users; simpl.
  by destruct (db_connection (quest_bot w)).
Qed.

Lemma send_whitelisted_message_spec target notice w :
  quest_bot (send_whitelisted_message target notice w).2 = quest_bot w ∧
  ((send_whitelisted_message target notice w).2 = w ∨
   (send_whitelisted_message target notice w).2 = channel_send (channel_id target) notice w).
Proof.
  unfold send_whitelisted_message.
  pose proof (channel_send_spec (channel_id target) notice w) as (Hs & _).
  destruct (channel_guild target); [| by auto].
  destruct (get_whitelisted_channels _ _); [by auto |].
  case_bool_decide; auto.
Qed.

Lemma on_quest_reaction_completed reaction w q :
  quest_row w (message_id reaction) = Some q →
  reaction_user reaction ∈ completed_users q →
  on_quest_reaction reaction w = w.
Proof.
  unfold quest_row, on_quest_reaction.
  destruct (db_connection (quest_bot w)) as [db |]; simpl; [| discriminate].
  intros -> Hin.
  destruct (is_user_opted_in _ _ w); simpl; [| reflexivity].
  rewrite bool_decide_eq_false_2; [reflexivity |]. intros Hnot. by apply Hnot.
Qed.

(** The world an accepted quest acknowledgement leaves, before the
    confirmation is sent. *)
Lemma on_quest_reaction_accepted reaction w db q :
  db_connection (quest_bot w) = Some db →
  quests db !! message_id reaction = Some q →
  is_user_opted_in (reaction_user reaction) (message_guild reaction) w = true →
  reaction_user reaction ∉ completed_users q →
  let reward := default 50 (xp_reward q) in
  fits_int64 (Z.max 0 (stored_xp w (reaction_user reaction) (message_guild reaction)
                       + reward)) = true →
  let updated := updated_user_xp (reaction_user reaction) (message_guild reaction) reward w in
  let stored := store_completed_users (message_id reaction)
                  (completed_users q ++ [reaction_user reaction]) updated.2 in
  on_quest_reaction reaction w
  = (send_whitelisted_message
       {| channel_id := message_channel reaction;
          channel_guild := Some (message_guild reaction) |}
       (QuestCompleted (reaction_user reaction) reward updated.1.1 updated.1.2) stored).2.
Proof.
  intros Hdb Hq Hopt Hnew reward Hfit updated stored.
  unfold on_quest_reaction. rewrite Hdb, Hq, Hopt. simpl.
  rewrite bool_decide_eq_true_2 by exact Hnew.
  fold reward. rewrite update_user_xp_returns by (by right). fold updated.
  by destruct updated as [[new_xp new_level] w'] eqn:Hu.
Qed.

(** The world an acknowledgement leaves when the store refuses the new
    base XP: the row of the user has been read or created, and the
    handler has ended at the [UPDATE]. *)
Lemma on_quest_reaction_refused reaction w db q :
  db_connection (quest_bot w) = Some db →
  quests db !! message_id reaction = Some q →
  is_user_opted_in (reaction_user reaction) (message_guild reaction) w = true →
  reaction_user reaction ∉ completed_users q →
  fits_int64 (Z.max 0 (stored_xp w (reaction_user reaction) (message_guild reaction)
                       + default 50 (xp_reward q))) = false →
  on_quest_reaction reaction w
  = (get_user_data (reaction_user reaction) (message_guild reaction) w).2.
Proof.
  intros Hdb Hq Hopt Hnew Hout.
  unfold on_quest_reaction. rewrite Hdb, Hq, Hopt. simpl.
  rewrite bool_decide_eq_true_2 by exact Hnew.
  by rewrite (update_user_xp_raises _ _ _ _ db Hdb Hout).
Qed.

Lemma quest_row_get_user_data user_id guild_id w message_id :
  quest_row (get_user_data user_id guild_id w).2 message_id = quest_row w message_id.
Proof.
  apply quest_row_same_but_ledger, same_but_users_ledger, get_user_data_frame.
Qed.

Lemma quest_row_run_tasks w message_id :
  quest_row (run_tasks w) message_id = quest_row w message_id.
Proof. unfold quest_row. by rewrite (proj1 (run_tasks_spec w)). Qed.

(** C3, as the code has it. An acknowledgement of an opted-in user on a
    quest the user has not completed, where the base XP of the user plus
    the reward is at most 2^63 - 1, the greatest SQLite INTEGER, appends
    the user id to the completed list and stores base XP [max(0,
    previous + reward)]; processing the same acknowledgement again
    changes nothing at all, because the user id is in the completed
    list.  Where the sum is greater, the [UPDATE] of the base XP raises
    before the list is stored: the handler ends, and the quest row and
    the base XP are as they were. *)
Theorem quest_completion_counts_once (reaction : Reaction) (w : World) (db : DB)
    (q : QuestRow) :
  user_bot reaction = false →
  emoji_is_check reaction = true →
  is_optin_message (quest_bot w) (message_id reaction) = false →
  db_connection (quest_bot w) = Some db →
  quests db !! message_id reaction = Some q →
  is_user_opted_in (reaction_user reaction) (message_guild reaction) w = true →
  reaction_user reaction ∉ completed_users q →
  let base := stored_xp w (reaction_user reaction) (message_guild reaction) in
  let reward := default 50 (xp_reward q) in
  let w1 := completes (on_reaction_add reaction) w in
  let w2 := completes (on_reaction_add reaction) w1 in
  (base + reward ≤ INT64_MAX →
   (completed_users <$> quest_row w1 (message_id reaction))
     = Some (completed_users q ++ [reaction_user reaction]) ∧
   stored_xp w1 (reaction_user reaction) (message_guild reaction)
     = Z.max 0 (base + reward) ∧
   w2 = w1) ∧
  (INT64_MAX < base + reward →
   quest_row w1 (message_id reaction) = Some q ∧
   stored_xp w1 (reaction_user reaction) (message_guild reaction) = base).
Proof.
  intros Hbot Hemoji Hoptin Hdb Hq Hopt Hnew base reward w1 w2.
  split; [intros Hfit%clamped_fits | intros Hout%clamped_overflows]; cycle 1.
  { unfold w1, completes, on_reaction_add. rewrite Hbot, Hemoji, Hoptin.
    rewrite (on_quest_reaction_refused reaction w db q Hdb Hq Hopt Hnew Hout).
    rewrite quest_row_run_tasks, quest_row_get_user_data, stored_xp_run_tasks,
      stored_xp_get_user_data.
    split; [| done]. unfold quest_row. by rewrite Hdb. }
  subst base reward.
  set (uid := reaction_user reaction) in *. set (gid := message_guild reaction) in *.
  set (reward := default 50 (xp_reward q)) in *.
  set (updated := updated_user_xp uid gid reward w).
  set (stored := store_completed_users (message_id reaction)
                   (completed_users q ++ [uid]) updated.2).
  pose proof (updated_user_xp_frame uid gid reward w) as Hframe. fold updated in Hframe.
  assert (quest_row updated.2 (message_id reaction) = Some q) as Hq'.
  { rewrite (quest_row_same_but_ledger _ _ _ Hframe). unfold quest_row.
    rewrite Hdb. exact Hq. }
  assert (quest_bot w1 = quest_bot stored) as Hqb.
  { unfold w1, completes, on_reaction_add. rewrite Hbot, Hemoji, Hoptin.
    rewrite (on_quest_reaction_accepted reaction w db q Hdb Hq Hopt Hnew Hfit).
    rewrite (proj1 (run_tasks_spec _)).
    etransitivity; [apply send_whitelisted_message_spec | reflexivity]. }
  assert (completed_users <$> quest_row w1 (message_id reaction)
          = Some (completed_users q ++ [uid])) as Hdone.
  { unfold quest_row. rewrite Hqb.
    apply (quest_row_store_completed_users _ _ _ _ Hq'). }
  split; [exact Hdone |]. split.
  { unfold stored_xp, ledger_row. rewrite Hqb.
    change (stored_xp stored uid gid = Z.max 0 (stored_xp w uid gid + reward)).
    unfold stored. rewrite stored_xp_store_completed_users.
    apply (updated_user_xp_stored uid gid reward w db Hdb). }
  assert (pending w1 = []) as Hidle by apply run_tasks_spec.
  unfold w2, completes.
  assert (on_reaction_add reaction w1 = w1) as ->; [| by apply run_tasks_idle].
  unfold on_reaction_add. rewrite Hbot, Hemoji.
  assert (is_optin_message (quest_bot w1) (message_id reaction) = false) as ->.
  { rewrite Hqb. unfold is_optin_message, stored.
    destruct Hframe as (_ & _ & _ & Hid & _).
    change (optin_message_id (quest_bot (store_completed_users ?m ?c ?w)))
      with (optin_message_id (quest_bot w)).
    rewrite Hid. exact Hoptin. }
  destruct (quest_row w1 (message_id reaction)) as [q1 |] eqn:Hq1; [| discriminate].
  apply (on_quest_reaction_completed reaction w1 q1 Hq1).
  simpl in Hdone. injection Hdone as ->. apply elem_of_app. right. by left.
Qed.

(** ** Streak gains *)

Lemma check_and_update_level_roles_frame user_id guild_id :
  keeps_fn same_but_ledger (check_and_update_level_roles user_id guild_id).
Proof.
  intros w. unfold check_and_update_level_roles.
  rewrite (surjective_pairing (get_user_data user_id guild_id w)).
  set (w1 := (get_user_data user_id guild_id w).2).
  rewrite (surjective_pairing (calculate_total_user_xp user_id guild_id w1)).
  set (w2 := (calculate_total_user_xp user_id guild_id w1).2).
  assert (same_but_ledger w w2) as H2.
  { unfold w2. rewrite calculate_total_user_xp_world.
    etransitivity; apply same_but_users_ledger, get_user_data_frame. }
  case_bool_decide; simpl; [| exact H2].
  destruct (db_connection (quest_bot w2)); simpl; [| exact H2].
  etransitivity; [exact H2 |].
  apply (same_but_users_ledger _ (store_level _ _ _ _)), store_level_frame.
Qed.

Lemma send_to_first_channel_quest_bot guild_id notice w :
  quest_bot (send_to_first_channel guild_id notice w) = quest_bot w.
Proof.
  unfold send_to_first_channel.
  destruct (get_guild guild_id w) as [[g |] |]; try reflexivity.
  destruct (find send_messages (text_channels g)); [| reflexivity].
  apply channel_send_spec.
Qed.



(** [record_streak_role_gain] returns when the store is not connected
    or the amount fits, and raises at the [INSERT] otherwise, with
    nothing logged. *)
Lemma record_streak_role_gain_returns user_id guild_id role_id role_name xp_amount w :
  db_connection (quest_bot w) = None ∨ fits_int64 xp_amount = true →
  record_streak_role_gain user_id guild_id role_id role_name xp_amount w
  = (Return tt, logged_gain user_id guild_id role_id role_name xp_amount w).
Proof.
  intros Hfit. unfold record_streak_role_gain, logged_gain.
  destruct (db_connection (quest_bot w)) as [db |]; [| reflexivity].
  destruct Hfit as [? | Hfit]; [done |].
  unfold bind, bind_int, lift. by rewrite Hfit.
Qed.

Lemma record_streak_role_gain_raises user_id guild_id role_id role_name xp_amount w db :
  db_connection (quest_bot w) = Some db →
  fits_int64 xp_amount = false →
  record_streak_role_gain user_id guild_id role_id role_name xp_amount w = (Raise, w).
Proof.
  intros Hdb Hout. unfold record_streak_role_gain. rewrite Hdb.
  unfold bind, bind_int. by rewrite Hout.
Qed.

(** The body of the loop of [on_member_update] raises exactly when the
    store refuses the gain, and has then changed nothing. *)
Lemma on_role_added_cases user_id guild_id role w :
  on_role_added user_id guild_id role w
  = if gain_refused user_id guild_id role w then (Raise, w)
    else (Return tt, role_added user_id guild_id role w).
Proof.
  unfold on_role_added, role_added, gain_refused.
  destruct (is_user_opted_in user_id guild_id w); cbn [negb andb]; [| reflexivity].
  destruct (get_role_xp_and_type (quest_bot w) guild_id (Str.str (role_id role)))
    as [[reward role_type] |]; cycle 1.
  { rewrite andb_false_r. destruct (Str.contains _ _); [| reflexivity].
    by destruct (check_and_update_level_roles user_id guild_id w) as [[[? ?] ?] ?]. }
  case_bool_decide as Htype; cbn [andb]; cycle 1.
  { rewrite andb_false_r.
    by destruct (check_and_update_level_roles user_id guild_id w) as [[[? ?] ?] ?]. }
  destruct (db_connection (quest_bot w)) as [db |] eqn:Hdb.
  - rewrite bool_decide_eq_true_2 by (by eexists). cbn [andb].
    destruct (fits_int64 reward) eqn:Hfit; cbn [negb].
    + rewrite record_streak_role_gain_returns by (by right).
      by destruct (check_and_update_level_roles user_id guild_id _) as [[[? ?] ?] ?].
    + by rewrite (record_streak_role_gain_raises _ _ _ _ _ _ db Hdb Hfit).
  - rewrite bool_decide_eq_false_2 by (by intros [? ?]). cbn [andb].
    rewrite record_streak_role_gain_returns by (by left).
    by destruct (check_and_update_level_roles user_id guild_id _) as [[[? ?] ?] ?].
Qed.


Lemma on_member_update_single user_id guild_id before after role w :
  added_roles before after = [role] →
  on_member_update user_id guild_id before after w
  = if gain_refused user_id guild_id role w then w
    else role_added user_id guild_id role w.
Proof.
  intros Hadded. unfold on_member_update. rewrite Hadded. cbn [for_each]. unfold bind.
  rewrite on_role_added_cases. by destruct (gain_refused user_id guild_id role w).
Qed.

(** What every turn of the loop keeps, the handler keeps. *)
Lemma on_member_update_keeps (R : relation World) `{!PreOrder R}
    user_id guild_id before after w :
  (∀ role w, R w (role_added user_id guild_id role w)) →
  R w (on_member_update user_id guild_id before after w).
Proof.
  intros Hstep. unfold on_member_update.
  generalize (added_roles before after). intros roles. revert w.
  induction roles as [| role roles IH]; intros w; [reflexivity |].
  cbn [for_each]. unfold bind. rewrite on_role_added_cases.
  destruct (gain_refused user_id guild_id role w); [reflexivity |].
  etransitivity; [apply Hstep | apply IH].
Qed.


(** A role gained by a member who has not opted in is skipped. *)
Lemma role_added_not_opted_in user_id guild_id role w :
  is_user_opted_in user_id guild_id w = false →
  role_added user_id guild_id role w = w.
Proof. intros Hno. unfold role_added. by rewrite Hno. Qed.





Lemma added_roles_none before after :
  (∀ r, r ∈ after → r ∈ before) → added_roles before after = [].
Proof.
  induction after as [| r after IH]; intros Hsub; [reflexivity |].
  simpl. unfold role_in at 1.
  rewrite bool_decide_eq_true_2 by (apply Hsub; by left).
  simpl. apply IH. intros r' Hr'. apply Hsub. by right.
Qed.





(** ** Role changes on the platform *)

Lemma update_guild_guilds guild_id f w g :
  guilds w !! guild_id = Some (Return g) →
  guilds (update_guild guild_id f w) = <[guild_id := Return (f g)]> (guilds w).
Proof. intros Hg. unfold update_guild; simpl. by rewrite Hg. Qed.

Lemma update_guild_lookup guild_id f w g :
  guilds w !! guild_id = Some (Return g) →
  guilds (update_guild guild_id f w) !! guild_id = Some (Return (f g)).
Proof. intros Hg. rewrite (update_guild_guilds _ _ _ _ Hg). apply lookup_insert_eq. Qed.

Lemma update_guild_compose guild_id f h w g :
  guilds w !! guild_id = Some (Return g) →
  update_guild guild_id f (update_guild guild_id h w) = update_guild guild_id (f ∘ h) w.
Proof.
  intros Hg. apply world_eq; try reflexivity.
  rewrite (update_guild_guilds _ f _ _ (update_guild_lookup _ h _ _ Hg)).
  rewrite !(update_guild_guilds _ _ w _ Hg). apply insert_insert_eq.
Qed.

Lemma update_guild_ext guild_id f h w g :
  guilds w !! guild_id = Some (Return g) → f g = h g →
  update_guild guild_id f w = update_guild guild_id h w.
Proof.
  intros Hg Hfh. apply world_eq; try reflexivity.
  by rewrite !(update_guild_guilds _ _ w _ Hg), Hfh.
Qed.

Lemma update_guild_id guild_id f w g :
  guilds w !! guild_id = Some (Return g) → f g = g → update_guild guild_id f w = w.
Proof.
  intros Hg Hf. apply world_eq; try reflexivity.
  rewrite (update_guild_guilds _ _ _ _ Hg), Hf. by apply insert_id.
Qed.

Lemma bind_return {A B} (m : Act A) (k : A → Act B) w a w' :
  m w = (Return a, w') → bind m k w = k a w'.
Proof. intros H. unfold bind. by rewrite H. Qed.

Lemma bind_reading {A B} (f : World → outcome A) (k : A → Act B) w a :
  f w = Return a → bind (reading f) k w = k a w.
Proof. intros H. unfold bind, reading. by rewrite H. Qed.

Lemma may_manage_roles_lookup guild_id w g :
  guilds w !! guild_id = Some (Return g) → may_manage_roles guild_id w = manage_roles g.
Proof. intros Hg. unfold may_manage_roles, get_guild. by rewrite Hg. Qed.

Lemma roles_of_guild_lookup guild_id w g :
  guilds w !! guild_id = Some (Return g) →
  roles_of_guild guild_id w = Return (guild_roles g).
Proof. intros Hg. unfold roles_of_guild, get_guild. by rewrite Hg. Qed.

Lemma member_roles_lookup guild_id user_id w g :
  guilds w !! guild_id = Some (Return g) →
  member_roles guild_id user_id w
  = match guild_members g !! user_id with
    | Some (Return roles) => Return roles
    | _ => Raise
    end.
Proof.
  intros Hg. unfold member_roles, get_guild, get_member. rewrite Hg.
  by destruct (guild_members g !! user_id) as [[roles |] |].
Qed.

Lemma update_member_roles_as_guild guild_id user_id f w g roles :
  guilds w !! guild_id = Some (Return g) →
  guild_members g !! user_id = Some (Return roles) →
  update_member_roles guild_id user_id f w
  = update_guild guild_id (with_member_roles user_id (f roles)) w.
Proof.
  intros Hg Hm. unfold update_member_roles.
  apply (update_guild_ext _ _ _ _ _ Hg).
  unfold set_guild_members, with_member_roles. simpl. by rewrite Hm.
Qed.

Lemma remove_roles_permitted guild_id user_id role w g roles :
  guilds w !! guild_id = Some (Return g) →
  guild_members g !! user_id = Some (Return roles) →
  manage_roles g = true →
  remove_roles guild_id user_id role w
  = (Return tt,
     update_guild guild_id (with_member_roles user_id (filter (λ r, r ≠ role) roles)) w).
Proof.
  intros Hg Hm Hp. unfold remove_roles.
  rewrite (may_manage_roles_lookup _ _ _ Hg), Hp.
  by rewrite (update_member_roles_as_guild _ _ _ _ _ _ Hg Hm).
Qed.

Lemma add_roles_permitted guild_id user_id role w g roles :
  guilds w !! guild_id = Some (Return g) →
  guild_members g !! user_id = Some (Return roles) →
  manage_roles g = true →
  add_roles guild_id user_id role w
  = (Return tt,
     update_guild guild_id
       (with_member_roles user_id (if role_in role roles then roles else roles ++ [role]))
       w).
Proof.
  intros Hg Hm Hp. unfold add_roles.
  rewrite (may_manage_roles_lookup _ _ _ Hg), Hp.
  by rewrite (update_member_roles_as_guild _ _ _ _ _ _ Hg Hm).
Qed.

Lemma create_role_permitted guild_id name w g :
  guilds w !! guild_id = Some (Return g) →
  manage_roles g = true →
  create_role guild_id name w
  = (Return tt,
     update_guild guild_id
       (with_guild_roles
          (guild_roles g ++ [{| role_id := fresh_role_id (guild_roles g);
                                role_name := name |}])) w).
Proof.
  intros Hg Hp. unfold create_role.
  rewrite (may_manage_roles_lookup _ _ _ Hg), Hp. f_equal.
  by apply (update_guild_ext _ _ _ _ _ Hg).
Qed.

(** *** Provisioning the ladder of level roles *)

Lemma create_level_roles_loop guild_id levels w g :
  guilds w !! guild_id = Some (Return g) →
  manage_roles g = true →
  for_each levels (λ level,
      let role_name := level_role_name level in
      let* roles := reading (roles_of_guild guild_id) in
      match utils_get roles role_name with
      | Some _ => ret tt
      | None => create_role guild_id role_name
      end) w
  = (Return tt,
     update_guild guild_id
       (with_guild_roles (ensure_level_roles levels (guild_roles g))) w).
Proof.
  revert w g. induction levels as [| level levels IH]; intros w g Hg Hp.
  - simpl. unfold ret. f_equal. symmetry. apply (update_guild_id _ _ _ _ Hg).
    by destruct g.
  - cbn [for_each].
    set (g1 := with_guild_roles (ensure_level_role (guild_roles g) level) g).
    rewrite (bind_return _ _ w tt (update_guild guild_id (λ _, g1) w)).
    + etransitivity; [exact (IH _ g1 (update_guild_lookup _ _ _ _ Hg) Hp) |].
      f_equal. rewrite (update_guild_compose _ _ _ _ _ Hg).
      by apply (update_guild_ext _ _ _ _ _ Hg).
    + unfold bind, reading. rewrite (roles_of_guild_lookup _ _ _ Hg).
      unfold g1, ensure_level_role.
      destruct (utils_get (guild_roles g) (level_role_name level)) as [r |] eqn:Hget.
      * unfold ret. f_equal. symmetry. apply (update_guild_id _ _ _ _ Hg).
        by destruct g.
      * rewrite (create_role_permitted _ _ _ _ Hg Hp). f_equal.
        by apply (update_guild_ext _ _ _ _ _ Hg).
Qed.

Lemma create_level_roles_permitted guild_id w g :
  guilds w !! guild_id = Some (Return g) →
  manage_roles g = true →
  create_level_roles guild_id w
  = (tt, update_guild guild_id
           (with_guild_roles
              (ensure_level_roles [1; 2; 3; 4; 5; 6; 7; 8; 9; 10] (guild_roles g))) w).
Proof.
  intros Hg Hp. unfold create_level_roles, try_except.
  by rewrite (create_level_roles_loop _ _ _ _ Hg Hp).
Qed.

Lemma utils_get_Some roles name r :
  utils_get roles name = Some r → r ∈ roles ∧ role_name r = name.
Proof.
  unfold utils_get. induction roles as [| x roles IH]; simpl; [discriminate |].
  case_bool_decide as Hx.
  - intros [= ->]. split; [by left | exact Hx].
  - intros H. destruct (IH H). split; [by right | assumption].
Qed.

Lemma utils_get_None roles name r :
  utils_get roles name = None → r ∈ roles → role_name r ≠ name.
Proof.
  unfold utils_get. induction roles as [| x roles IH]; simpl.
  - intros _ H. by apply elem_of_nil in H.
  - case_bool_decide as Hx; [discriminate |].
    intros H [-> | Hin]%elem_of_cons; [exact Hx | by apply IH].
Qed.

Lemma utils_get_app_Some roles extra name r :
  utils_get roles name = Some r → utils_get (roles ++ extra) name = Some r.
Proof.
  unfold utils_get. induction roles as [| x roles IH]; simpl; [discriminate |].
  case_bool_decide; [done | exact IH].
Qed.

Lemma utils_get_app_None roles extra name :
  utils_get roles name = None →
  utils_get (roles ++ extra) name = utils_get extra name.
Proof.
  unfold utils_get. induction roles as [| x roles IH]; simpl; [done |].
  case_bool_decide; [discriminate | exact IH].
Qed.

Lemma ensure_level_role_get roles level :
  ∃ r, utils_get (ensure_level_role roles level) (level_role_name level) = Some r.
Proof.
  unfold ensure_level_role.
  destruct (utils_get roles (level_role_name level)) as [r |] eqn:Hget; [by eauto |].
  rewrite (utils_get_app_None _ _ _ Hget). simpl.
  rewrite bool_decide_eq_true_2 by reflexivity. by eauto.
Qed.

Lemma ensure_level_role_keeps roles level name r :
  utils_get roles name = Some r →
  utils_get (ensure_level_role roles level) name = Some r.
Proof.
  intros Hget. unfold ensure_level_role.
  destruct (utils_get roles (level_role_name level)); [exact Hget |].
  by apply utils_get_app_Some.
Qed.

Lemma ensure_level_roles_keeps levels roles name r :
  utils_get roles name = Some r →
  utils_get (ensure_level_roles levels roles) name = Some r.
Proof.
  revert roles. induction levels as [| level levels IH]; intros roles Hget; [exact Hget |].
  apply (IH (ensure_level_role roles level)). by apply ensure_level_role_keeps.
Qed.

(** After provisioning, every level of the ladder has its role. *)
Lemma ensure_level_roles_get levels roles level :
  level ∈ levels →
  ∃ r, utils_get (ensure_level_roles levels roles) (level_role_name level) = Some r.
Proof.
  revert roles. induction levels as [| l levels IH]; intros roles Hin.
  - by apply elem_of_nil in Hin.
  - apply elem_of_cons in Hin as [-> | Hin].
    + destruct (ensure_level_role_get roles l) as [r Hr]. exists r.
      by apply (ensure_level_roles_keeps levels).
    + apply (IH (ensure_level_role roles l) Hin).
Qed.

Lemma level_role_name_is_level level r :
  role_name r = level_role_name level → is_level_role r = true.
Proof.
  unfold is_level_role, Str.startswith, level_role_name. intros ->. simpl.
  by destruct (Str.str level).
Qed.

Lemma existsb_false_not_in (roles : list Role) r :
  existsb is_level_role roles = false → is_level_role r = true → role_in r roles = false.
Proof.
  intros Hnone Hr. unfold role_in. apply bool_decide_eq_false_2. intros Hin.
  assert (existsb is_level_role roles = true) as Hex; [| congruence].
  apply existsb_exists. exists r. split; [by apply list_elem_of_In | exact Hr].
Qed.

(** ** Opting in *)

Lemma level_role_name_1 : level_role_name 1 = "Level 1".
Proof. vm_compute. reflexivity. Qed.

#[local] Opaque level_role_name ensure_level_roles.

Lemma ledger_row_insert_or_ignore user_id guild_id w u g :
  is_Some (db_connection (quest_bot w)) →
  ledger_row (insert_or_ignore_user user_id guild_id w) u g
  = if decide ((user_id, guild_id) = (u, g))
    then Some (default new_user_row (ledger_row w user_id guild_id))
    else ledger_row w u g.
Proof.
  intros [db Hdb]. unfold ledger_row, insert_or_ignore_user. simpl. rewrite Hdb. simpl.
  destruct (users db !! (user_id, guild_id)) as [row |] eqn:Hrow; simpl.
  - case_decide as Heq; [| reflexivity]. by rewrite <- Heq, Hrow.
  - case_decide as Heq.
    + rewrite <- Heq. apply lookup_insert_eq.
    + by apply lookup_insert_ne.
Qed.

(** The world [grant_level_1] leaves when the bot may manage roles and
    no task is pending. *)
Lemma grant_level_1_permitted reaction level_1_role w g roles :
  guilds w !! message_guild reaction = Some (Return g) →
  guild_members g !! reaction_user reaction = Some (Return roles) →
  manage_roles g = true →
  pending w = [] →
  role_in level_1_role roles = false →
  ∃ w', grant_level_1 reaction level_1_role w = (Return tt, w') ∧
        guilds w'
        = guilds (update_guild (message_guild reaction)
                    (with_member_roles (reaction_user reaction) (roles ++ [level_1_role]))
                    w) ∧
        quest_bot w'
        = quest_bot (insert_or_ignore_user (reaction_user reaction)
                       (message_guild reaction) w).
Proof.
  intros Hg Hm Hp Hidle Hnot. unfold grant_level_1.
  rewrite (bind_return _ _ _ _ _ (add_roles_permitted _ _ _ _ _ _ Hg Hm Hp)).
  rewrite Hnot. unfold bind, lift. simpl.
  set (w2 := insert_or_ignore_user _ _ _).
  eexists. split; [reflexivity |].
  destruct (send_whitelisted_message_spec
              {| channel_id := message_channel reaction;
                 channel_guild := Some (message_guild reaction) |}
              (Welcome (reaction_user reaction)) w2) as [Hqb [-> | ->]].
  - split; reflexivity.
  - unfold channel_send. rewrite run_tasks_idle by exact Hidle. split; reflexivity.
Qed.

Lemma member_roles_same_guilds guild_id user_id w w' :
  guilds w' = guilds w → member_roles guild_id user_id w' = member_roles guild_id user_id w.
Proof. intros H. unfold member_roles, get_guild. by rewrite H. Qed.

Lemma ledger_row_same_quest_bot w w' user_id guild_id :
  quest_bot w' = quest_bot w → ledger_row w' user_id guild_id = ledger_row w user_id guild_id.
Proof. intros H. unfold ledger_row. by rewrite H. Qed.

Lemma member_roles_with_member_roles guild_id user_id roles w g :
  guilds w !! guild_id = Some (Return g) →
  member_roles guild_id user_id (update_guild guild_id (with_member_roles user_id roles) w)
  = Return roles.
Proof.
  intros Hg. rewrite (member_roles_lookup _ _ _ _ (update_guild_lookup _ _ _ _ Hg)).
  unfold with_member_roles; simpl. by rewrite lookup_insert_eq.
Qed.

(** C8. An acknowledgement on the opt-in message by a member who holds a
    level marker changes nothing: no ledger row, no role, no message.
    By a member who holds none, where the bot may manage roles, it
    grants the role named "Level 1" (creating the ladder first when the
    guild has no such role) and leaves the member a ledger row: the row
    the member had, or a new one with 0 XP and level 1 when there was
    none; the rows of others are untouched. *)
Theorem optin_is_idempotent (reaction : Reaction) (w : World) (g : Guild)
    (roles : list Role) :
  user_bot reaction = false →
  emoji_is_check reaction = true →
  is_optin_message (quest_bot w) (message_id reaction) = true →
  guilds w !! message_guild reaction = Some (Return g) →
  guild_members g !! reaction_user reaction = Some (Return roles) →
  let w' := on_reaction_add reaction w in
  (existsb is_level_role roles = true → w' = w) ∧
  (existsb is_level_role roles = false → manage_roles g = true → pending w = [] →
   ∃ level_1_role,
     role_name level_1_role = "Level 1" ∧
     member_roles (message_guild reaction) (reaction_user reaction) w'
       = Return (roles ++ [level_1_role]) ∧
     (is_Some (db_connection (quest_bot w)) →
      ledger_row w' (reaction_user reaction) (message_guild reaction)
        = Some (default new_user_row
                  (ledger_row w (reaction_user reaction) (message_guild reaction))) ∧
      ∀ u g', (reaction_user reaction, message_guild reaction) ≠ (u, g') →
              ledger_row w' u g' = ledger_row w u g')).
Proof.
  intros Hbot Hemoji Hoptin Hg Hm w'. unfold w', on_reaction_add.
  rewrite Hbot, Hemoji, Hoptin. unfold on_optin_reaction, try_except.
  rewrite (bind_reading _ _ _ (Some g)) by (unfold get_guild; by rewrite Hg).
  rewrite (bind_reading _ _ _ (Some roles)) by (unfold get_member; by rewrite Hm).
  split.
  - intros Hhas. by rewrite Hhas.
  - intros Hnone Hp Hidle. rewrite Hnone. cbn [negb].
    assert (∀ w0 g0 level_1_role w1,
              guilds w0 !! message_guild reaction = Some (Return g0) →
              guild_members g0 = guild_members g → quest_bot w0 = quest_bot w →
              role_name level_1_role = "Level 1" →
              guilds w1
              = guilds (update_guild (message_guild reaction)
                          (with_member_roles (reaction_user reaction)
                             (roles ++ [level_1_role])) w0) →
              quest_bot w1
              = quest_bot (insert_or_ignore_user (reaction_user reaction)
                             (message_guild reaction) w0) →
              ∃ level_1_role,
                role_name level_1_role = "Level 1" ∧
                member_roles (message_guild reaction) (reaction_user reaction) w1
                  = Return (roles ++ [level_1_role]) ∧
                (is_Some (db_connection (quest_bot w)) →
                 ledger_row w1 (reaction_user reaction) (message_guild reaction)
                   = Some (default new_user_row
                             (ledger_row w (reaction_user reaction)
                                (message_guild reaction))) ∧
                 ∀ u g', (reaction_user reaction, message_guild reaction) ≠ (u, g') →
                         ledger_row w1 u g' = ledger_row w u g')) as Hfinish.
    { intros w0 g0 l1 w1 Hg0 Hmem Hqb0 Hname Hguilds Hqb.
      exists l1. split; [exact Hname |]. split.
      - rewrite (member_roles_same_guilds _ _ _ _ Hguilds).
        apply (member_roles_with_member_roles _ _ _ _ _ Hg0).
      - intros Hdb.
        assert (insert_or_ignore_user (reaction_user reaction) (message_guild reaction) w0
                = set_guilds (λ _, guilds w0)
                    (set_sent (λ _, sent w0) (set_pending (λ _, pending w0)
                      (insert_or_ignore_user (reaction_user reaction)
                         (message_guild reaction) w)))) as Hins.
        { apply world_eq; try reflexivity. simpl. by rewrite Hqb0. }
        rewrite Hins in Hqb.
        split; [| intros u g' Hne];
          rewrite (ledger_row_same_quest_bot _ _ _ _ Hqb);
          change (ledger_row (set_guilds ?a (set_sent ?b (set_pending ?c ?x))) ?u ?v)
            with (ledger_row x u v);
          rewrite (ledger_row_insert_or_ignore _ _ _ _ _ Hdb).
        + by rewrite decide_True.
        + by rewrite decide_False. }
    destruct (utils_get (guild_roles g) "Level 1") as [level_1_role |] eqn:Hget.
    + destruct (utils_get_Some _ _ _ Hget) as [_ Hname].
      assert (role_in level_1_role roles = false) as Hnot.
      { apply existsb_false_not_in; [exact Hnone |].
        apply (level_role_name_is_level 1). by rewrite level_role_name_1. }
      destruct (grant_level_1_permitted reaction level_1_role w g roles
                  Hg Hm Hp Hidle Hnot) as (w1 & Hrun & Hguilds & Hqb).
      unfold lift, try_except. rewrite Hrun. cbn [snd].
      by apply (Hfinish w g level_1_role w1).
    + pose proof (create_level_roles_permitted _ _ _ Hg Hp) as Hcreate.
      set (roles' := ensure_level_roles [1; 2; 3; 4; 5; 6; 7; 8; 9; 10] (guild_roles g))
        in Hcreate.
      set (w0 := update_guild (message_guild reaction) (with_guild_roles roles') w)
        in Hcreate.
      assert (guilds w0 !! message_guild reaction
              = Some (Return (with_guild_roles roles' g))) as Hg0
        by apply (update_guild_lookup _ _ _ _ Hg).
      unfold lift. cbv beta.
      rewrite (bind_return _ _ w tt w0) by (cbv beta; by rewrite Hcreate).
      rewrite (bind_reading _ _ _ roles') by apply (roles_of_guild_lookup _ _ _ Hg0).
      destruct (ensure_level_roles_get [1; 2; 3; 4; 5; 6; 7; 8; 9; 10] (guild_roles g) 1)
        as [level_1_role Hget']; [by left |].
      rewrite level_role_name_1 in Hget'. fold roles' in Hget'.
      rewrite Hget'.
      destruct (utils_get_Some _ _ _ Hget') as [_ Hname].
      assert (role_in level_1_role roles = false) as Hnot.
      { apply existsb_false_not_in; [exact Hnone |].
        apply (level_role_name_is_level 1). by rewrite level_role_name_1. }
      destruct (grant_level_1_permitted reaction level_1_role w0 (with_guild_roles roles' g)
                  roles Hg0 Hm Hp Hidle Hnot) as (w1 & Hrun & Hguilds & Hqb).
      rewrite Hrun. cbn [snd].
      by apply (Hfinish w0 (with_guild_roles roles' g) level_1_role w1).
Qed.

(** ** The role synchronizer *)

Lemma with_member_roles_twice user_id roles roles' g :
  with_member_roles user_id roles (with_member_roles user_id roles' g)
  = with_member_roles user_id roles g.
Proof.
  unfold with_member_roles, set_guild_members; simpl. f_equal. apply insert_insert_eq.
Qed.

Lemma with_member_roles_same user_id roles g :
  guild_members g !! user_id = Some (Return roles) →
  with_member_roles user_id roles g = g.
Proof.
  intros Hm. unfold with_member_roles, set_guild_members.
  rewrite insert_id by exact Hm. by destruct g.
Qed.

Lemma filter_ext_in {A} (P Q : A → Prop) `{!∀ x, Decision (P x)} `{!∀ x, Decision (Q x)}
    (l : list A) :
  (∀ x, x ∈ l → P x ↔ Q x) → filter P l = filter Q l.
Proof.
  induction l as [| x l IH]; intros Hext; [reflexivity |].
  rewrite !filter_cons, IH by (intros y Hy; apply Hext; by right).
  pose proof (Hext x (list_elem_of_here x l)) as Hx.
  destruct (decide (P x)) as [HP | HP], (decide (Q x)) as [HQ | HQ]; try reflexivity;
    exfalso; tauto.
Qed.

Lemma filter_all {A} (P : A → Prop) `{!∀ x, Decision (P x)} (l : list A) :
  (∀ x, x ∈ l → P x) → filter P l = l.
Proof.
  induction l as [| x l IH]; intros Hall; [reflexivity |].
  rewrite filter_cons_True by (apply Hall; by left).
  rewrite IH; [reflexivity |]. intros y Hy. apply Hall. by right.
Qed.

Lemma remove_stale_loop guild_id user_id new_level (snapshot : list Role) :
  ∀ w g current,
    guilds w !! guild_id = Some (Return g) →
    guild_members g !! user_id = Some (Return current) →
    manage_roles g = true →
    for_each snapshot (λ role,
        if is_level_role role && bool_decide (role_name role ≠ level_role_name new_level)
        then remove_roles guild_id user_id role
        else ret tt) w
    = (Return tt,
       update_guild guild_id
         (with_member_roles user_id
            (filter (λ r, ¬ (r ∈ snapshot ∧ stale_marker new_level r = true)) current)) w).
Proof.
  induction snapshot as [| role snapshot IH]; intros w g current Hg Hm Hp.
  - simpl. unfold ret. f_equal. symmetry. apply (update_guild_id _ _ _ _ Hg).
    apply with_member_roles_same. rewrite Hm. do 2 f_equal.
    symmetry. apply filter_all. intros r _ [Hin _].
    by apply elem_of_nil in Hin.
  - cbn [for_each]. fold (stale_marker new_level role).
    destruct (stale_marker new_level role) eqn:Hstale.
    + rewrite (bind_return _ _ _ _ _ (remove_roles_permitted _ _ _ _ _ _ Hg Hm Hp)).
      set (g1 := with_member_roles user_id (filter (λ r, r ≠ role) current) g).
      set (w1 := update_guild guild_id
                   (with_member_roles user_id (filter (λ r, r ≠ role) current)) w).
      etransitivity.
      { apply (IH w1 g1 (filter (λ r, r ≠ role) current)).
        - exact (update_guild_lookup guild_id
                   (with_member_roles user_id (filter (λ r, r ≠ role) current)) w g Hg).
        - unfold g1, with_member_roles; simpl. apply lookup_insert_eq.
        - exact Hp. }
      unfold w1.
      f_equal. rewrite (update_guild_compose _ _ _ _ _ Hg).
      apply (update_guild_ext _ _ _ _ _ Hg). unfold compose.
      rewrite with_member_roles_twice. f_equal.
      rewrite list_filter_filter. apply list_filter_iff. intros r. split.
      * intros [Hnot Hne] [[-> | Hin]%elem_of_cons Hs]; [done | by apply Hnot].
      * intros Hnot. split.
        -- intros [Hin Hs]. apply Hnot. split; [by right | exact Hs].
        -- intros ->. apply Hnot. split; [by left | exact Hstale].
    + rewrite (bind_return _ _ w tt w) by reflexivity.
      etransitivity; [apply (IH w g current Hg Hm Hp) |].
      do 3 f_equal. apply list_filter_iff. intros r. split.
      * intros Hnot [[-> | Hin]%elem_of_cons Hs]; [congruence | by apply Hnot].
      * intros Hnot [Hin Hs]. apply Hnot. split; [by right | exact Hs].
Qed.

Lemma filter_not_stale new_level (roles : list Role) :
  filter (λ r, ¬ (r ∈ roles ∧ stale_marker new_level r = true)) roles
  = filter (λ r, stale_marker new_level r = false) roles.
Proof.
  apply filter_ext_in. intros r Hin. split.
  - intros Hnot. destruct (stale_marker new_level r); [| reflexivity].
    destruct Hnot. by split.
  - intros Hs [_ Hs']. congruence.
Qed.

Lemma update_user_level_role_permitted user_id guild_id old_level new_level w g roles :
  guilds w !! guild_id = Some (Return g) →
  guild_members g !! user_id = Some (Return roles) →
  manage_roles g = true →
  update_user_level_role user_id guild_id old_level new_level w
  = (tt, update_guild guild_id (λ _, synced_guild user_id new_level g roles) w).
Proof.
  intros Hg Hm Hp. unfold update_user_level_role, try_except.
  rewrite (bind_reading _ _ _ (Some g)) by (unfold get_guild; by rewrite Hg).
  rewrite (bind_reading _ _ _ (Some roles)) by (unfold get_member; by rewrite Hm).
  rewrite (bind_return _ _ _ _ _ (remove_stale_loop _ _ _ _ _ _ _ Hg Hm Hp)).
  rewrite filter_not_stale.
  set (kept := filter (λ r, stale_marker new_level r = false) roles).
  set (g1 := with_member_roles user_id kept g).
  set (w1 := update_guild guild_id (with_member_roles user_id kept) w).
  assert (guilds w1 !! guild_id = Some (Return g1)) as Hg1
    by exact (update_guild_lookup guild_id (with_member_roles user_id kept) w g Hg).
  assert (guild_members g1 !! user_id = Some (Return kept)) as Hm1
    by (unfold g1, with_member_roles; simpl; apply lookup_insert_eq).
  rewrite (bind_reading _ _ _ (guild_roles g))
    by apply (roles_of_guild_lookup _ _ _ Hg1).
  unfold synced_guild. fold kept.
  destruct (utils_get (guild_roles g) (level_role_name new_level)) as [new_role |]
    eqn:Hget.
  - rewrite (bind_reading _ _ _ kept)
      by (rewrite (member_roles_lookup _ _ _ _ Hg1); by rewrite Hm1).
    unfold granted. destruct (role_in new_role kept) eqn:Hin.
    + unfold ret. f_equal. by apply (update_guild_ext _ _ _ _ _ Hg).
    + rewrite (add_roles_permitted _ _ _ _ _ _ Hg1 Hm1 Hp), Hin. f_equal.
      unfold w1. rewrite (update_guild_compose _ _ _ _ _ Hg).
      apply (update_guild_ext _ _ _ _ _ Hg). unfold compose.
      by rewrite with_member_roles_twice.
  - set (ladder := ensure_level_roles _ (guild_roles g)).
    rewrite (bind_return _ _ w1 tt (update_guild guild_id (with_guild_roles ladder) w1))
      by (unfold lift; by rewrite (create_level_roles_permitted _ _ _ Hg1 Hp)).
    set (g2 := with_guild_roles ladder g1).
    set (w2 := update_guild guild_id (with_guild_roles ladder) w1).
    assert (guilds w2 !! guild_id = Some (Return g2)) as Hg2
      by exact (update_guild_lookup guild_id (with_guild_roles ladder) w1 g1 Hg1).
    rewrite (bind_reading _ _ _ ladder) by apply (roles_of_guild_lookup _ _ _ Hg2).
    assert (w2 = update_guild guild_id (λ _, g2) w) as Hw2.
    { unfold w2, w1. rewrite (update_guild_compose _ _ _ _ _ Hg).
      by apply (update_guild_ext _ _ _ _ _ Hg). }
    destruct (utils_get ladder (level_role_name new_level)) as [new_role |].
    + rewrite (add_roles_permitted _ _ _ _ g2 kept Hg2 Hm1 Hp). f_equal.
      rewrite Hw2, (update_guild_compose _ _ _ _ _ Hg).
      apply (update_guild_ext _ _ _ _ _ Hg). unfold compose, g2, g1, granted.
      unfold with_member_roles, with_guild_roles, set_guild_members, set_guild_roles.
      simpl. f_equal. by rewrite insert_insert_eq.
    + unfold ret. f_equal. rewrite Hw2.
      apply (update_guild_ext _ _ _ _ _ Hg). unfold g2, g1.
      unfold with_member_roles, with_guild_roles, set_guild_members, set_guild_roles.
      reflexivity.
Qed.

Lemma markers_distinct_eq g r1 r2 :
  markers_distinct g → r1 ∈ guild_roles g → r2 ∈ guild_roles g →
  is_level_role r1 = true → role_name r1 = role_name r2 → r1 = r2.
Proof.
  unfold markers_distinct. rewrite Forall_forall. intros H H1 H2.
  specialize (H r1 H1). rewrite Forall_forall in H. exact (H r2 H2).
Qed.

Lemma filter_eq_NoDup (x : Role) (l : list Role) :
  NoDup l → filter (λ r, r = x) l = if decide (x ∈ l) then [x] else [].
Proof.
  induction 1 as [| y l Hy Hl IH]; [reflexivity |].
  rewrite filter_cons, IH. destruct (decide (y = x)) as [-> | Hne].
  - rewrite decide_False by exact Hy. rewrite decide_True by (by left). reflexivity.
  - destruct (decide (x ∈ l)) as [Hin | Hin].
    + rewrite decide_True by (by right). reflexivity.
    + rewrite decide_False; [reflexivity |].
      intros [-> | H]%elem_of_cons; [done | by apply Hin].
Qed.

Lemma stale_marker_target new_level r :
  role_name r = level_role_name new_level → stale_marker new_level r = false.
Proof.
  intros Hname. unfold stale_marker. rewrite (level_role_name_is_level _ _ Hname).
  simpl. apply bool_decide_eq_false_2. intros Hne. by apply Hne.
Qed.

Lemma non_level_kept new_level roles :
  Spec.non_level (filter (λ r, stale_marker new_level r = false) roles)
  = Spec.non_level roles.
Proof.
  unfold Spec.non_level. rewrite list_filter_filter. apply list_filter_iff.
  intros r. unfold stale_marker. split; [by intros [? _] |]. intros ->. by split.
Qed.

Lemma level_markers_kept new_level roles :
  level_markers (filter (λ r, stale_marker new_level r = false) roles)
  = filter (λ r, role_name r = level_role_name new_level) roles.
Proof.
  unfold level_markers. rewrite list_filter_filter. apply list_filter_iff.
  intros r. unfold stale_marker. split.
  - intros [Hl Hs]. rewrite Hl in Hs. simpl in Hs.
    apply bool_decide_eq_false in Hs. by apply dec_stable.
  - intros Hname. split; [by apply (level_role_name_is_level new_level) |].
    by apply stale_marker_target.
Qed.

(** Once the stale markers are removed and the target marker is
    granted, the member holds that marker and no other, and the other
    roles are as before. *)
Lemma granted_marker new_level marker roles :
  role_name marker = level_role_name new_level →
  NoDup roles →
  (∀ r, r ∈ roles → role_name r = level_role_name new_level → r = marker) →
  let kept := filter (λ r, stale_marker new_level r = false) roles in
  level_markers (granted marker kept) = [marker] ∧
  Spec.non_level (granted marker kept) = Spec.non_level roles.
Proof.
  intros Hname Hnodup Hcanon kept.
  assert (is_level_role marker = true) as Hlevel
    by apply (level_role_name_is_level _ _ Hname).
  assert (level_markers kept = if decide (marker ∈ roles) then [marker] else []) as Hk.
  { unfold kept. rewrite level_markers_kept, <- (filter_eq_NoDup _ _ Hnodup).
    apply filter_ext_in. intros r Hin. split; [by apply Hcanon | by intros ->]. }
  assert (marker ∈ kept ↔ marker ∈ roles) as Hin.
  { unfold kept. rewrite list_elem_of_filter. split; [by intros [_ ?] |].
    intros H. split; [by apply stale_marker_target | exact H]. }
  unfold granted, role_in. case_bool_decide as Hheld.
  - split; [| apply non_level_kept].
    rewrite Hk, decide_True by (by apply Hin). reflexivity.
  - split.
    + unfold level_markers. rewrite filter_app. fold (level_markers kept).
      rewrite Hk, decide_False by (intros H; by apply Hheld, Hin).
      by rewrite filter_cons_True.
    + unfold Spec.non_level. rewrite filter_app. fold (Spec.non_level kept).
      rewrite filter_cons_False by (rewrite Hlevel; discriminate).
      rewrite filter_nil, app_nil_r. apply non_level_kept.
Qed.

Lemma level_in_ladder (level : Z) :
  1 ≤ level ≤ 10 → level ∈ [1; 2; 3; 4; 5; 6; 7; 8; 9; 10].
Proof.
  intros H.
  assert (level = 1 ∨ level = 2 ∨ level = 3 ∨ level = 4 ∨ level = 5 ∨
          level = 6 ∨ level = 7 ∨ level = 8 ∨ level = 9 ∨ level = 10) as Hc by lia.
  rewrite !elem_of_cons. tauto.
Qed.

Lemma calculate_level_range (xp : Z) : 1 ≤ calculate_level xp ≤ 10.
Proof.
  pose proof (calculate_level_cases xp) as Hc.
  repeat destruct Hc as [Hc | Hc]; destruct Hc as [_ ->]; lia.
Qed.

(** The member of a synchronized guild. *)
Lemma synced_guild_member user_id new_level g roles :
  markers_distinct g → roles ⊆ guild_roles g → NoDup roles →
  1 ≤ new_level ≤ 10 →
  ∃ marker held',
    guild_members (synced_guild user_id new_level g roles) !! user_id
      = Some (Return held') ∧
    role_name marker = level_role_name new_level ∧
    level_markers held' = [marker] ∧
    Spec.non_level held' = Spec.non_level roles.
Proof.
  intros Hdistinct Hsub Hnodup Hrange. unfold synced_guild.
  destruct (utils_get (guild_roles g) (level_role_name new_level)) as [marker |] eqn:Hget.
  - destruct (utils_get_Some _ _ _ Hget) as [Hin Hname].
    destruct (granted_marker new_level marker roles Hname Hnodup) as [Hm Hn].
    { intros r Hr Hrname.
      apply (markers_distinct_eq g r marker Hdistinct); [by apply Hsub | exact Hin | |].
      - by apply (level_role_name_is_level new_level).
      - by rewrite Hname. }
    eexists marker, _.
    split; [unfold with_member_roles; simpl; apply lookup_insert_eq |].
    split; [exact Hname |]. split; [exact Hm | exact Hn].
  - destruct (ensure_level_roles_get [1; 2; 3; 4; 5; 6; 7; 8; 9; 10] (guild_roles g)
                new_level (level_in_ladder _ Hrange)) as [marker Hladder].
    rewrite Hladder.
    destruct (utils_get_Some _ _ _ Hladder) as [_ Hname].
    destruct (granted_marker new_level marker roles Hname Hnodup) as [Hm Hn].
    { intros r Hr Hrname. destruct (utils_get_None _ _ r Hget); [by apply Hsub | done]. }
    eexists marker, _.
    split; [unfold with_member_roles; simpl; apply lookup_insert_eq |].
    split; [exact Hname |]. split; [exact Hm | exact Hn].
Qed.

(** ** The total does not depend on the level markers held *)

Lemma role_xp_non_level (step : Z → Role → Z) (roles : list Role) (acc : Z) :
  (∀ a r, is_level_role r = true → step a r = a) →
  fold_left step roles acc = fold_left step (Spec.non_level roles) acc.
Proof.
  intros Hstep. unfold Spec.non_level. revert acc.
  induction roles as [| r roles IH]; intros acc; [reflexivity |].
  rewrite filter_cons. destruct (is_level_role r) eqn:Hl.
  - rewrite decide_False by discriminate. cbn [fold_left].
    rewrite (Hstep _ _ Hl). apply IH.
  - rewrite decide_True by reflexivity. cbn [fold_left]. apply IH.
Qed.

Lemma total_xp_non_level user_id guild_id w roles :
  member_roles guild_id user_id w = Return roles →
  (calculate_total_user_xp user_id guild_id w).1
  = stored_xp w user_id guild_id
    + role_and_streak_xp (quest_bot w) user_id guild_id (Spec.non_level roles).
Proof.
  intros Hr. rewrite (calculate_total_user_xp_readable _ _ _ _ Hr). cbn [fst].
  destruct (get_user_data_frame user_id guild_id w) as (_ & _ & _ & Ha & _ & _ & _ & Hs).
  rewrite (role_and_streak_xp_same _ _ _ _ _ Ha Hs).
  unfold role_and_streak_xp, custom_role_xp, auto_role_xp.
  f_equal. destruct (get_accumulated_streak_xp _ _ _); [| reflexivity].
  f_equal; f_equal; apply role_xp_non_level; intros acc r ->; reflexivity.
Qed.

(** Two worlds that agree on the base XP of the user, on the role
    assignments and on the streak log, and in which the member holds the
    same roles up to level markers, give the same total. *)
Lemma total_xp_same_sources user_id guild_id w w' roles roles' :
  member_roles guild_id user_id w = Return roles →
  member_roles guild_id user_id w' = Return roles' →
  Spec.non_level roles' = Spec.non_level roles →
  stored_xp w' user_id guild_id = stored_xp w user_id guild_id →
  role_xp_assignments (quest_bot w') = role_xp_assignments (quest_bot w) →
  (streak_role_gains <$> db_connection (quest_bot w'))
    = (streak_role_gains <$> db_connection (quest_bot w)) →
  (calculate_total_user_xp user_id guild_id w').1
  = (calculate_total_user_xp user_id guild_id w).1.
Proof.
  intros Hr Hr' Hn Hx Ha Hs.
  rewrite (total_xp_non_level _ _ _ _ Hr), (total_xp_non_level _ _ _ _ Hr'), Hn, Hx.
  by rewrite (role_and_streak_xp_same _ _ _ _ _ Ha Hs).
Qed.

(** ** Level changes *)

Lemma run_single_task t w :
  pending w = [] →
  run_tasks (create_task t w)
  = (update_user_level_role (task_user t) (task_guild t)
       (task_old_level t) (task_new_level t) w).2.
Proof.
  intros Hidle. unfold run_tasks, create_task. simpl. rewrite Hidle. simpl.
  do 2 f_equal. destruct w; simpl in *. by subst.
Qed.

(** The choke point: the level is stored and the synchronizer runs. *)
Lemma reconcile_after_level_change user_id guild_id old_level w2 g roles :
  pending w2 = [] →
  guilds w2 !! guild_id = Some (Return g) →
  guild_members g !! user_id = Some (Return roles) →
  manage_roles g = true →
  markers_distinct g → roles ⊆ guild_roles g → NoDup roles →
  is_Some (ledger_row w2 user_id guild_id) →
  let new_level := calculate_level (calculate_total_user_xp user_id guild_id w2).1 in
  let w' := run_tasks
              (create_task {| task_user := user_id; task_guild := guild_id;
                              task_old_level := old_level; task_new_level := new_level |}
                 (store_level user_id guild_id new_level w2)) in
  calculate_level (calculate_total_user_xp user_id guild_id w').1 = new_level ∧
  ∃ marker held',
    member_roles guild_id user_id w' = Return held' ∧
    level_markers held' = [marker] ∧
    role_name marker = level_role_name new_level ∧
    (row_level <$> ledger_row w' user_id guild_id) = Some new_level.
Proof.
  intros Hidle Hg Hm Hp Hdistinct Hsub Hnodup [row Hrow] new_level w'.
  set (w3 := store_level user_id guild_id new_level w2).
  assert (w' = update_guild guild_id (λ _, synced_guild user_id new_level g roles) w3)
    as Hw'.
  { unfold w'. rewrite run_single_task by exact Hidle. simpl.
    by rewrite (update_user_level_role_permitted _ _ _ _ w3 g roles Hg Hm Hp). }
  destruct (synced_guild_member user_id new_level g roles Hdistinct Hsub Hnodup
              (calculate_level_range _)) as (marker & held' & Hheld & Hname & Hmark & Hnon).
  assert (member_roles guild_id user_id w' = Return held') as Hroles'.
  { rewrite Hw'.
    rewrite (member_roles_lookup _ _ _ _
               (update_guild_lookup guild_id (λ _, synced_guild user_id new_level g roles)
                  w3 g Hg)).
    by rewrite Hheld. }
  assert (ledger_row w' user_id guild_id
          = Some {| row_xp := row_xp row; row_level := new_level |}) as Hrow'.
  { rewrite Hw'.
    change (ledger_row (update_guild ?a ?f ?x) ?u ?v) with (ledger_row x u v).
    unfold w3. rewrite ledger_row_store_level, decide_True by reflexivity.
    by rewrite Hrow. }
  split.
  - unfold new_level. f_equal.
    apply (total_xp_same_sources user_id guild_id w2 w' roles held').
    + rewrite (member_roles_lookup _ _ _ _ Hg). by rewrite Hm.
    + exact Hroles'.
    + exact Hnon.
    + unfold stored_xp. rewrite Hrow', Hrow. reflexivity.
    + rewrite Hw'. apply (store_level_frame user_id guild_id new_level w2).
    + rewrite Hw'. apply (store_level_frame user_id guild_id new_level w2).
  - exists marker, held'. repeat split; try assumption. by rewrite Hrow'.
Qed.

Lemma check_and_update_level_roles_steps user_id guild_id w db :
  db_connection (quest_bot w) = Some db →
  let old_level := row_level (default new_user_row (ledger_row w user_id guild_id)) in
  let w1 := (get_user_data user_id guild_id w).2 in
  let new_level := calculate_level (calculate_total_user_xp user_id guild_id w1).1 in
  is_Some (ledger_row w1 user_id guild_id) ∧
  (check_and_update_level_roles user_id guild_id w).2
  = if bool_decide (old_level ≠ new_level)
    then create_task {| task_user := user_id; task_guild := guild_id;
                        task_old_level := old_level; task_new_level := new_level |}
           (store_level user_id guild_id new_level w1)
    else w1.
Proof.
  intros Hdb old_level w1 new_level.
  assert (ledger_row w1 user_id guild_id = Some (get_user_data user_id guild_id w).1)
    as Hrow by apply (get_user_data_ledger _ _ _ _ Hdb).
  assert ((calculate_total_user_xp user_id guild_id w1).2 = w1) as Hsame.
  { rewrite calculate_total_user_xp_world.
    by rewrite (get_user_data_present _ _ _ _ Hrow). }
  split; [by eexists |].
  unfold check_and_update_level_roles.
  rewrite (surjective_pairing (get_user_data user_id guild_id w)).
  rewrite get_user_data_row. fold w1. fold old_level.
  rewrite (surjective_pairing (calculate_total_user_xp user_id guild_id w1)).
  rewrite Hsame. fold new_level.
  case_bool_decide; [| reflexivity].
  destruct (get_user_data_frame user_id guild_id w) as (_ & _ & _ & _ & _ & Hq & _).
  fold w1 in Hq. rewrite Hdb in Hq.
  destruct (db_connection (quest_bot w1)); [reflexivity | discriminate].
Qed.

(** C2, as the code has it. In a guild where the member is in the cache,
    the bot may manage roles, no two roles share a marker name and the
    member holds roles of the guild: the synchronizer, run for a target
    level of the table, leaves the member with exactly one level marker,
    the one named for the target, and with the other roles untouched.
    After [update_user_xp] (quest completion, manual adjustment) or
    [check_and_update_level_roles] (role gain) has completed: if the
    level computed from the total differs from the level cached in the
    ledger, the member holds exactly one level marker, the one of the
    level of the total, and the ledger caches that level; if it does
    not differ, the roles of the member are left as they were. *)
Theorem level_change_reconciles_marker (user_id guild_id : Z) (w : World) (db : DB)
    (g : Guild) (roles : list Role) :
  db_connection (quest_bot w) = Some db →
  pending w = [] →
  guilds w !! guild_id = Some (Return g) →
  guild_members g !! user_id = Some (Return roles) →
  manage_roles g = true →
  markers_distinct g → roles ⊆ guild_roles g → NoDup roles →
  (∀ old_level new_level,
     1 ≤ new_level ≤ 10 →
     ∃ marker held',
       member_roles guild_id user_id
         (update_user_level_role user_id guild_id old_level new_level w).2
         = Return held' ∧
       role_name marker = level_role_name new_level ∧
       level_markers held' = [marker] ∧
       Spec.non_level held' = Spec.non_level roles) ∧
  ∀ after_operation,
    (∃ xp_change figures,
       update_user_xp user_id guild_id xp_change w = (Return figures, after_operation)) ∨
    after_operation = (check_and_update_level_roles user_id guild_id w).2 →
    let cached := row_level (default new_user_row (ledger_row w user_id guild_id)) in
    let w' := run_tasks after_operation in
    let level := calculate_level (calculate_total_user_xp user_id guild_id w').1 in
    (cached ≠ level →
     ∃ marker held',
       member_roles guild_id user_id w' = Return held' ∧
       level_markers held' = [marker] ∧
       role_name marker = level_role_name level ∧
       (row_level <$> ledger_row w' user_id guild_id) = Some level) ∧
    (cached = level → member_roles guild_id user_id w' = Return roles).
Proof.
  intros Hdb Hidle Hg Hm Hp Hdistinct Hsub Hnodup. split.
  { intros old_level new_level Hrange.
    rewrite (update_user_level_role_permitted _ _ _ _ w g roles Hg Hm Hp). simpl.
    destruct (synced_guild_member user_id new_level g roles Hdistinct Hsub Hnodup Hrange)
      as (marker & held' & Hheld & Hname & Hmark & Hnon).
    exists marker, held'. repeat split; try assumption.
    rewrite (member_roles_lookup _ _ _ _
               (update_guild_lookup guild_id (λ _, synced_guild user_id new_level g roles)
                  w g Hg)).
    by rewrite Hheld. }
  assert (∀ w2 after_operation,
            same_but_users w w2 → is_Some (ledger_row w2 user_id guild_id) →
            let old_level := row_level (default new_user_row
                                          (ledger_row w user_id guild_id)) in
            let new_level := calculate_level
                               (calculate_total_user_xp user_id guild_id w2).1 in
            after_operation
            = (if bool_decide (old_level ≠ new_level)
               then create_task {| task_user := user_id; task_guild := guild_id;
                                   task_old_level := old_level;
                                   task_new_level := new_level |}
                      (store_level user_id guild_id new_level w2)
               else w2) →
            let w' := run_tasks after_operation in
            let level := calculate_level (calculate_total_user_xp user_id guild_id w').1 in
            (old_level ≠ level →
             ∃ marker held',
               member_roles guild_id user_id w' = Return held' ∧
               level_markers held' = [marker] ∧
               role_name marker = level_role_name level ∧
               (row_level <$> ledger_row w' user_id guild_id) = Some level) ∧
            (old_level = level → member_roles guild_id user_id w' = Return roles))
    as Hchoke.
  { intros w2 after_operation Hframe Hrow old_level new_level -> w' level.
    destruct Hframe as (Hguilds & _ & Hpending & _).
    assert (pending w2 = []) as Hidle2 by congruence.
    assert (guilds w2 !! guild_id = Some (Return g)) as Hg2 by congruence.
    unfold level, w'. case_bool_decide as Hchange.
    - destruct (reconcile_after_level_change user_id guild_id old_level w2 g roles
                  Hidle2 Hg2 Hm Hp Hdistinct Hsub Hnodup Hrow)
        as (Hlevel & marker & held' & Hheld & Hmark & Hname & Hcached).
      fold new_level in Hlevel, Hname, Hcached. rewrite Hlevel.
      split; [| by intros ?]. intros _. by exists marker, held'.
    - rewrite (run_tasks_idle _ Hidle2). fold new_level.
      split; [by intros ? |]. intros _.
      rewrite (member_roles_lookup _ _ _ _ Hg2). by rewrite Hm. }
  intros after_operation [(xp_change & figures & Hreturned) | ->].
  - apply update_user_xp_returned in Hreturned.
    assert (after_operation = (updated_user_xp user_id guild_id xp_change w).2) as ->
      by (by rewrite Hreturned).
    destruct (updated_user_xp_steps user_id guild_id xp_change w db Hdb)
      as (Hrow & _ & Hsteps).
    apply (Hchoke (after_xp_stored user_id guild_id xp_change w)).
    + apply after_xp_stored_frame.
    + rewrite Hrow. by eexists.
    + rewrite Hsteps. by case_bool_decide.
  - destruct (check_and_update_level_roles_steps user_id guild_id w db Hdb)
      as (Hrow & Hsteps).
    apply (Hchoke (get_user_data user_id guild_id w).2).
    + apply get_user_data_frame.
    + exact Hrow.
    + exact Hsteps.
Qed.

(** * Further properties *)

(** ** Levels grow with the total *)

(** X1.  [calculate_level] is monotone, and a total is at level [k] or
    above exactly when it reaches the threshold of [k] (every total is
    at level 1 or above). *)
Theorem calculate_level_monotone (xp : Z) :
  (∀ xp', xp ≤ xp' → calculate_level xp ≤ calculate_level xp') ∧
  (∀ k, 1 ≤ k ≤ 10 → (k ≤ calculate_level xp ↔ k = 1 ∨ threshold k ≤ xp)).
Proof.
  split.
  - intros xp' Hle.
    destruct (calculate_level_cases xp) as [H|[H|[H|[H|[H|[H|[H|[H|[H|H]]]]]]]]];
      destruct (calculate_level_cases xp') as [H'|[H'|[H'|[H'|[H'|[H'|[H'|[H'|[H'|H']]]]]]]]];
      lia.
  - intros k Hk.
    assert (Hcases : k = 1 ∨ k = 2 ∨ k = 3 ∨ k = 4 ∨ k = 5 ∨ k = 6 ∨ k = 7 ∨ k = 8
                     ∨ k = 9 ∨ k = 10) by lia.
    destruct (calculate_level_cases xp) as [H|[H|[H|[H|[H|[H|[H|[H|[H|H]]]]]]]]];
      destruct H as [Hxp ->];
      repeat destruct Hcases as [-> | Hcases]; try subst k;
      let v := eval vm_compute in (threshold 1) in change (threshold 1) with v;
      let v := eval vm_compute in (threshold 2) in change (threshold 2) with v;
      let v := eval vm_compute in (threshold 3) in change (threshold 3) with v;
      let v := eval vm_compute in (threshold 4) in change (threshold 4) with v;
      let v := eval vm_compute in (threshold 5) in change (threshold 5) with v;
      let v := eval vm_compute in (threshold 6) in change (threshold 6) with v;
      let v := eval vm_compute in (threshold 7) in change (threshold 7) with v;
      let v := eval vm_compute in (threshold 8) in change (threshold 8) with v;
      let v := eval vm_compute in (threshold 9) in change (threshold 9) with v;
      let v := eval vm_compute in (threshold 10) in change (threshold 10) with v;
      lia.
Qed.

(** ** The ladder of level roles *)

#[local] Transparent ensure_level_roles.

Lemma utils_get_app_inv roles extra name :
  utils_get (roles ++ extra) name = None → utils_get roles name = None.
Proof.
  destruct (utils_get roles name) eqn:H; [|done].
  by rewrite (utils_get_app_Some _ extra _ _ H).
Qed.

Lemma fresh_role_id_fresh (roles : list Role) :
  fresh_role_id roles ∉ (role_id <$> roles).
Proof.
  assert (Hmax : ∀ r, r ∈ roles →
            role_id r ≤ foldr (λ r acc, Z.max (role_id r) acc) 0 roles).
  { induction roles as [|x roles IH]; intros r Hr; [by apply elem_of_nil in Hr|].
    simpl. apply elem_of_cons in Hr as [-> | Hr]; [lia|]. specialize (IH r Hr). lia. }
  intros Hin. apply list_elem_of_fmap in Hin as (r & Heq & Hr).
  specialize (Hmax r Hr). unfold fresh_role_id in Heq. lia.
Qed.

Lemma ensure_level_roles_adds (levels : list Z) :
  ∀ roles, ∃ added,
    ensure_level_roles levels roles = roles ++ added ∧
    ∀ r, r ∈ added →
      (∃ level, level ∈ levels ∧ role_name r = level_role_name level) ∧
      utils_get roles (role_name r) = None ∧
      role_id r ∉ (role_id <$> roles).
Proof.
  induction levels as [|level levels IH]; intros roles.
  - exists []. split; [by rewrite app_nil_r|]. intros r Hr. by apply elem_of_nil in Hr.
  - change (ensure_level_roles (level :: levels) roles)
      with (ensure_level_roles levels (ensure_level_role roles level)).
    destruct (IH (ensure_level_role roles level)) as (added & Heq & Hadded).
    unfold ensure_level_role in *.
    destruct (utils_get roles (level_role_name level)) as [found|] eqn:Hget.
    + exists added. split; [done|]. intros r Hr.
      destruct (Hadded r Hr) as ((l & Hl & Hname) & Hnone & Hid).
      split; [|done]. exists l. split; [|done]. by apply elem_of_cons; right.
    + set (new := {| role_id := fresh_role_id roles;
                     role_name := level_role_name level |}) in *.
      exists (new :: added). split; [by rewrite Heq, <- app_assoc|].
      intros r Hr. apply elem_of_cons in Hr as [-> | Hr].
      * split; [|split].
        -- exists level. split; [apply list_elem_of_here|done].
        -- done.
        -- apply fresh_role_id_fresh.
      * destruct (Hadded r Hr) as ((l & Hl & Hname) & Hnone & Hid).
        split; [|split].
        -- exists l. split; [|done]. by apply elem_of_cons; right.
        -- by apply utils_get_app_inv in Hnone.
        -- intros Hin. apply Hid. rewrite fmap_app. apply elem_of_app. by left.
Qed.

Lemma ensure_level_roles_complete (levels : list Z) (roles : list Role) :
  (∀ level, level ∈ levels → is_Some (utils_get roles (level_role_name level))) →
  ensure_level_roles levels roles = roles.
Proof.
  induction levels as [|level levels IH]; intros Hall; [done|].
  change (ensure_level_roles (level :: levels) roles)
    with (ensure_level_roles levels (ensure_level_role roles level)).
  assert (Hsame : ensure_level_role roles level = roles).
  { unfold ensure_level_role.
    destruct (Hall level) as [r Hr]; [apply list_elem_of_here|]. by rewrite Hr. }
  rewrite Hsame. apply IH. intros l Hl. apply Hall. by apply elem_of_cons; right.
Qed.

#[local] Opaque ensure_level_roles.

Lemma in_ladder_range (level : Z) :
  level ∈ [1; 2; 3; 4; 5; 6; 7; 8; 9; 10] → 1 ≤ level ≤ 10.
Proof. rewrite !elem_of_cons, elem_of_nil. lia. Qed.

Lemma member_roles_with_guild_roles guild_id user_id roles w g :
  guilds w !! guild_id = Some (Return g) →
  member_roles guild_id user_id (update_guild guild_id (with_guild_roles roles) w)
  = member_roles guild_id user_id w.
Proof.
  intros Hg.
  rewrite (member_roles_lookup _ _ _ _ (update_guild_lookup _ _ _ _ Hg)).
  by rewrite (member_roles_lookup _ _ _ _ Hg).
Qed.

(** X2.  Where the bot may manage roles, [create_level_roles] appends
    roles to [guild.roles] and removes none; every role it appends is
    named for a level 1..10 that had no role, and has an id no role of
    the guild had; afterwards each of the ten level names resolves; no
    member's roles change; a second run changes nothing. *)
Theorem create_level_roles_completes_the_ladder (guild_id : Z) (w : World) (g : Guild) :
  guilds w !! guild_id = Some (Return g) →
  manage_roles g = true →
  let w' := (create_level_roles guild_id w).2 in
  ∃ added,
    roles_of_guild guild_id w' = Return (guild_roles g ++ added) ∧
    (∀ level, 1 ≤ level ≤ 10 →
       is_Some (utils_get (guild_roles g ++ added) (level_role_name level))) ∧
    (∀ r, r ∈ added →
       (∃ level, 1 ≤ level ≤ 10 ∧ role_name r = level_role_name level) ∧
       utils_get (guild_roles g) (role_name r) = None ∧
       role_id r ∉ (role_id <$> guild_roles g)) ∧
    (∀ user_id, member_roles guild_id user_id w' = member_roles guild_id user_id w) ∧
    same_bot_state w w' ∧
    (create_level_roles guild_id w').2 = w'.
Proof.
  intros Hg Hperm w'. subst w'.
  rewrite (create_level_roles_permitted _ _ _ Hg Hperm). cbn [snd].
  set (levels := [1; 2; 3; 4; 5; 6; 7; 8; 9; 10]).
  destruct (ensure_level_roles_adds levels (guild_roles g)) as (added & Heq & Hadded).
  set (w' := update_guild guild_id
               (with_guild_roles (ensure_level_roles levels (guild_roles g))) w).
  assert (Hg' : guilds w' !! guild_id
                = Some (Return (with_guild_roles
                                  (ensure_level_roles levels (guild_roles g)) g)))
    by exact (update_guild_lookup _ _ _ _ Hg).
  exists added. split; [|split; [|split; [|split; [|split]]]].
  - rewrite (roles_of_guild_lookup _ _ _ Hg'). simpl. by rewrite Heq.
  - intros level Hlevel. rewrite <- Heq.
    destruct (ensure_level_roles_get levels (guild_roles g) level) as [r Hr];
      [by apply level_in_ladder|]. by exists r.
  - intros r Hr. destruct (Hadded r Hr) as ((level & Hlevel & Hname) & Hnone & Hid).
    split; [|done]. exists level. split; [by apply in_ladder_range|done].
  - intros user_id. exact (member_roles_with_guild_roles _ _ _ _ _ Hg).
  - apply update_guild_same.
  - rewrite (create_level_roles_permitted _ _ _ Hg' Hperm). cbn [snd].
    unfold w'. rewrite (update_guild_compose _ _ _ _ _ Hg).
    apply (update_guild_ext _ _ _ _ _ Hg). unfold with_guild_roles, set_guild_roles.
    cbn. f_equal. apply ensure_level_roles_complete.
    intros level Hlevel.
    destruct (ensure_level_roles_get levels (guild_roles g) level) as [r Hr]; [done|].
    by exists r.
Qed.

(** ** What the role synchronizer leaves alone *)

Lemma member_roles_update_member_roles guild_id user_id f w g u :
  member_roles g u (update_member_roles guild_id user_id f w)
  = if decide ((g, u) = (guild_id, user_id))
    then match member_roles guild_id user_id w with
         | Return roles => Return (f roles)
         | Raise => Raise
         end
    else member_roles g u w.
Proof.
  unfold member_roles, get_guild, get_member, update_member_roles, update_guild. simpl.
  destruct (guilds w !! guild_id) as [[gd |] |] eqn:Hg.
  - destruct (decide (g = guild_id)) as [-> | Hne].
    + rewrite lookup_insert_eq. simpl.
      destruct (guild_members gd !! user_id) as [[roles |] |] eqn:Hm.
      * destruct (decide (u = user_id)) as [-> | Hne].
        -- rewrite lookup_insert_eq. by rewrite decide_True.
        -- rewrite lookup_insert_ne by done. rewrite decide_False by congruence.
           by rewrite Hg.
      * case_decide as Heq; [| by rewrite Hg].
        injection Heq as ->. by rewrite Hm.
      * case_decide as Heq; [| by rewrite Hg].
        injection Heq as ->. by rewrite Hm.
    + rewrite lookup_insert_ne by done. by rewrite decide_False by congruence.
  - case_decide as Heq; [| done]. injection Heq as -> ->. by rewrite Hg.
  - case_decide as Heq; [| done]. injection Heq as -> ->. by rewrite Hg.
Qed.

Lemma member_roles_update_guild_roles guild_id f w g u :
  member_roles g u (update_guild guild_id (set_guild_roles f) w) = member_roles g u w.
Proof.
  unfold member_roles, get_guild, update_guild. simpl.
  destruct (guilds w !! guild_id) as [[gd |] |] eqn:Hg; [| done | done].
  destruct (decide (g = guild_id)) as [-> | Hne].
  - rewrite lookup_insert_eq, Hg. done.
  - by rewrite lookup_insert_ne.
Qed.

#[local] Instance same_holdings_preorder : PreOrder same_holdings.
Proof.
  split.
  - intros w. split; [reflexivity | done].
  - intros w1 w2 w3 [Hs12 Hh12] [Hs23 Hh23]. split; [by etransitivity |].
    intros g u. by rewrite Hh23.
Qed.

#[local] Instance unchanged_unless_permitted_preorder guild_id :
  PreOrder (unchanged_unless_permitted guild_id).
Proof.
  split.
  - by intros w _.
  - intros w1 w2 w3 H12 H23 Hnp. rewrite <- (H12 Hnp). apply H23.
    by rewrite (H12 Hnp).
Qed.

#[local] Instance same_other_members_preorder guild_id user_id :
  PreOrder (same_other_members guild_id user_id).
Proof.
  split.
  - by intros w g u _.
  - intros w1 w2 w3 H12 H23 g u Hne. by rewrite (H23 g u Hne), (H12 g u Hne).
Qed.

Section Synchronizer.
Context (R : relation World) `{!PreOrder R} (guild_id user_id : Z).
Context (remove_ok : ∀ role, is_level_role role = true →
                       keeps R (remove_roles guild_id user_id role)).
Context (add_ok : ∀ role, is_level_role role = true →
                    keeps R (add_roles guild_id user_id role)).
Context (create_ok : ∀ name, keeps R (create_role guild_id name)).

Lemma create_level_roles_keeps_relation : keeps_fn R (create_level_roles guild_id).
Proof.
  apply keeps_try_except; [apply _ | | apply keeps_fn_id; apply _].
  apply keeps_for_each; [apply _ |]. intros level.
  apply keeps_bind; [apply _ | apply keeps_reading; apply _ |].
  intros roles. destruct (utils_get roles _).
  - apply keeps_ret; apply _.
  - apply create_ok.
Qed.

Lemma update_user_level_role_keeps_relation old_level new_level :
  keeps_fn R (update_user_level_role user_id guild_id old_level new_level).
Proof.
  apply keeps_try_except; [apply _ | | apply keeps_fn_id; apply _].
  apply keeps_bind; [apply _ | apply keeps_reading; apply _ |].
  intros [g |]; [| apply keeps_ret; apply _].
  apply keeps_bind; [apply _ | apply keeps_reading; apply _ |].
  intros [roles |]; [| apply keeps_ret; apply _].
  apply keeps_bind; [apply _ | |].
  { apply keeps_for_each; [apply _ |]. intros role.
    destruct (is_level_role role) eqn:Hlevel; simpl; [| apply keeps_ret; apply _].
    destruct (bool_decide _); [by apply remove_ok | apply keeps_ret; apply _]. }
  intros _. apply keeps_bind; [apply _ | apply keeps_reading; apply _ |].
  intros groles. destruct (utils_get groles _) as [new_role |] eqn:Hget.
  - apply keeps_bind; [apply _ | apply keeps_reading; apply _ |].
    intros now. destruct (role_in new_role now); [apply keeps_ret; apply _ |].
    apply add_ok. apply utils_get_Some in Hget as [_ Hname].
    by apply (level_role_name_is_level new_level).
  - apply keeps_bind; [apply _ | apply keeps_lift, create_level_roles_keeps_relation |].
    intros _. apply keeps_bind; [apply _ | apply keeps_reading; apply _ |].
    intros groles'. destruct (utils_get groles' _) as [new_role |] eqn:Hget';
      [| apply keeps_ret; apply _].
    apply add_ok. apply utils_get_Some in Hget' as [_ Hname].
    by apply (level_role_name_is_level new_level).
Qed.

End Synchronizer.

Lemma non_level_without_marker (role : Role) (roles : list Role) :
  is_level_role role = true →
  Spec.non_level (filter (λ r, r ≠ role) roles) = Spec.non_level roles.
Proof.
  intros Hlevel. unfold Spec.non_level. rewrite list_filter_filter.
  apply filter_ext_in. intros r _. split; [by intros [? _] |].
  intros Hr. split; [done |]. intros ->. congruence.
Qed.

Lemma non_level_with_marker (role : Role) (roles : list Role) :
  is_level_role role = true →
  Spec.non_level (if role_in role roles then roles else roles ++ [role])
  = Spec.non_level roles.
Proof.
  intros Hlevel. destruct (role_in role roles); [done |].
  unfold Spec.non_level. rewrite filter_app, filter_cons, decide_False by congruence.
  by rewrite filter_nil, app_nil_r.
Qed.

Lemma update_member_roles_holdings guild_id user_id f w :
  (∀ roles, Spec.non_level (f roles) = Spec.non_level roles) →
  same_holdings w (update_member_roles guild_id user_id f w).
Proof.
  intros Hf. split; [apply update_guild_same |].
  intros g u. unfold holdings. rewrite member_roles_update_member_roles.
  case_decide as Heq; [| done]. injection Heq as -> ->.
  destruct (member_roles guild_id user_id w); [by rewrite Hf | done].
Qed.

Lemma update_user_level_role_holdings user_id guild_id old_level new_level :
  keeps_fn same_holdings (update_user_level_role user_id guild_id old_level new_level).
Proof.
  apply update_user_level_role_keeps_relation; [apply _ | | |].
  - intros role Hlevel w. unfold remove_roles.
    destruct (may_manage_roles guild_id w); [| reflexivity].
    apply update_member_roles_holdings. intros roles.
    by apply non_level_without_marker.
  - intros role Hlevel w. unfold add_roles.
    destruct (may_manage_roles guild_id w); [| reflexivity].
    apply update_member_roles_holdings. intros roles.
    by apply non_level_with_marker.
  - intros name w. unfold create_role.
    destruct (may_manage_roles guild_id w); [| reflexivity].
    split; [apply update_guild_same |]. intros g u. unfold holdings. cbn [snd].
    by rewrite member_roles_update_guild_roles.
Qed.

Lemma update_user_level_role_others user_id guild_id old_level new_level :
  keeps_fn (same_other_members guild_id user_id)
    (update_user_level_role user_id guild_id old_level new_level).
Proof.
  apply update_user_level_role_keeps_relation; [apply _ | | |].
  - intros role _ w. unfold remove_roles.
    destruct (may_manage_roles guild_id w); [| reflexivity].
    intros g u Hne. cbn [snd]. rewrite member_roles_update_member_roles.
    by rewrite decide_False.
  - intros role _ w. unfold add_roles.
    destruct (may_manage_roles guild_id w); [| reflexivity].
    intros g u Hne. cbn [snd]. rewrite member_roles_update_member_roles.
    by rewrite decide_False.
  - intros name w. unfold create_role.
    destruct (may_manage_roles guild_id w); [| reflexivity].
    intros g u _. cbn [snd]. by rewrite member_roles_update_guild_roles.
Qed.

Lemma update_user_level_role_unpermitted user_id guild_id old_level new_level :
  keeps_fn (unchanged_unless_permitted guild_id)
    (update_user_level_role user_id guild_id old_level new_level).
Proof.
  apply update_user_level_role_keeps_relation; [apply _ | | |].
  - intros role _ w Hnp. unfold remove_roles. by rewrite Hnp.
  - intros role _ w Hnp. unfold add_roles. by rewrite Hnp.
  - intros name w Hnp. unfold create_role. by rewrite Hnp.
Qed.

Lemma create_level_roles_unpermitted guild_id :
  keeps_fn (unchanged_unless_permitted guild_id) (create_level_roles guild_id).
Proof.
  apply create_level_roles_keeps_relation; [apply _ |].
  intros name w Hnp. unfold create_role. by rewrite Hnp.
Qed.

(** The total minus the base XP is a function of the roles held that
    are not level markers, of the assignments and of the streak log. *)
Lemma total_xp_offset user_id guild_id w w' :
  holdings guild_id user_id w' = holdings guild_id user_id w →
  role_xp_assignments (quest_bot w') = role_xp_assignments (quest_bot w) →
  (streak_role_gains <$> db_connection (quest_bot w'))
    = (streak_role_gains <$> db_connection (quest_bot w)) →
  (calculate_total_user_xp user_id guild_id w').1 - stored_xp w' user_id guild_id
  = (calculate_total_user_xp user_id guild_id w).1 - stored_xp w user_id guild_id.
Proof.
  unfold holdings. intros Hh Ha Hs.
  destruct (member_roles guild_id user_id w) as [roles |] eqn:Hr;
    destruct (member_roles guild_id user_id w') as [roles' |] eqn:Hr'; try done.
  - injection Hh as Hn.
    rewrite (total_xp_non_level _ _ _ _ Hr), (total_xp_non_level _ _ _ _ Hr'), Hn.
    rewrite (role_and_streak_xp_same _ _ _ _ _ Ha Hs). lia.
  - rewrite (calculate_total_user_xp_unreadable _ _ _ Hr),
            (calculate_total_user_xp_unreadable _ _ _ Hr'), !base_xp_of_spec.
    simpl. lia.
Qed.

Lemma total_xp_same_holdings user_id guild_id w w' :
  same_holdings w w' →
  (calculate_total_user_xp user_id guild_id w').1
  = (calculate_total_user_xp user_id guild_id w).1.
Proof.
  intros [(Hqb & _ & _) Hh].
  pose proof (total_xp_offset user_id guild_id w w' (Hh _ _)) as Hoff.
  unfold stored_xp, ledger_row in Hoff. rewrite Hqb in Hoff.
  specialize (Hoff eq_refl eq_refl). lia.
Qed.

(** X3.  Whatever the target level, the permissions and the state of
    the cache, [update_user_level_role] changes neither the store nor
    the messages sent, leaves every other member's roles as they were,
    and changes the roles of its member only in level markers: nobody's
    total XP changes. *)
Theorem synchronizer_keeps_every_total
    (user_id guild_id old_level new_level : Z) (w : World) :
  let w' := (update_user_level_role user_id guild_id old_level new_level w).2 in
  quest_bot w' = quest_bot w ∧ sent w' = sent w ∧
  (∀ g u, (g, u) ≠ (guild_id, user_id) → member_roles g u w' = member_roles g u w) ∧
  holdings guild_id user_id w' = holdings guild_id user_id w ∧
  (∀ g u, (calculate_total_user_xp u g w').1 = (calculate_total_user_xp u g w).1).
Proof.
  intros w'.
  pose proof (update_user_level_role_holdings user_id guild_id old_level new_level w)
    as Hsame.
  pose proof (update_user_level_role_others user_id guild_id old_level new_level w)
    as Hothers.
  fold w' in Hsame, Hothers.
  destruct Hsame as [(Hqb & Hsent & Hpending) Hh].
  split; [done | split; [done | split; [done | split; [done |]]]].
  intros g u. apply total_xp_same_holdings. by split.
Qed.

Lemma grant_level_1_unpermitted reaction level_1_role w :
  may_manage_roles (message_guild reaction) w = false →
  grant_level_1 reaction level_1_role w = (Raise, w).
Proof. intros Hnp. unfold grant_level_1, bind, add_roles. by rewrite Hnp. Qed.

Lemma on_optin_reaction_unpermitted reaction w :
  may_manage_roles (message_guild reaction) w = false →
  (on_optin_reaction reaction w).2 = w.
Proof.
  intros Hnp. unfold on_optin_reaction, try_except, bind, reading, raise.
  destruct (get_guild (message_guild reaction) w) as [[g |] |]; [| done | done].
  destruct (get_member g (reaction_user reaction)) as [[roles |] |]; [| done | done].
  destruct (existsb is_level_role roles); [done |]. cbn [negb].
  destruct (utils_get (guild_roles g) "Level 1") as [level_1_role |].
  - unfold lift, try_except. by rewrite grant_level_1_unpermitted.
  - unfold lift, try_except, bind.
    pose proof (create_level_roles_unpermitted (message_guild reaction) w Hnp) as Hsame.
    destruct (create_level_roles (message_guild reaction) w) as [[] w1].
    simpl in Hsame. subst w1. unfold reading.
    destruct (roles_of_guild (message_guild reaction) w) as [groles |]; [| done].
    destruct (utils_get groles "Level 1") as [level_1_role |]; [| done].
    by rewrite grant_level_1_unpermitted.
Qed.

(** X4.  Where the bot may not manage the roles of the guild, the
    refusal of the platform is swallowed and nothing at all changes:
    [create_level_roles] and [update_user_level_role] leave the world as
    it was, and a reaction to the opt-in message registers nobody (no
    role, no ledger row, no welcome). *)
Theorem nothing_changes_without_permission (guild_id : Z) (w : World) :
  may_manage_roles guild_id w = false →
  (create_level_roles guild_id w).2 = w ∧
  (∀ user_id old_level new_level,
     (update_user_level_role user_id guild_id old_level new_level w).2 = w) ∧
  (∀ reaction,
     message_guild reaction = guild_id →
     is_optin_message (quest_bot w) (message_id reaction) = true →
     on_reaction_add reaction w = w).
Proof.
  intros Hnp. split; [| split].
  - by apply create_level_roles_unpermitted.
  - intros user_id old_level new_level. by apply update_user_level_role_unpermitted.
  - intros reaction <- Hoptin. unfold on_reaction_add. rewrite Hoptin.
    destruct (user_bot reaction); [done |]. destruct (emoji_is_check reaction); [| done].
    by apply on_optin_reaction_unpermitted.
Qed.

(** ** The synchronizer keeps members opted in *)

Lemma granted_holds (role : Role) (roles : list Role) : role ∈ granted role roles.
Proof.
  unfold granted, role_in. case_bool_decide; [done |].
  apply elem_of_app. right. apply list_elem_of_here.
Qed.

Lemma synced_guild_holds_marker user_id new_level g roles :
  1 ≤ new_level ≤ 10 →
  ∃ marker held',
    guild_members (synced_guild user_id new_level g roles) !! user_id
      = Some (Return held') ∧
    marker ∈ held' ∧ is_level_role marker = true.
Proof.
  intros Hrange. unfold synced_guild.
  destruct (utils_get (guild_roles g) (level_role_name new_level)) as [marker |] eqn:Hget.
  - exists marker, (granted marker (filter (λ r, stale_marker new_level r = false) roles)).
    split; [simpl; by rewrite lookup_insert_eq |]. split; [apply granted_holds |].
    apply utils_get_Some in Hget as [_ Hname].
    by apply (level_role_name_is_level new_level).
  - destruct (ensure_level_roles_get [1; 2; 3; 4; 5; 6; 7; 8; 9; 10] (guild_roles g)
                new_level) as [marker Hmarker]; [by apply level_in_ladder |].
    rewrite Hmarker.
    exists marker, (granted marker (filter (λ r, stale_marker new_level r = false) roles)).
    split; [simpl; by rewrite lookup_insert_eq |]. split; [apply granted_holds |].
    apply utils_get_Some in Hmarker as [_ Hname].
    by apply (level_role_name_is_level new_level).
Qed.

Lemma is_user_opted_in_true user_id guild_id w :
  is_user_opted_in user_id guild_id w = true ↔
  ∃ roles marker, member_roles guild_id user_id w = Return roles ∧
                  marker ∈ roles ∧ is_level_role marker = true.
Proof.
  split.
  - intros Hin. destruct (member_roles guild_id user_id w) as [roles |] eqn:Hr.
    + rewrite (is_user_opted_in_readable _ _ _ _ Hr) in Hin.
      apply existsb_exists in Hin as (marker & Hm & Hlevel).
      exists roles, marker. split; [done |]. split; [by apply list_elem_of_In | done].
    + by rewrite (is_user_opted_in_unreadable _ _ _ Hr) in Hin.
  - intros (roles & marker & Hr & Hm & Hlevel).
    rewrite (is_user_opted_in_readable _ _ _ _ Hr). apply existsb_exists.
    exists marker. split; [by apply list_elem_of_In | done].
Qed.

Lemma update_user_level_role_opted_in user_id guild_id old_level new_level w u g :
  1 ≤ new_level ≤ 10 →
  is_user_opted_in u g w = true →
  is_user_opted_in u g
    (update_user_level_role user_id guild_id old_level new_level w).2 = true.
Proof.
  intros Hrange Hin.
  destruct (decide ((g, u) = (guild_id, user_id))) as [Heq | Hne].
  - injection Heq as -> ->.
    apply is_user_opted_in_true in Hin as (roles & marker & Hr & Hm & Hlevel).
    apply member_roles_Return in Hr as (gd & Hg & Hmember).
    destruct (manage_roles gd) eqn:Hperm.
    + rewrite (update_user_level_role_permitted _ _ _ _ _ _ _ Hg Hmember Hperm).
      cbn [snd].
      destruct (synced_guild_holds_marker user_id new_level gd roles Hrange)
        as (marker' & held' & Hheld & Hm' & Hlevel').
      apply is_user_opted_in_true. exists held', marker'. split; [| done].
      apply member_roles_Return.
      exists (synced_guild user_id new_level gd roles). split; [| done].
      exact (update_guild_lookup guild_id
               (λ _, synced_guild user_id new_level gd roles) w gd Hg).
    + rewrite (update_user_level_role_unpermitted user_id guild_id old_level new_level w).
      * apply is_user_opted_in_true. exists roles, marker. split; [| done].
        apply member_roles_Return. by exists gd.
      * by rewrite (may_manage_roles_lookup _ _ _ Hg).
  - apply is_user_opted_in_true in Hin as (roles & marker & Hr & Hm & Hlevel).
    apply is_user_opted_in_true. exists roles, marker. split; [| done].
    by rewrite (update_user_level_role_others user_id guild_id old_level new_level w g u).
Qed.

(** X5.  In a guild whose roles the bot may manage, so that every
    removal, grant and creation it asks for is carried out, a run of
    [update_user_level_role] for a level 1..10 opts nobody out: whoever
    held a level marker before holds one after. *)
Theorem synchronizer_keeps_members_opted_in
    (user_id guild_id old_level new_level : Z) (w : World) (u g : Z) :
  1 ≤ new_level ≤ 10 →
  may_manage_roles guild_id w = true →
  is_user_opted_in u g w = true →
  is_user_opted_in u g
    (update_user_level_role user_id guild_id old_level new_level w).2 = true.
Proof. intros Hrange _. by apply update_user_level_role_opted_in. Qed.

(** ** The cached level *)

Lemma total_xp_same_state user_id guild_id w w' :
  guilds w' = guilds w → quest_bot w' = quest_bot w →
  (calculate_total_user_xp user_id guild_id w').1
  = (calculate_total_user_xp user_id guild_id w).1.
Proof.
  intros Hg Hqb.
  pose proof (total_xp_offset user_id guild_id w w') as Hoff.
  unfold holdings, stored_xp, ledger_row in Hoff.
  rewrite (member_roles_same_guilds _ _ _ _ Hg), Hqb in Hoff.
  specialize (Hoff eq_refl eq_refl eq_refl). lia.
Qed.

Lemma total_xp_run_tasks_from (ts : list Task) user_id guild_id :
  ∀ w,
    (calculate_total_user_xp user_id guild_id
       (fold_left (λ w t,
          snd (update_user_level_role (task_user t) (task_guild t)
                 (task_old_level t) (task_new_level t) w)) ts w)).1
    = (calculate_total_user_xp user_id guild_id w).1.
Proof.
  induction ts as [| t ts IH]; intros w; [done |].
  cbn [fold_left]. rewrite IH. apply total_xp_same_holdings.
  apply update_user_level_role_holdings.
Qed.

Lemma total_xp_run_tasks user_id guild_id w :
  (calculate_total_user_xp user_id guild_id (run_tasks w)).1
  = (calculate_total_user_xp user_id guild_id w).1.
Proof.
  unfold run_tasks. rewrite total_xp_run_tasks_from. by apply total_xp_same_state.
Qed.

Lemma ledger_row_run_tasks w user_id guild_id :
  ledger_row (run_tasks w) user_id guild_id = ledger_row w user_id guild_id.
Proof. apply ledger_row_same_quest_bot. apply run_tasks_spec. Qed.

Lemma total_xp_store_level user_id guild_id new_level w u g :
  (calculate_total_user_xp u g (store_level user_id guild_id new_level w)).1
  = (calculate_total_user_xp u g w).1.
Proof.
  pose proof (store_level_frame user_id guild_id new_level w)
    as (Hg & _ & _ & Ha & _ & _ & _ & Hs).
  pose proof (total_xp_offset u g w (store_level user_id guild_id new_level w)) as Hoff.
  unfold holdings in Hoff. rewrite (member_roles_same_guilds _ _ _ _ Hg) in Hoff.
  specialize (Hoff eq_refl Ha Hs).
  assert (Hx : stored_xp (store_level user_id guild_id new_level w) u g = stored_xp w u g).
  { unfold stored_xp. rewrite ledger_row_store_level.
    case_decide as Heq; [| done]. injection Heq as -> ->.
    by destruct (ledger_row w u g). }
  lia.
Qed.

Lemma total_xp_create_task t w u g :
  (calculate_total_user_xp u g (create_task t w)).1 = (calculate_total_user_xp u g w).1.
Proof. by apply total_xp_same_state. Qed.

Lemma ledger_row_create_task t w u g : ledger_row (create_task t w) u g = ledger_row w u g.
Proof. by apply ledger_row_same_quest_bot. Qed.

Lemma updated_user_xp_level user_id guild_id xp_change w db :
  db_connection (quest_bot w) = Some db →
  let result := updated_user_xp user_id guild_id xp_change w in
  result.1.2 = calculate_level result.1.1 ∧
  (calculate_total_user_xp user_id guild_id result.2).1 = result.1.1 ∧
  (row_level <$> ledger_row result.2 user_id guild_id) = Some result.1.2.
Proof.
  intros Hdb.
  destruct (updated_user_xp_steps user_id guild_id xp_change w db Hdb)
    as (Hrow & Hworld & Hsteps).
  cbv zeta in Hsteps. cbv zeta. rewrite Hsteps.
  set (w2 := after_xp_stored user_id guild_id xp_change w) in *.
  case_bool_decide as Hchange; cbn [fst snd].
  - split; [done |]. split.
    + by rewrite total_xp_create_task, total_xp_store_level.
    + rewrite ledger_row_create_task, ledger_row_store_level, decide_True by done.
      by rewrite Hrow.
  - split; [done |]. split; [done |]. rewrite Hrow. simpl. f_equal.
    destruct (decide (row_level (default new_user_row (ledger_row w user_id guild_id))
                      = calculate_level (calculate_total_user_xp user_id guild_id w2).1));
      [done | by destruct Hchange].
Qed.

(** X6.  On a connected store, when the base XP of the user plus
    [xp_change] is at most 2^63 - 1, [update_user_xp] returns a pair,
    and once the task it created has run, the level cached in the ledger
    row is the level of the user's total XP, and the pair returned is
    that total and that level; this holds whatever the state of the
    platform cache. *)
Theorem cached_level_follows_the_total
    (user_id guild_id xp_change : Z) (w : World) (db : DB) :
  db_connection (quest_bot w) = Some db →
  stored_xp w user_id guild_id + xp_change ≤ INT64_MAX →
  ∃ total level after,
    update_user_xp user_id guild_id xp_change w = (Return (total, level), after) ∧
    let w' := run_tasks after in
    level = calculate_level total ∧
    (calculate_total_user_xp user_id guild_id w').1 = total ∧
    (row_level <$> ledger_row w' user_id guild_id)
      = Some (calculate_level (calculate_total_user_xp user_id guild_id w').1).
Proof.
  intros Hdb Hfit%clamped_fits.
  destruct (updated_user_xp_level user_id guild_id xp_change w db Hdb)
    as (Hlevel & Htotal & Hrow).
  rewrite update_user_xp_returns by (by right).
  destruct (updated_user_xp user_id guild_id xp_change w) as [[total level] after].
  cbn [fst snd] in *. exists total, level, after. split; [done |]. cbv zeta.
  rewrite total_xp_run_tasks, ledger_row_run_tasks, Htotal, Hrow, Hlevel. done.
Qed.

(** ** What a completed quest is worth *)

Lemma total_xp_same_but_ledger user_id guild_id w w' :
  same_but_ledger w w' →
  (calculate_total_user_xp user_id guild_id w').1 - stored_xp w' user_id guild_id
  = (calculate_total_user_xp user_id guild_id w).1 - stored_xp w user_id guild_id.
Proof.
  intros (Hg & _ & Ha & _ & _ & _ & Hs). apply total_xp_offset; [| done | done].
  unfold holdings. by rewrite (member_roles_same_guilds _ _ _ _ Hg).
Qed.

Lemma ledger_row_store_completed_users message_id completed w user_id guild_id :
  ledger_row (store_completed_users message_id completed w) user_id guild_id
  = ledger_row w user_id guild_id.
Proof.
  unfold ledger_row, store_completed_users; simpl.
  by destruct (db_connection (quest_bot w)).
Qed.

Lemma total_xp_store_completed_users message_id completed w user_id guild_id :
  (calculate_total_user_xp user_id guild_id
     (store_completed_users message_id completed w)).1
  = (calculate_total_user_xp user_id guild_id w).1.
Proof.
  pose proof (total_xp_offset user_id guild_id w
                (store_completed_users message_id completed w)) as Hoff.
  rewrite stored_xp_store_completed_users in Hoff.
  assert (Hs : (streak_role_gains <$>
                  db_connection (quest_bot (store_completed_users message_id completed w)))
               = (streak_role_gains <$> db_connection (quest_bot w))).
  { unfold store_completed_users. simpl. by destruct (db_connection (quest_bot w)). }
  specialize (Hoff eq_refl eq_refl Hs). lia.
Qed.

Lemma get_whitelisted_channels_store_completed_users message_id completed w guild_id :
  get_whitelisted_channels (quest_bot (store_completed_users message_id completed w))
    guild_id
  = get_whitelisted_channels (quest_bot w) guild_id.
Proof.
  unfold get_whitelisted_channels, store_completed_users. simpl.
  by destruct (db_connection (quest_bot w)).
Qed.

Lemma get_whitelisted_channels_same_but_ledger w w' guild_id :
  same_but_ledger w w' →
  get_whitelisted_channels (quest_bot w') guild_id
  = get_whitelisted_channels (quest_bot w) guild_id.
Proof.
  intros (_ & _ & _ & _ & _ & Hw & _). unfold get_whitelisted_channels.
  destruct (db_connection (quest_bot w')), (db_connection (quest_bot w));
    simpl in *; congruence.
Qed.

Lemma total_xp_channel_send channel notice w user_id guild_id :
  (calculate_total_user_xp user_id guild_id (channel_send channel notice w)).1
  = (calculate_total_user_xp user_id guild_id w).1.
Proof.
  unfold channel_send. rewrite <- (total_xp_run_tasks user_id guild_id w).
  by apply total_xp_same_state.
Qed.

Lemma total_xp_send_whitelisted_message target notice w user_id guild_id :
  (calculate_total_user_xp user_id guild_id (send_whitelisted_message target notice w).2).1
  = (calculate_total_user_xp user_id guild_id w).1.
Proof.
  destruct (send_whitelisted_message_spec target notice w) as (_ & [-> | ->]);
    [done | apply total_xp_channel_send].
Qed.

(** X7.  The first acknowledgement of a quest by a member who has opted
    in, where the base XP plus the reward is at most 2^63 - 1, raises
    the member's total XP by what the clamped base XP gains, that is by
    the reward when neither is negative (50 when the quest has no
    reward); the ledger then caches the level of the new total; and
    the confirmation, sent exactly when the whitelist of the guild is
    empty or holds the channel of the message, announces the reward, the
    new total and its level. *)
Theorem quest_completion_adds_the_reward (reaction : Reaction) (w : World) (db : DB)
    (q : QuestRow) :
  user_bot reaction = false →
  emoji_is_check reaction = true →
  is_optin_message (quest_bot w) (message_id reaction) = false →
  db_connection (quest_bot w) = Some db →
  quests db !! message_id reaction = Some q →
  is_user_opted_in (reaction_user reaction) (message_guild reaction) w = true →
  reaction_user reaction ∉ completed_users q →
  let user := reaction_user reaction in
  let guild := message_guild reaction in
  let reward := default 50 (xp_reward q) in
  let base := stored_xp w user guild in
  let w1 := completes (on_reaction_add reaction) w in
  let total1 := (calculate_total_user_xp user guild w1).1 in
  let allowed := fst <$> get_whitelisted_channels (quest_bot w) guild in
  base + reward ≤ INT64_MAX →
  total1 = (calculate_total_user_xp user guild w).1 + (Z.max 0 (base + reward) - base) ∧
  (0 ≤ base → 0 ≤ reward → total1 = (calculate_total_user_xp user guild w).1 + reward) ∧
  (row_level <$> ledger_row w1 user guild) = Some (calculate_level total1) ∧
  (allowed = [] ∨ message_channel reaction ∈ allowed →
   sent w1 = sent w ++ [(message_channel reaction,
                         QuestCompleted user reward total1 (calculate_level total1))]) ∧
  (¬ (allowed = [] ∨ message_channel reaction ∈ allowed) → sent w1 = sent w).
Proof.
  intros Hbot Hemoji Hoptin Hdb Hq Hopt Hnew user guild reward base w1 total1 allowed
    Hfit%clamped_fits.
  set (updated := updated_user_xp user guild reward w).
  set (stored := store_completed_users (message_id reaction)
                   (completed_users q ++ [user]) updated.2).
  set (target := {| channel_id := message_channel reaction; channel_guild := Some guild |}).
  set (notice := QuestCompleted user reward updated.1.1 updated.1.2).
  assert (Hw1 : w1 = run_tasks (send_whitelisted_message target notice stored).2).
  { unfold w1, completes, on_reaction_add. rewrite Hbot, Hemoji, Hoptin.
    by rewrite (on_quest_reaction_accepted reaction w db q Hdb Hq Hopt Hnew Hfit). }
  pose proof (updated_user_xp_frame user guild reward w) as Hframe. fold updated in Hframe.
  destruct (updated_user_xp_level user guild reward w db Hdb) as (Hlevel & Htotal & Hrow).
  fold updated in Hlevel, Htotal, Hrow.
  assert (Htotal1 : total1 = updated.1.1).
  { unfold total1. rewrite Hw1, total_xp_run_tasks, total_xp_send_whitelisted_message.
    unfold stored. by rewrite total_xp_store_completed_users. }
  assert (Hgain : total1
                  = (calculate_total_user_xp user guild w).1 + (Z.max 0 (base + reward) - base)).
  { rewrite Htotal1, <- Htotal.
    pose proof (total_xp_same_but_ledger user guild _ _ Hframe) as Hoff.
    pose proof (updated_user_xp_stored user guild reward w db Hdb) as Hstored.
    fold updated base in Hstored. fold base in Hoff. lia. }
  split; [exact Hgain |]. split; [lia |]. split.
  { rewrite Hw1, ledger_row_run_tasks.
    rewrite (ledger_row_same_quest_bot stored)
      by apply send_whitelisted_message_spec.
    unfold stored. rewrite ledger_row_store_completed_users, Hrow, Htotal1.
    by rewrite Hlevel. }
  assert (Hallowed : fst <$> get_whitelisted_channels (quest_bot stored) guild = allowed).
  { unfold stored, allowed.
    by rewrite get_whitelisted_channels_store_completed_users,
               (get_whitelisted_channels_same_but_ledger _ _ _ Hframe). }
  assert (Hsent : sent stored = sent w).
  { destruct Hframe as (_ & Hs & _). exact Hs. }
  destruct (send_whitelisted_message_rule guild (message_channel reaction) notice stored)
    as (Hrule & Hyes & Hno).
  fold target in Hrule, Hyes, Hno. rewrite Hallowed in Hrule.
  rewrite Hw1, (proj1 (proj2 (run_tasks_spec _))). split.
  - intros Hpass. apply Hrule in Hpass. rewrite (Hyes Hpass).
    rewrite (proj1 (proj2 (channel_send_spec _ _ _))), Hsent.
    unfold notice. by rewrite Hlevel, <- Htotal1.
  - intros Hfail.
    destruct (send_whitelisted_message target notice stored).1 eqn:Hsend.
    + destruct Hfail. by apply Hrule.
    + by rewrite (Hno eq_refl).
Qed.

(** ** Setting, adding and removing base XP *)



Lemma get_user_data_connected user_id guild_id w :
  is_Some (db_connection (quest_bot w)) →
  is_Some (db_connection (quest_bot (get_user_data user_id guild_id w).2)).
Proof.
  intros [db Hdb]. unfold get_user_data. rewrite Hdb.
  destruct (users db !! (user_id, guild_id)); simpl; rewrite Hdb; by eexists.
Qed.

(** X8.  On a connected store [set_xp_command] with an amount of at
    most 2^63 - 1 leaves a member who has opted in with base XP [max(0,
    amount)], whatever it was; the confirmation names the amount asked
    for, the member's new total and the level of that total.  With a
    greater amount the [UPDATE] raises: the base XP stays as it was and
    the command answers with the error.  For a member who has not opted
    in it only sends the refusal. *)
Theorem set_xp_command_sets_the_base (guild_id channel amount member : Z) (w : World)
    (db : DB) :
  db_connection (quest_bot w) = Some db →
  let result := set_xp_command guild_id channel amount member w in
  (is_user_opted_in member guild_id w = true →
   amount ≤ INT64_MAX →
   stored_xp result.2 member guild_id = Z.max 0 amount ∧
   result.1 = Some {| set_member := member; set_amount := amount;
                      set_total := (calculate_total_user_xp member guild_id result.2).1;
                      set_level := calculate_level
                                     (calculate_total_user_xp member guild_id result.2).1 |} ∧
   (calculate_total_user_xp member guild_id result.2).1
   = (calculate_total_user_xp member guild_id w).1
     + (Z.max 0 amount - stored_xp w member guild_id)) ∧
  (is_user_opted_in member guild_id w = true →
   INT64_MAX < amount →
   result.1 = None ∧
   stored_xp result.2 member guild_id = stored_xp w member guild_id ∧
   sent result.2 = sent w ++ [(channel, XpError "setting XP")]) ∧
  (is_user_opted_in member guild_id w = false →
   result.1 = None ∧ quest_bot result.2 = quest_bot w ∧
   sent result.2 = sent w ++ [(channel, UserNotOptedIn member)]).
Proof.
  intros Hdb result. unfold result, set_xp_command.
  split; [| split]; intros Hopt; rewrite Hopt.
  - intros Hamount. cbn [negb].
    pose proof (get_user_data_xp member guild_id w) as Hxp.
    pose proof (stored_xp_get_user_data member guild_id w member guild_id) as Hbase.
    pose proof (get_user_data_frame member guild_id w) as Hframe0.
    destruct (get_user_data_connected member guild_id w) as [db0 Hdb0]; [by eexists |].
    destruct (get_user_data member guild_id w) as [current_data w0].
    cbn [fst snd] in *.
    set (xp_change := amount - row_xp current_data).
    rewrite update_user_xp_returns
      by (right; apply clamped_fits; unfold xp_change; lia).
    pose proof (updated_user_xp_stored member guild_id xp_change w0 db0 Hdb0) as Hstored.
    pose proof (updated_user_xp_frame member guild_id xp_change w0) as Hframe.
    destruct (updated_user_xp_level member guild_id xp_change w0 db0 Hdb0)
      as (Hlevel & Htotal & _).
    destruct (updated_user_xp member guild_id xp_change w0) as [[new_total_xp new_level] w1].
    cbn [fst snd] in *.
    rewrite stored_xp_run_tasks, total_xp_run_tasks, Htotal, Hstored.
    split; [f_equal; unfold xp_change; lia |]. split; [by rewrite Hlevel |].
    pose proof (total_xp_same_but_ledger member guild_id _ _ Hframe) as Hoff.
    pose proof (total_xp_same_but_ledger member guild_id _ _
                  (same_but_users_ledger _ _ Hframe0)) as Hoff0.
    unfold xp_change in *. lia.
  - intros Hamount. cbn [negb].
    pose proof (get_user_data_xp member guild_id w) as Hxp.
    pose proof (stored_xp_get_user_data member guild_id w member guild_id) as Hbase.
    pose proof (get_user_data_frame member guild_id w) as (_ & Hsent0 & _).
    destruct (get_user_data_connected member guild_id w) as [db0 Hdb0]; [by eexists |].
    destruct (get_user_data member guild_id w) as [current_data w0].
    cbn [fst snd] in *.
    rewrite (update_user_xp_raises _ _ _ _ db0 Hdb0)
      by (apply clamped_overflows; lia).
    cbn [fst snd]. split; [done |].
    rewrite stored_xp_channel_send, stored_xp_get_user_data.
    split; [done |].
    rewrite (proj1 (proj2 (channel_send_spec _ _ _))).
    destruct (get_user_data_frame member guild_id w0) as (_ & -> & _).
    by rewrite Hsent0.
  - cbn [negb fst snd].
    destruct (channel_send_spec channel (UserNotOptedIn member) w) as (Hqb & Hsent & _).
    done.
Qed.






(** ** Losing a role *)

(** X10.  [on_member_update] acts on added roles only: an update in
    which the member gains no role changes nothing.  So when a member
    loses a role, even a badge that counted in the total, only the cache
    changes: the store, the cached level and the level markers stay as
    they were and no message is sent. *)
Theorem losing_a_role_recomputes_nothing
    (user_id guild_id : Z) (before after : list Role) (w : World) :
  (∀ r, r ∈ after → r ∈ before) →
  on_member_update user_id guild_id before after w = w ∧
  ∀ role,
    after = filter (λ r, r ≠ role) before →
    member_roles guild_id user_id w = Return before →
    pending w = [] →
    member_loses_role user_id guild_id role w
    = update_member_roles guild_id user_id (λ _, after) w.
Proof.
  intros Hsub.
  assert (Hnone : ∀ w', on_member_update user_id guild_id before after w' = w').
  { intros w'. unfold on_member_update. by rewrite (added_roles_none _ _ Hsub). }
  split; [apply Hnone |].
  intros role -> Hbefore Hidle. unfold member_loses_role, completes.
  rewrite Hbefore, Hnone. by apply run_tasks_idle.
Qed.

(** ** Reading a total *)

(** X11.  [calculate_total_user_xp] is not a pure read: for a user
    without a ledger row it inserts the row (0 XP, level 1) when the
    store is connected.  It changes nothing else, changes nothing at all
    when the row exists or the store is not connected, and a second call
    returns the same total and changes nothing. *)
Theorem reading_a_total_creates_the_row (user_id guild_id : Z) (w : World) :
  let result := calculate_total_user_xp user_id guild_id w in
  same_but_users w result.2 ∧
  (is_Some (db_connection (quest_bot w)) →
   ledger_row result.2 user_id guild_id
   = Some (default new_user_row (ledger_row w user_id guild_id))) ∧
  (∀ u g, (u, g) ≠ (user_id, guild_id) → ledger_row result.2 u g = ledger_row w u g) ∧
  (is_Some (ledger_row w user_id guild_id) ∨ db_connection (quest_bot w) = None →
   result.2 = w) ∧
  calculate_total_user_xp user_id guild_id result.2 = result.
Proof.
  intros result.
  assert (Hworld : result.2 = (get_user_data user_id guild_id w).2)
    by apply calculate_total_user_xp_world.
  split; [rewrite Hworld; apply get_user_data_frame |]. split.
  { intros [db Hdb]. rewrite Hworld, (get_user_data_ledger _ _ _ _ Hdb).
    by rewrite get_user_data_row. }
  split.
  { intros u g Hne. rewrite Hworld. unfold ledger_row, get_user_data.
    destruct (db_connection (quest_bot w)) as [db |] eqn:Hdb; [| cbn [snd]; by rewrite Hdb].
    destruct (users db !! (user_id, guild_id)); [cbn [snd]; by rewrite Hdb |].
    simpl. rewrite Hdb. simpl. rewrite lookup_insert_ne; [done | congruence]. }
  split.
  { intros [[row Hrow] | Hdb]; rewrite Hworld.
    - by rewrite (get_user_data_present _ _ _ _ Hrow).
    - unfold get_user_data. by rewrite Hdb. }
  apply injective_projections.
  - rewrite Hworld.
    pose proof (total_xp_same_but_ledger user_id guild_id w
                  (get_user_data user_id guild_id w).2
                  (same_but_users_ledger _ _ (get_user_data_frame user_id guild_id w)))
      as Hoff.
    rewrite stored_xp_get_user_data in Hoff. unfold result. lia.
  - rewrite calculate_total_user_xp_world, Hworld, get_user_data_idempotent. done.
Qed.

(** ** The whitelist table *)

Lemma elem_of_get_whitelisted_channels qb guild_id channel_id channel_name :
  (channel_id, channel_name) ∈ get_whitelisted_channels qb guild_id ↔
  ∃ db, db_connection qb = Some db ∧
        {| wl_guild_id := guild_id; wl_channel_id := channel_id;
           wl_channel_name := channel_name |} ∈ whitelisted_channels db.
Proof.
  unfold get_whitelisted_channels. destruct (db_connection qb) as [db |].
  - rewrite list_elem_of_fmap. split.
    + intros (row & Heq & Hrow). apply list_elem_of_filter in Hrow as [Hg Hrow].
      exists db. split; [done |]. destruct row; simpl in *. by simplify_eq.
    + intros (db' & Heq & Hrow). simplify_eq. eexists. split; [| apply list_elem_of_filter;
        split; [| exact Hrow]]; done.
  - split; [by intros ?%elem_of_nil | by intros (? & ? & _)].
Qed.

Lemma is_channel_whitelisted_spec qb db guild_id channel_id :
  db_connection qb = Some db →
  is_channel_whitelisted qb guild_id channel_id = true ↔
  channel_id ∈ (fst <$> get_whitelisted_channels qb guild_id).
Proof.
  intros Hdb. unfold is_channel_whitelisted. rewrite Hdb.
  rewrite list_elem_of_fmap. split.
  - destruct (filter _ _) as [| row rows] eqn:Hrows; [done |]. intros _.
    assert (Hrow : row ∈ filter (is_row_of guild_id channel_id) (whitelisted_channels db))
      by (rewrite Hrows; apply list_elem_of_here).
    apply list_elem_of_filter in Hrow as [[Hg Hc] Hrow].
    exists (channel_id, wl_channel_name row). split; [done |].
    apply elem_of_get_whitelisted_channels. exists db. split; [done |].
    destruct row; simpl in *. by simplify_eq.
  - intros ([c n] & -> & Hin). simpl.
    apply elem_of_get_whitelisted_channels in Hin as (db' & Heq & Hrow). simplify_eq.
    destruct (filter _ _) as [| row rows] eqn:Hrows; [| done].
    assert (Hin : {| wl_guild_id := guild_id; wl_channel_id := c; wl_channel_name := n |}
                  ∈ filter (is_row_of guild_id c) (whitelisted_channels db))
      by (apply list_elem_of_filter; split; [by split | done]).
    rewrite Hrows in Hin. by apply elem_of_nil in Hin.
Qed.

Lemma NoDup_fmap_filter {A B} (f : A → B) (P : A → Prop) `{!∀ x, Decision (P x)}
    (l : list A) :
  NoDup (f <$> l) → NoDup (f <$> filter P l).
Proof.
  induction l as [| x l IH]; [done |]. rewrite fmap_cons, NoDup_cons. intros [Hx Hl].
  rewrite filter_cons. destruct (decide (P x)); [| by apply IH].
  rewrite fmap_cons, NoDup_cons. split; [| by apply IH].
  intros Hin. apply Hx. apply list_elem_of_fmap in Hin as (y & -> & Hy).
  apply list_elem_of_filter in Hy as [_ Hy]. apply list_elem_of_fmap. by exists y.
Qed.

Lemma elem_of_added_channel guild_id channel_id channel_name qb db g c n :
  db_connection qb = Some db →
  (c, n) ∈ get_whitelisted_channels
             (add_whitelisted_channel guild_id channel_id channel_name qb).2 g ↔
  (g = guild_id ∧ c = channel_id ∧ n = channel_name) ∨
  ((g, c) ≠ (guild_id, channel_id) ∧ (c, n) ∈ get_whitelisted_channels qb g).
Proof.
  intros Hdb. unfold add_whitelisted_channel. rewrite Hdb. cbn [snd].
  set (new := {| wl_guild_id := guild_id; wl_channel_id := channel_id;
                 wl_channel_name := channel_name |}).
  set (qb' := with_db _ qb).
  assert (Hdb' : db_connection qb'
                 = Some (set_whitelisted_channels (λ rows,
                           filter (λ row, ¬ is_row_of guild_id channel_id row) rows
                           ++ [new]) db)).
  { unfold qb', with_db. simpl. by rewrite Hdb. }
  rewrite !elem_of_get_whitelisted_channels. split.
  - intros (db' & Heq & Hrow). rewrite Hdb' in Heq. injection Heq as <-.
    simpl in Hrow. apply elem_of_app in Hrow as [Hrow | Hrow].
    + apply list_elem_of_filter in Hrow as [Hne Hrow]. right. split.
      * intros [= -> ->]. apply Hne. by split.
      * by exists db.
    + apply list_elem_of_singleton in Hrow. injection Hrow as -> -> ->. by left.
  - intros [(-> & -> & ->) | (Hne & db' & Heq & Hrow)].
    + eexists. split; [exact Hdb' |]. simpl. apply elem_of_app. right.
      apply list_elem_of_here.
    + simplify_eq. eexists. split; [exact Hdb' |]. simpl. apply elem_of_app. left.
      apply list_elem_of_filter. split; [| done].
      intros [Hg Hc]. simpl in *. by subst.
Qed.

(** X12.  On a connected store [add_whitelisted_channel] answers True
    and afterwards the channel is whitelisted under the name given; the
    other entries, of this guild and of the others, are as before; an
    entry the channel already had is replaced, so the table keeps at
    most one row per channel; nothing but the whitelist changes. *)
Theorem adding_a_channel_whitelists_it
    (guild_id channel_id : Z) (channel_name : string) (qb : QuestBot) (db : DB) :
  db_connection qb = Some db →
  let result := add_whitelisted_channel guild_id channel_id channel_name qb in
  result.1 = true ∧
  is_channel_whitelisted result.2 guild_id channel_id = true ∧
  (∀ g c n,
     (c, n) ∈ get_whitelisted_channels result.2 g ↔
     (g = guild_id ∧ c = channel_id ∧ n = channel_name) ∨
     ((g, c) ≠ (guild_id, channel_id) ∧ (c, n) ∈ get_whitelisted_channels qb g)) ∧
  (whitelist_unique qb → whitelist_unique result.2) ∧
  same_but_whitelist qb result.2.
Proof.
  intros Hdb result. unfold result, add_whitelisted_channel. rewrite Hdb. cbn [fst snd].
  set (new := {| wl_guild_id := guild_id; wl_channel_id := channel_id;
                 wl_channel_name := channel_name |}).
  set (qb' := with_db _ qb).
  assert (Hdb' : db_connection qb'
                 = Some (set_whitelisted_channels (λ rows,
                           filter (λ row, ¬ is_row_of guild_id channel_id row) rows
                           ++ [new]) db)).
  { unfold qb', with_db. simpl. by rewrite Hdb. }
  assert (Hlist : ∀ g c n,
     (c, n) ∈ get_whitelisted_channels qb' g ↔
     (g = guild_id ∧ c = channel_id ∧ n = channel_name) ∨
     ((g, c) ≠ (guild_id, channel_id) ∧ (c, n) ∈ get_whitelisted_channels qb g)).
  { intros g c n.
    pose proof (elem_of_added_channel guild_id channel_id channel_name qb db g c n Hdb)
      as Hiff.
    unfold add_whitelisted_channel in Hiff. rewrite Hdb in Hiff. exact Hiff. }
  split; [done |]. split; [| split; [done | split]].
  - apply (is_channel_whitelisted_spec _ _ _ _ Hdb'). apply list_elem_of_fmap.
    exists (channel_id, channel_name). split; [done |]. apply Hlist. by left.
  - unfold whitelist_unique. rewrite Hdb, Hdb'. simpl. intros Hnodup.
    rewrite fmap_app. apply NoDup_app. split; [by apply NoDup_fmap_filter |]. split.
    + intros key Hkey Hnew. apply list_elem_of_singleton in Hnew. subst key.
      apply list_elem_of_fmap in Hkey as (row & Heq & Hrow).
      apply list_elem_of_filter in Hrow as [Hne _]. apply Hne.
      simpl in Heq. injection Heq as Hg Hc. by split.
    + apply NoDup_singleton.
  - unfold same_but_whitelist, qb', with_db. simpl. rewrite Hdb. done.
Qed.





Lemma gate_for_members qb ctx guild_id :
  ctx_guild ctx = Some guild_id →
  ctx_manage_guild ctx = false →
  ctx_command ctx ≠ Some "whitelist" →
  is_channel_whitelisted_check qb ctx = true ↔
  get_whitelisted_channels qb guild_id = [] ∨
  ctx_channel ctx ∈ (fst <$> get_whitelisted_channels qb guild_id).
Proof.
  intros Hguild Hmanage Hcommand. unfold is_channel_whitelisted_check.
  rewrite Hguild, Hmanage. rewrite bool_decide_eq_false_2 by done.
  destruct (get_whitelisted_channels qb guild_id) as [| entry entries];
    [split; auto |].
  case_bool_decide as Hin.
  - split; [done |]. intros [? | ?]; [done | by destruct Hin].
  - split; [| done]. intros _. right. first [exact Hin | by apply dec_stable].
Qed.

(** X14.  In a guild whose whitelist is empty every channel passes the
    gate, inbound and outbound.  Whitelisting one channel closes all the
    others: afterwards a command of a member without the manage-guild
    permission (other than the whitelist command) passes in that channel
    only, and [send_whitelisted_message] sends to that channel only. *)
Theorem first_whitelisted_channel_closes_the_others
    (guild_id channel : Z) (channel_name : string) (qb : QuestBot) (db : DB) :
  db_connection qb = Some db →
  get_whitelisted_channels qb guild_id = [] →
  let qb1 := (add_whitelisted_channel guild_id channel channel_name qb).2 in
  (∀ ctx, ctx_guild ctx = Some guild_id → is_channel_whitelisted_check qb ctx = true) ∧
  (∀ w target notice,
     quest_bot w = qb → channel_guild target = Some guild_id →
     (send_whitelisted_message target notice w).1 = true) ∧
  (∀ ctx,
     ctx_guild ctx = Some guild_id → ctx_manage_guild ctx = false →
     ctx_command ctx ≠ Some "whitelist" →
     (is_channel_whitelisted_check qb1 ctx = true ↔ ctx_channel ctx = channel)) ∧
  (∀ w target notice,
     quest_bot w = qb1 → channel_guild target = Some guild_id →
     ((send_whitelisted_message target notice w).1 = true ↔ channel_id target = channel)).
Proof.
  intros Hdb Hempty qb1.
  assert (Hone : ∀ c, c ∈ (fst <$> get_whitelisted_channels qb1 guild_id) ↔ c = channel).
  { intros c. rewrite list_elem_of_fmap. split.
    - intros ([c' n] & -> & Hin). simpl.
      apply (elem_of_added_channel _ _ _ _ _ _ _ _ Hdb) in Hin
        as [(_ & -> & _) | (_ & Hin)]; [done |].
      rewrite Hempty in Hin. by apply elem_of_nil in Hin.
    - intros ->. exists (channel, channel_name). split; [done |].
      apply (elem_of_added_channel _ _ _ _ _ _ _ _ Hdb). by left. }
  assert (Hsome : get_whitelisted_channels qb1 guild_id ≠ []).
  { intros Hnil. pose proof (proj2 (Hone channel) eq_refl) as Hin.
    rewrite Hnil in Hin. by apply elem_of_nil in Hin. }
  split; [| split; [| split]].
  - intros ctx Hguild. unfold is_channel_whitelisted_check. rewrite Hguild, Hempty.
    destruct (ctx_manage_guild ctx); [done |]. by case_bool_decide.
  - intros w target notice <- Hguild. unfold send_whitelisted_message.
    by rewrite Hguild, Hempty.
  - intros ctx Hguild Hmanage Hcommand.
    rewrite (gate_for_members _ _ _ Hguild Hmanage Hcommand), Hone.
    split; [by intros [? | ?] | by right].
  - intros w [c guild] notice Hqb Hguild. simpl in Hguild. subst guild.
    destruct (send_whitelisted_message_rule guild_id c notice w) as (Hrule & _).
    cbv zeta in Hrule. rewrite Hrule, Hqb, Hone. simpl.
    split; [intros [Hnil | ?]; [| done] | by right].
    apply fmap_nil_inv in Hnil. by destruct Hsome.
Qed.



(** ** Assigning and unassigning role XP *)

(** X16.  After [assign_role_xp] the role reads back with the amount
    and type given, whatever it read before, and assigning again
    overwrites; after [unassign_role_xp] it reads back as unassigned;
    neither changes what any other role or guild reads, nor the store;
    unassigning a role that has no assignment changes nothing. *)
Theorem role_xp_assignment_round_trip
    (guild_id : Z) (role_id : string) (xp_amount : Z) (role_type : string) (qb : QuestBot) :
  let assigned := assign_role_xp guild_id role_id xp_amount role_type qb in
  let unassigned := unassign_role_xp guild_id role_id assigned in
  get_role_xp_and_type assigned guild_id role_id = Some (xp_amount, role_type) ∧
  (∀ g r, (g, r) ≠ (guild_id, role_id) →
     get_role_xp_and_type assigned g r = get_role_xp_and_type qb g r) ∧
  (∀ xp_amount' role_type',
     assign_role_xp guild_id role_id xp_amount' role_type' assigned
     = assign_role_xp guild_id role_id xp_amount' role_type' qb) ∧
  get_role_xp_and_type unassigned guild_id role_id = None ∧
  (∀ g r, (g, r) ≠ (guild_id, role_id) →
     get_role_xp_and_type unassigned g r = get_role_xp_and_type qb g r) ∧
  db_connection unassigned = db_connection qb ∧
  optin_message_id unassigned = optin_message_id qb ∧
  (get_role_xp_and_type qb guild_id role_id = None →
   unassign_role_xp guild_id role_id qb = qb).
Proof.
  intros assigned unassigned.
  set (previous := default ∅ (role_xp_assignments qb !! guild_id)).
  set (value := {| assigned_xp := xp_amount; assigned_type := role_type |}).
  assert (Hassigned : role_xp_assignments assigned
                      = <[guild_id := <[role_id := value]> previous]>
                          (role_xp_assignments qb)) by done.
  assert (Hunassigned : role_xp_assignments unassigned
                        = <[guild_id := delete role_id previous]> (role_xp_assignments qb)).
  { unfold unassigned, unassign_role_xp. rewrite Hassigned, lookup_insert_eq.
    rewrite lookup_insert_eq. simpl. rewrite insert_insert_eq. f_equal.
    by rewrite delete_insert_eq. }
  assert (Hother : ∀ g r m,
            (g, r) ≠ (guild_id, role_id) →
            (∀ r', r' ≠ role_id → m !! r' = previous !! r') →
            match <[guild_id := m]> (role_xp_assignments qb) !! g with
            | Some assignments =>
                match assignments !! r with
                | Some role_data => Some (assigned_xp role_data, assigned_type role_data)
                | None => None
                end
            | None => None
            end = get_role_xp_and_type qb g r).
  { intros g r m Hne Hm. unfold get_role_xp_and_type.
    destruct (decide (g = guild_id)) as [-> | Hg].
    - rewrite lookup_insert_eq, Hm by congruence. unfold previous.
      by destruct (role_xp_assignments qb !! guild_id).
    - by rewrite lookup_insert_ne. }
  split; [| split; [| split; [| split; [| split; [| split; [| split]]]]]].
  - unfold get_role_xp_and_type. by rewrite Hassigned, !lookup_insert_eq.
  - intros g r Hne. unfold get_role_xp_and_type at 1. rewrite Hassigned.
    apply Hother; [done |]. intros r' Hr'. by rewrite lookup_insert_ne.
  - intros xp_amount' role_type'. unfold assigned, assign_role_xp. simpl. f_equal.
    rewrite lookup_insert_eq. simpl. by rewrite !insert_insert_eq.
  - unfold get_role_xp_and_type. by rewrite Hunassigned, lookup_insert_eq, lookup_delete_eq.
  - intros g r Hne. unfold get_role_xp_and_type at 1. rewrite Hunassigned.
    apply Hother; [done |]. intros r' Hr'. by rewrite lookup_delete_ne.
  - unfold unassigned, unassign_role_xp. rewrite Hassigned, !lookup_insert_eq. done.
  - unfold unassigned, unassign_role_xp. rewrite Hassigned, !lookup_insert_eq. done.
  - unfold get_role_xp_and_type, unassign_role_xp.
    destruct (role_xp_assignments qb !! guild_id) as [assignments |]; [| done].
    by destruct (assignments !! role_id).
Qed.

(** ** The leaderboard *)

Lemma insert_desc_perm {A} (key : A → Z) (x : A) (l : list A) :
  insert_desc key x l ≡ₚ x :: l.
Proof.
  induction l as [| y l IH]; [done |]. simpl. destruct (key x <=? key y); [| done].
  rewrite IH. apply Permutation_swap.
Qed.

Lemma sort_desc_from_perm {A} (key : A → Z) (l : list A) :
  ∀ sorted, fold_left (λ sorted x, insert_desc key x sorted) l sorted ≡ₚ sorted ++ l.
Proof.
  induction l as [| x l IH]; intros sorted; [by rewrite app_nil_r |].
  cbn [fold_left]. rewrite IH, insert_desc_perm.
  by rewrite <- Permutation_middle.
Qed.

Lemma sort_desc_perm {A} (key : A → Z) (l : list A) : sort_desc key l ≡ₚ l.
Proof. unfold sort_desc. by rewrite sort_desc_from_perm. Qed.

Lemma insert_desc_sorted {A} (key : A → Z) (x : A) (l : list A) :
  StronglySorted (λ a b, key b ≤ key a) l →
  StronglySorted (λ a b, key b ≤ key a) (insert_desc key x l).
Proof.
  induction 1 as [| y l Hl IH Hy]; [repeat constructor |]. simpl.
  destruct (key x <=? key y) eqn:Hle.
  - apply Z.leb_le in Hle. constructor; [done |].
    rewrite insert_desc_perm. by constructor.
  - apply Z.leb_gt in Hle. constructor; [by constructor |].
    constructor; [lia |]. eapply Forall_impl; [exact Hy |]. simpl. intros z Hz. lia.
Qed.

Lemma sort_desc_sorted {A} (key : A → Z) (l : list A) :
  StronglySorted (λ a b, key b ≤ key a) (sort_desc key l).
Proof.
  unfold sort_desc.
  assert (Hfrom : ∀ sorted,
            StronglySorted (λ a b, key b ≤ key a) sorted →
            StronglySorted (λ a b, key b ≤ key a)
              (fold_left (λ sorted x, insert_desc key x sorted) l sorted)).
  { induction l as [| x l IH]; intros sorted Hsorted; [done |].
    cbn [fold_left]. by apply IH, insert_desc_sorted. }
  apply Hfrom. constructor.
Qed.

(** The rows [select_users_by_xp] fetches are the ledger rows of the
    guild, one for each user. *)
Lemma select_users_by_xp_spec db guild_id :
  (∀ user_id xp level,
     (user_id, xp, level) ∈ select_users_by_xp db guild_id ↔
     users db !! (user_id, guild_id) = Some {| row_xp := xp; row_level := level |}) ∧
  NoDup ((select_users_by_xp db guild_id).*1.*1).
Proof.
  unfold select_users_by_xp.
  set (rows := (λ entry : Z * Z * UserRow,
                  (entry.1.1, row_xp entry.2, row_level entry.2)) <$>
               filter (λ entry : Z * Z * UserRow, entry.1.2 = guild_id)
                      (map_to_list (users db))).
  split.
  - intros user_id xp level. rewrite sort_desc_perm. unfold rows.
    rewrite list_elem_of_fmap. split.
    + intros ([[u g] row] & Heq & Hin). apply list_elem_of_filter in Hin as [Hg Hin].
      apply elem_of_map_to_list in Hin. simpl in *. destruct row. by simplify_eq.
    + intros Hrow. exists (user_id, guild_id, {| row_xp := xp; row_level := level |}).
      split; [done |]. apply list_elem_of_filter. split; [done |].
      by apply elem_of_map_to_list.
  - rewrite sort_desc_perm. unfold rows. rewrite <- !list_fmap_compose.
    apply NoDup_fmap_2_strong; [| apply NoDup_filter, NoDup_map_to_list].
    intros [[u g] row] [[u' g'] row'] Hin Hin' Heq. simpl in Heq. subst u'.
    apply list_elem_of_filter in Hin as [Hg Hin], Hin' as [Hg' Hin'].
    apply elem_of_map_to_list in Hin, Hin'. simpl in *. by simplify_eq.
Qed.

(** What the loop of [get_leaderboard] collects from rows whose users
    have a ledger row. *)
Lemma users_with_total_xp_spec guild_id (all_users : list (Z * Z * Z)) (w : World) :
  (∀ row, row ∈ all_users → is_Some (ledger_row w row.1.1 guild_id)) →
  users_with_total_xp guild_id all_users w
  = ((λ row, (row.1.1,
              (calculate_total_user_xp row.1.1 guild_id w).1,
              calculate_level (calculate_total_user_xp row.1.1 guild_id w).1)) <$>
       filter (λ row, is_user_opted_in row.1.1 guild_id w = true) all_users,
     w).
Proof.
  unfold users_with_total_xp.
  set (entry := λ row : Z * Z * Z,
         (row.1.1, (calculate_total_user_xp row.1.1 guild_id w).1,
          calculate_level (calculate_total_user_xp row.1.1 guild_id w).1)).
  set (step := λ (state : list (Z * Z * Z) * World) (row : Z * Z * Z), _).
  assert (Hfrom : ∀ acc,
            (∀ row, row ∈ all_users → is_Some (ledger_row w row.1.1 guild_id)) →
            fold_left step all_users (acc, w)
            = (acc ++ (entry <$>
                        filter (λ row, is_user_opted_in row.1.1 guild_id w = true)
                               all_users), w)).
  { induction all_users as [| row rows IH]; intros acc Hrows.
    - simpl. by rewrite app_nil_r.
    - cbn [fold_left]. rewrite filter_cons.
      assert (Hstep : step (acc, w) row
                      = (if is_user_opted_in row.1.1 guild_id w
                         then acc ++ [entry row] else acc, w)).
      { unfold step. cbn [fst snd].
        destruct (is_user_opted_in row.1.1 guild_id w); [| done].
        destruct (Hrows row) as [data Hdata]; [apply list_elem_of_here |].
        pose proof (calculate_total_user_xp_world row.1.1 guild_id w) as Hworld.
        rewrite (get_user_data_present _ _ _ _ Hdata) in Hworld. simpl in Hworld.
        unfold entry.
        destruct (calculate_total_user_xp row.1.1 guild_id w) as [total_xp w'].
        simpl in *. by subst w'. }
      rewrite Hstep, IH by (intros r Hr; apply Hrows; by apply elem_of_cons; right).
      destruct (is_user_opted_in row.1.1 guild_id w).
      + rewrite decide_True by done. by rewrite fmap_cons, <- app_assoc.
      + by rewrite decide_False by done. }
  intros Hrows. by rewrite (Hfrom [] Hrows).
Qed.

(** X17.  On a connected store, and for a limit that is not negative,
    [get_leaderboard] answers the first [limit] entries of a ranking
    that lists exactly the users with a ledger row in the guild who have
    opted in, each once, with the user's total XP and the level of that
    total, in descending order of total XP; it changes nothing. *)
Theorem leaderboard_ranks_the_opted_in (guild_id limit : Z) (w : World) (db : DB) :
  db_connection (quest_bot w) = Some db →
  0 ≤ limit →
  ∃ ranking,
    get_leaderboard guild_id limit w = (take (Z.to_nat limit) ranking, w) ∧
    StronglySorted (λ a b, b.1.2 ≤ a.1.2) ranking ∧
    NoDup (ranking.*1.*1) ∧
    ∀ user_id total_xp level,
      (user_id, total_xp, level) ∈ ranking ↔
      is_Some (ledger_row w user_id guild_id) ∧
      is_user_opted_in user_id guild_id w = true ∧
      total_xp = (calculate_total_user_xp user_id guild_id w).1 ∧
      level = calculate_level total_xp.
Proof.
  intros Hdb Hlimit.
  destruct (select_users_by_xp_spec db guild_id) as [Hrows Hnodup].
  set (all_users := select_users_by_xp db guild_id) in *.
  set (entries :=
         (λ row : Z * Z * Z,
            (row.1.1, (calculate_total_user_xp row.1.1 guild_id w).1,
             calculate_level (calculate_total_user_xp row.1.1 guild_id w).1)) <$>
         filter (λ row : Z * Z * Z, is_user_opted_in row.1.1 guild_id w = true) all_users).
  exists (sort_desc (λ entry : Z * Z * Z, entry.1.2) entries).
  split; [| split; [| split]].
  - unfold get_leaderboard. rewrite Hdb. fold all_users.
    rewrite users_with_total_xp_spec.
    + fold entries. unfold slice_to. by rewrite (proj2 (Z.ltb_ge _ _) Hlimit).
    + intros [[u x] l] Hin. apply Hrows in Hin. unfold ledger_row. rewrite Hdb. simpl.
      by eexists.
  - apply sort_desc_sorted.
  - rewrite sort_desc_perm. unfold entries. rewrite <- !list_fmap_compose.
    change (NoDup ((λ row : Z * Z * Z, row.1.1) <$>
                   filter (λ row : Z * Z * Z, is_user_opted_in row.1.1 guild_id w = true)
                          all_users)).
    apply NoDup_fmap_filter. by rewrite <- list_fmap_compose in Hnodup.
  - intros user_id total_xp level. rewrite sort_desc_perm. unfold entries.
    rewrite list_elem_of_fmap. split.
    + intros ([[u x] l] & Heq & Hin). apply list_elem_of_filter in Hin as [Hopt Hin].
      apply Hrows in Hin. simpl in *. simplify_eq.
      split; [| done]. unfold ledger_row. rewrite Hdb. simpl. by eexists.
    + intros ([row Hrow] & Hopt & -> & ->). unfold ledger_row in Hrow.
      rewrite Hdb in Hrow. simpl in Hrow.
      exists (user_id, row_xp row, row_level row). split; [done |].
      apply list_elem_of_filter. split; [done |]. apply Hrows. by destruct row.
Qed.

(** ** What the handlers leave of the store *)

Lemma keeps_weaken {A} (R R' : relation World) (m : Act A) :
  (∀ w w', R w w' → R' w w') → keeps R m → keeps R' m.
Proof. intros Himpl Hm w. apply Himpl, Hm. Qed.

Lemma keeps_fn_weaken {A} (R R' : relation World) (f : World → A * World) :
  (∀ w w', R w w' → R' w w') → keeps_fn R f → keeps_fn R' f.
Proof. intros Himpl Hf w. apply Himpl, Hf. Qed.

#[local] Instance same_but_users_and_cache_preorder : PreOrder same_but_users_and_cache.
Proof.
  split.
  - intros w. repeat split.
  - intros w1 w2 w3 (?&?&?&?&?) (?&?&?&?&?). repeat split; congruence.
Qed.

Lemma same_quest_bot_tables w w' :
  quest_bot w' = quest_bot w → same_but_users_and_cache w w'.
Proof. intros Hqb. unfold same_but_users_and_cache. rewrite Hqb. repeat split. Qed.

Lemma same_bot_state_tables w w' : same_bot_state w w' → same_but_users_and_cache w w'.
Proof. intros (Hqb & _). by apply same_quest_bot_tables. Qed.

Lemma same_but_ledger_tables w w' : same_but_ledger w w' → same_but_users_and_cache w w'.
Proof. intros (_ & _ & ? & ? & ? & ? & ?). repeat split; assumption. Qed.

Lemma insert_or_ignore_user_tables user_id guild_id w :
  same_but_users_and_cache w (insert_or_ignore_user user_id guild_id w).
Proof.
  unfold same_but_users_and_cache, insert_or_ignore_user. simpl.
  destruct (db_connection (quest_bot w)); repeat split.
Qed.

Lemma grant_level_1_tables reaction level_1_role :
  keeps same_but_users_and_cache (grant_level_1 reaction level_1_role).
Proof.
  apply keeps_bind; [apply _ | |].
  { apply (keeps_weaken same_bot_state); [apply same_bot_state_tables |].
    apply add_roles_keeps. }
  intros _. apply keeps_bind; [apply _ | |].
  { apply keeps_lift. intros w. apply insert_or_ignore_user_tables. }
  intros _. apply keeps_lift. intros w. apply same_quest_bot_tables.
  apply send_whitelisted_message_spec.
Qed.

Lemma on_optin_reaction_tables reaction :
  keeps_fn same_but_users_and_cache (on_optin_reaction reaction).
Proof.
  apply keeps_try_except; [apply _ | | apply keeps_fn_id; apply _].
  apply keeps_bind; [apply _ | apply keeps_reading; apply _ |].
  intros [g |]; [| apply keeps_raise; apply _].
  apply keeps_bind; [apply _ | apply keeps_reading; apply _ |].
  intros [roles |]; [| apply keeps_ret; apply _].
  destruct (existsb is_level_role roles); cbn [negb]; [apply keeps_ret; apply _ |].
  destruct (utils_get (guild_roles g) "Level 1") as [level_1_role |].
  - apply keeps_lift, keeps_try_except; [apply _ | | apply keeps_fn_id; apply _].
    apply grant_level_1_tables.
  - apply keeps_lift, keeps_try_except; [apply _ | | apply keeps_fn_id; apply _].
    apply keeps_bind; [apply _ | |].
    { apply keeps_lift.
      apply (keeps_fn_weaken same_bot_state); [apply same_bot_state_tables |].
      apply create_level_roles_keeps. }
    intros _. apply keeps_bind; [apply _ | apply keeps_reading; apply _ |].
    intros groles. destruct (utils_get groles "Level 1") as [level_1_role |];
      [apply grant_level_1_tables | apply keeps_ret; apply _].
Qed.

Lemma quest_row_same_tables w w' message :
  same_but_users_and_cache w w' → quest_row w' message = quest_row w message.
Proof.
  intros (_ & _ & Hq & _). unfold quest_row.
  destruct (db_connection (quest_bot w')), (db_connection (quest_bot w));
    simpl in *; congruence.
Qed.

Lemma quest_row_store_completed_users_cases message_id completed w message :
  quest_row (store_completed_users message_id completed w) message
  = if decide (message = message_id)
    then (λ q, {| quest_guild_id := quest_guild_id q;
                  quest_channel_id := quest_channel_id q;
                  quest_title := quest_title q; completed_users := completed;
                  xp_reward := xp_reward q |}) <$> quest_row w message_id
    else quest_row w message.
Proof.
  unfold quest_row, store_completed_users. simpl.
  destruct (db_connection (quest_bot w)) as [db |]; simpl; [| by case_decide].
  case_decide as Heq.
  - subst. by rewrite lookup_alter_eq.
  - by rewrite lookup_alter_ne.
Qed.

Lemma store_completed_users_tables message_id completed w :
  role_xp_assignments (quest_bot (store_completed_users message_id completed w))
    = role_xp_assignments (quest_bot w) ∧
  optin_message_id (quest_bot (store_completed_users message_id completed w))
    = optin_message_id (quest_bot w) ∧
  (whitelisted_channels <$>
     db_connection (quest_bot (store_completed_users message_id completed w)))
    = (whitelisted_channels <$> db_connection (quest_bot w)) ∧
  (streak_role_gains <$>
     db_connection (quest_bot (store_completed_users message_id completed w)))
    = (streak_role_gains <$> db_connection (quest_bot w)).
Proof.
  unfold store_completed_users. simpl.
  destruct (db_connection (quest_bot w)); repeat split.
Qed.

(** X18.  Whatever the reaction, once [on_reaction_add] has completed
    every quest of the store is still there with its guild, channel,
    title and reward; its list of completions is as before, except that
    the reacting user was appended to the list of the message reacted
    to if not yet in it.  The role XP assignments, the opt-in message,
    the whitelist and the streak log are untouched. *)
Theorem reactions_only_append_completions (reaction : Reaction) (w : World) :
  let w' := completes (on_reaction_add reaction) w in
  (∀ message,
     match quest_row w message with
     | Some q =>
         ∃ q', quest_row w' message = Some q' ∧
               quest_guild_id q' = quest_guild_id q ∧
               quest_channel_id q' = quest_channel_id q ∧
               quest_title q' = quest_title q ∧
               xp_reward q' = xp_reward q ∧
               (completed_users q' = completed_users q ∨
                (message = message_id reaction ∧
                 (reaction_user reaction ∉ completed_users q) ∧
                 completed_users q' = completed_users q ++ [reaction_user reaction]))
     | None => quest_row w' message = None
     end) ∧
  role_xp_assignments (quest_bot w') = role_xp_assignments (quest_bot w) ∧
  optin_message_id (quest_bot w') = optin_message_id (quest_bot w) ∧
  (whitelisted_channels <$> db_connection (quest_bot w'))
    = (whitelisted_channels <$> db_connection (quest_bot w)) ∧
  (streak_role_gains <$> db_connection (quest_bot w'))
    = (streak_role_gains <$> db_connection (quest_bot w)).
Proof.
  intros w'.
  assert (Hquiet : same_but_users_and_cache w (on_reaction_add reaction w) →
            (∀ message,
               match quest_row w message with
               | Some q =>
                   ∃ q', quest_row w' message = Some q' ∧
                         quest_guild_id q' = quest_guild_id q ∧
                         quest_channel_id q' = quest_channel_id q ∧
                         quest_title q' = quest_title q ∧
                         xp_reward q' = xp_reward q ∧
                         (completed_users q' = completed_users q ∨
                          (message = message_id reaction ∧
                           (reaction_user reaction ∉ completed_users q) ∧
                           completed_users q'
                           = completed_users q ++ [reaction_user reaction]))
               | None => quest_row w' message = None
               end) ∧
            role_xp_assignments (quest_bot w') = role_xp_assignments (quest_bot w) ∧
            optin_message_id (quest_bot w') = optin_message_id (quest_bot w) ∧
            (whitelisted_channels <$> db_connection (quest_bot w'))
              = (whitelisted_channels <$> db_connection (quest_bot w)) ∧
            (streak_role_gains <$> db_connection (quest_bot w'))
              = (streak_role_gains <$> db_connection (quest_bot w))).
  { intros Hsame.
    assert (Hsame' : same_but_users_and_cache w w').
    { etransitivity; [exact Hsame |]. apply same_quest_bot_tables, run_tasks_spec. }
    split.
    - intros message. rewrite (quest_row_same_tables _ _ message Hsame').
      destruct (quest_row w message) as [q |]; [| done]. exists q. by auto 10.
    - destruct Hsame' as (? & ? & _ & ? & ?). by auto. }
  destruct (user_bot reaction) eqn:Hbot.
  { apply Hquiet. unfold on_reaction_add. rewrite Hbot. reflexivity. }
  destruct (emoji_is_check reaction) eqn:Hemoji.
  2: { apply Hquiet. unfold on_reaction_add. rewrite Hbot, Hemoji. reflexivity. }
  destruct (is_optin_message (quest_bot w) (message_id reaction)) eqn:Hoptin.
  { apply Hquiet. unfold on_reaction_add. rewrite Hbot, Hemoji, Hoptin.
    apply on_optin_reaction_tables. }
  assert (Hhandler : on_reaction_add reaction w = on_quest_reaction reaction w).
  { unfold on_reaction_add. by rewrite Hbot, Hemoji, Hoptin. }
  destruct (db_connection (quest_bot w)) as [db |] eqn:Hdb.
  2: { apply Hquiet. rewrite Hhandler. unfold on_quest_reaction. rewrite Hdb.
       reflexivity. }
  destruct (quests db !! message_id reaction) as [q |] eqn:Hq.
  2: { apply Hquiet. rewrite Hhandler. unfold on_quest_reaction. rewrite Hdb, Hq.
       reflexivity. }
  destruct (is_user_opted_in (reaction_user reaction) (message_guild reaction) w)
    eqn:Hopt.
  2: { apply Hquiet. rewrite Hhandler, on_quest_reaction_not_opted_in by done.
       reflexivity. }
  destruct (decide (reaction_user reaction ∈ completed_users q)) as [Hdone | Hnew].
  { apply Hquiet. rewrite Hhandler.
    rewrite (on_quest_reaction_completed reaction w q); [reflexivity | | done].
    unfold quest_row. by rewrite Hdb. }
  set (reward := default 50 (xp_reward q)).
  destruct (fits_int64 (Z.max 0 (stored_xp w (reaction_user reaction)
                                   (message_guild reaction) + reward))) eqn:Hfit.
  2: { apply Hquiet.
       rewrite Hhandler, (on_quest_reaction_refused reaction w db q Hdb Hq Hopt Hnew Hfit).
       apply same_but_ledger_tables, same_but_users_ledger, get_user_data_frame. }
  set (updated := updated_user_xp (reaction_user reaction) (message_guild reaction)
                    reward w).
  set (stored := store_completed_users (message_id reaction)
                   (completed_users q ++ [reaction_user reaction]) updated.2).
  assert (Hqb : quest_bot w' = quest_bot stored).
  { unfold w', completes. rewrite Hhandler.
    rewrite (on_quest_reaction_accepted reaction w db q Hdb Hq Hopt Hnew Hfit).
    rewrite (proj1 (run_tasks_spec _)). apply send_whitelisted_message_spec. }
  pose proof (same_but_ledger_tables _ _
                (updated_user_xp_frame (reaction_user reaction) (message_guild reaction)
                   reward w)) as Hframe.
  fold updated in Hframe.
  assert (Hrow : ∀ message, quest_row w' message = quest_row stored message).
  { intros message. unfold quest_row. by rewrite Hqb. }
  destruct (store_completed_users_tables (message_id reaction)
              (completed_users q ++ [reaction_user reaction]) updated.2)
    as (Ha & Ho & Hw & Hs).
  fold stored in Ha, Ho, Hw, Hs.
  destruct Hframe as (Ha' & Ho' & _ & Hw' & Hs').
  split; [| rewrite Hqb; repeat split; congruence].
  intros message. rewrite Hrow. unfold stored.
  rewrite quest_row_store_completed_users_cases.
  rewrite !(quest_row_same_tables w updated.2)
    by (apply same_but_ledger_tables, updated_user_xp_frame).
  case_decide as Heq.
  - subst message. unfold quest_row at 1 2. rewrite Hdb. simpl. rewrite Hq. simpl.
    eexists. split; [done |]. simpl. repeat split. right. by auto.
  - destruct (quest_row w message) as [q0 |]; [| done]. exists q0. by auto 10.
Qed.

#[local] Instance role_event_frame_preorder user_id guild_id :
  PreOrder (role_event_frame user_id guild_id).
Proof.
  split.
  - intros w. unfold role_event_frame. repeat split; done.
  - intros w1 w2 w3 (Hx & Ha & Ho & Hq & Hw & Hother & Hlog)
                    (Hx' & Ha' & Ho' & Hq' & Hw' & Hother' & Hlog').
    unfold role_event_frame. split; [| split; [| split; [| split; [| split; [| split]]]]].
    + intros u g. by rewrite Hx'.
    + congruence.
    + congruence.
    + congruence.
    + congruence.
    + intros u g Hne. by rewrite Hother', Hother.
    + by etransitivity.
Qed.

Lemma same_quest_bot_role_event user_id guild_id w w' :
  quest_bot w' = quest_bot w → role_event_frame user_id guild_id w w'.
Proof.
  intros Hqb. unfold role_event_frame, stored_xp, ledger_row, streak_log.
  rewrite Hqb. repeat split; done.
Qed.

Lemma stored_xp_store_level user_id guild_id new_level w u g :
  stored_xp (store_level user_id guild_id new_level w) u g = stored_xp w u g.
Proof.
  unfold stored_xp. rewrite ledger_row_store_level.
  case_decide as Heq; [| done]. injection Heq as -> ->.
  by destruct (ledger_row w u g).
Qed.

Lemma check_and_update_level_roles_stored user_id guild_id w u g :
  stored_xp (check_and_update_level_roles user_id guild_id w).2 u g = stored_xp w u g.
Proof.
  destruct (db_connection (quest_bot w)) as [db |] eqn:Hdb.
  - destruct (check_and_update_level_roles_steps user_id guild_id w db Hdb) as (_ & ->).
    case_bool_decide.
    + unfold stored_xp at 1.
      rewrite (ledger_row_same_quest_bot (store_level user_id guild_id _ _)) by done.
      fold (stored_xp (store_level user_id guild_id
                         (calculate_level
                            (calculate_total_user_xp user_id guild_id
                               (get_user_data user_id guild_id w).2).1)
                         (get_user_data user_id guild_id w).2) u g).
      by rewrite stored_xp_store_level, stored_xp_get_user_data.
    + apply stored_xp_get_user_data.
  - unfold check_and_update_level_roles, get_user_data. rewrite Hdb.
    rewrite (surjective_pairing (calculate_total_user_xp user_id guild_id w)).
    assert (Hworld : (calculate_total_user_xp user_id guild_id w).2 = w).
    { rewrite calculate_total_user_xp_world. unfold get_user_data. by rewrite Hdb. }
    rewrite Hworld. case_bool_decide; [| done]. by rewrite Hdb.
Qed.

Lemma check_and_update_level_roles_event user_id guild_id u g w :
  role_event_frame u g w (check_and_update_level_roles user_id guild_id w).2.
Proof.
  destruct (check_and_update_level_roles_frame user_id guild_id w)
    as (_ & _ & Ha & Ho & Hq & Hw & Hs).
  unfold role_event_frame. split; [| split; [| split; [| split; [| split; [| split]]]]];
    try done.
  - intros u' g'. apply check_and_update_level_roles_stored.
  - intros u' g' _. by apply streak_log_same_gains.
  - by rewrite (streak_log_same_gains _ _ _ _ Hs).
Qed.

Lemma logged_gain_event user_id guild_id role_id role_name xp_awarded w :
  role_event_frame user_id guild_id w
    (logged_gain user_id guild_id role_id role_name xp_awarded w).
Proof.
  unfold logged_gain.
  destruct (db_connection (quest_bot w)) as [db |] eqn:Hdb; [| reflexivity].
  unfold role_event_frame, stored_xp, ledger_row, streak_log, streak_gains_of. simpl.
  rewrite Hdb. simpl. split; [done |]. split; [done |]. split; [done |].
  split; [done |]. split; [done |]. split.
  - intros u g Hne. rewrite filter_app, filter_cons, decide_False; [by rewrite app_nil_r |].
    simpl. intros [-> ->]. by apply Hne.
  - rewrite filter_app. by eexists.
Qed.

Lemma role_added_event user_id guild_id role w :
  role_event_frame user_id guild_id w (role_added user_id guild_id role w).
Proof.
  assert (Hcheck : ∀ w0 (notice : Z → Z → Z → Notice),
            role_event_frame user_id guild_id w0
              (let '((old_level, new_level, total_xp), w1) :=
                 check_and_update_level_roles user_id guild_id w0 in
               send_to_first_channel guild_id (notice old_level new_level total_xp) w1)).
  { intros w0 notice.
    pose proof (check_and_update_level_roles_event user_id guild_id user_id guild_id w0)
      as Hevent.
    destruct (check_and_update_level_roles user_id guild_id w0)
      as [[[old_level new_level] total_xp] w1].
    etransitivity; [exact Hevent |]. apply same_quest_bot_role_event.
    apply send_to_first_channel_quest_bot. }
  unfold role_added.
  destruct (is_user_opted_in user_id guild_id w); cbn [negb]; [| reflexivity].
  destruct (get_role_xp_and_type _ _ _) as [[reward role_type] |].
  - case_bool_decide.
    + etransitivity; [apply logged_gain_event |].
      apply (Hcheck _ (λ old_level new_level total_xp,
               StreakRoleGained user_id role reward total_xp
                 (level_text old_level new_level))).
    + apply (Hcheck _ (λ old_level new_level total_xp,
               RoleGained user_id role reward total_xp (level_text old_level new_level))).
  - destruct (Str.contains _ _); [| reflexivity].
    apply (Hcheck _ (λ old_level new_level total_xp,
             RoleGained user_id role 5 total_xp (level_text old_level new_level))).
Qed.

(** X19.  Whatever roles a member gains, once [on_member_update] has
    completed nobody's base XP has changed: role XP is never written to
    the ledger.  The quests, the role XP assignments, the opt-in message
    and the whitelist are untouched; the streak log of every other
    member is as before, and that of the member has only grown. *)
Theorem role_gains_never_touch_base_xp
    (user_id guild_id : Z) (before after : list Role) (w : World) :
  let w' := completes (on_member_update user_id guild_id before after) w in
  (∀ u g, stored_xp w' u g = stored_xp w u g) ∧
  role_xp_assignments (quest_bot w') = role_xp_assignments (quest_bot w) ∧
  optin_message_id (quest_bot w') = optin_message_id (quest_bot w) ∧
  (quests <$> db_connection (quest_bot w')) = (quests <$> db_connection (quest_bot w)) ∧
  (whitelisted_channels <$> db_connection (quest_bot w'))
    = (whitelisted_channels <$> db_connection (quest_bot w)) ∧
  (∀ u g, (u, g) ≠ (user_id, guild_id) → streak_log w' u g = streak_log w u g) ∧
  streak_log w user_id guild_id `prefix_of` streak_log w' user_id guild_id.
Proof.
  intros w'. change (role_event_frame user_id guild_id w w').
  unfold w', completes. clear w'. etransitivity;
    [| apply same_quest_bot_role_event, run_tasks_spec].
  apply on_member_update_keeps; [apply _ |].
  intros role w0. apply role_added_event.
Qed.

(** ** The figures of checkXP *)

Lemma badge_breakdown_spec qb guild_id roles :
  Spec.kinds_ok qb guild_id →
  badge_breakdown qb guild_id roles
  = (custom_role_xp qb guild_id roles, auto_role_xp qb guild_id roles).
Proof.
  intros Hkinds. unfold badge_breakdown, custom_role_xp, auto_role_xp.
  generalize 0 at 1 3. generalize 0. revert roles.
  induction roles as [| role roles IH]; intros b a; [done |].
  cbn [fold_left]. rewrite <- IH. f_equal.
  destruct (is_level_role role); [done |].
  rewrite get_role_xp_and_type_assignment.
  destruct (Spec.assignment qb guild_id role) as [data |] eqn:Hdata; simpl.
  - destruct (assignment_kind _ _ _ _ Hkinds Hdata) as [Hkind | Hkind]; rewrite Hkind.
    + repeat case_bool_decide; first [done | congruence].
    + repeat case_bool_decide; first [done | congruence].
  - by destruct (Str.contains _ _).
Qed.

Lemma next_level_needed (xp : Z) :
  let level := calculate_level xp in
  let next_level_xp := default (threshold 10) (LEVEL_THRESHOLDS !! Z.min (level + 1) 10) in
  let needed := Z.max 0 (next_level_xp - xp) in
  (level < 10 →
   0 < needed ∧ calculate_level (xp + needed) = level + 1 ∧
   ∀ n, 0 ≤ n < needed → calculate_level (xp + n) = level) ∧
  (level = 10 → needed = 0).
Proof.
  intros level next_level_xp needed. subst level next_level_xp needed.
  destruct (calculate_level_cases xp) as [H|[H|[H|[H|[H|[H|[H|[H|[H|H]]]]]]]]];
    destruct H as [Hxp ->];
    match goal with
    | |- context [LEVEL_THRESHOLDS !! ?k] =>
        let v := eval vm_compute in (default (threshold 10) (LEVEL_THRESHOLDS !! k)) in
        change (default (threshold 10) (LEVEL_THRESHOLDS !! k)) with v
    end;
    (split; [| intros; lia]); intros Hbelow; try (exfalso; lia);
    (split; [lia |]); split.
  all: try (intros n Hn;
            destruct (calculate_level_cases (xp + n))
              as [H|[H|[H|[H|[H|[H|[H|[H|[H|H]]]]]]]]]; lia).
  all: match goal with
       | |- calculate_level ?t = _ =>
           destruct (calculate_level_cases t) as [H|[H|[H|[H|[H|[H|[H|[H|[H|H]]]]]]]]]; lia
       end.
Qed.

(** X20.  For a member whose roles are read and whose logged streak
    gains, added up one after the other, stay within the 64 bits of an
    SQLite INTEGER, checkXP computes its figures: the total of
    [calculate_total_user_xp] and its level; the quest XP is the base
    XP; the streak XP is the sum of the logged gains; where every
    assignment of the guild is a badge or a streak one, quest, streak,
    badge and automatic badge XP add up to the total; below level 10 the
    XP needed is positive and is exactly what brings the total to the
    next level; at level 10 it is 0.  Where the running sum leaves 64
    bits, the [SUM] raises and no figure is computed. *)
Theorem xp_report_adds_up (guild_id target_member : Z) (roles : list Role) (w : World) :
  member_roles guild_id target_member w = Return roles →
  (streak_log_sums_fit w target_member guild_id →
   ∃ report,
     (xp_report guild_id target_member roles w).1 = Return report ∧
     report_xp report = (calculate_total_user_xp target_member guild_id w).1 ∧
     report_level report = calculate_level (report_xp report) ∧
     report_quest_xp report = stored_xp w target_member guild_id ∧
     report_streak_xp report = Spec.accumulated_streak_xp w target_member guild_id ∧
     (Spec.kinds_ok (quest_bot w) guild_id →
      report_xp report
      = report_quest_xp report + report_streak_xp report
        + report_badge_xp report + report_auto_badge_xp report) ∧
     (report_level report < 10 →
      0 < report_xp_needed report ∧
      calculate_level (report_xp report + report_xp_needed report)
      = report_level report + 1 ∧
      ∀ n, 0 ≤ n < report_xp_needed report →
           calculate_level (report_xp report + n) = report_level report) ∧
     (report_level report = 10 → report_xp_needed report = 0)) ∧
  (¬ streak_log_sums_fit w target_member guild_id →
   (xp_report guild_id target_member roles w).1 = Raise).
Proof.
  intros Hroles. unfold xp_report, bind, lift, reading, ret.
  pose proof (calculate_total_user_xp_readable _ _ _ _ Hroles) as Htotal.
  destruct (get_user_data_frame target_member guild_id w)
    as (_ & _ & _ & Ha & _ & _ & _ & Hs).
  pose proof (get_user_data_idempotent target_member guild_id w) as Hagain.
  pose proof (get_user_data_xp target_member guild_id w) as Hxp.
  pose proof (get_accumulated_streak_xp_spec w target_member guild_id) as Hsum.
  rewrite <- (get_accumulated_streak_xp_same _ _ _ _ Hs) in Hsum.
  set (w1 := (get_user_data target_member guild_id w).2) in *.
  rewrite Htotal, Hagain. rewrite (surjective_pairing (get_user_data _ _ w)). fold w1.
  unfold role_and_streak_xp. rewrite Hsum.
  split; intros Hfit; [rewrite decide_True by done | by rewrite decide_False].
  eexists. split; [reflexivity |].
  cbn [fst snd report_xp report_level report_quest_xp report_streak_xp report_badge_xp
       report_auto_badge_xp report_xp_needed].
  set (total := stored_xp w target_member guild_id + _).
  destruct (next_level_needed total) as [Hbelow Htop].
  split; [done |]. split; [done |]. split; [done |]. split; [done |].
  split; [| split; [exact Hbelow | exact Htop]].
  intros Hkinds.
  assert (Hkinds1 : Spec.kinds_ok (quest_bot w1) guild_id).
  { unfold Spec.kinds_ok. by rewrite Ha. }
  rewrite (badge_breakdown_spec _ _ _ Hkinds1). cbn [fst snd]. unfold total. lia.
Qed.

(** ** The cached level after a role gain *)

Lemma check_and_update_level_roles_level user_id guild_id w db :
  db_connection (quest_bot w) = Some db →
  let w' := (check_and_update_level_roles user_id guild_id w).2 in
  (row_level <$> ledger_row w' user_id guild_id)
  = Some (calculate_level (calculate_total_user_xp user_id guild_id w').1).
Proof.
  intros Hdb w'. subst w'.
  destruct (check_and_update_level_roles_steps user_id guild_id w db Hdb)
    as ([row Hrow] & ->).
  pose proof (get_user_data_ledger user_id guild_id w db Hdb) as Hledger.
  pose proof (get_user_data_row user_id guild_id w) as Hdata.
  set (w1 := (get_user_data user_id guild_id w).2) in *.
  case_bool_decide as Hchange.
  - rewrite ledger_row_create_task, total_xp_create_task, total_xp_store_level.
    rewrite ledger_row_store_level, decide_True by done. by rewrite Hrow.
  - rewrite Hledger, Hdata. simpl. f_equal.
    destruct (decide (row_level (default new_user_row (ledger_row w user_id guild_id))
                      = calculate_level (calculate_total_user_xp user_id guild_id w1).1));
      [done | by destruct Hchange].
Qed.

Lemma send_to_first_channel_total guild_id notice w u g :
  (calculate_total_user_xp u g (send_to_first_channel guild_id notice w)).1
  = (calculate_total_user_xp u g w).1.
Proof.
  unfold send_to_first_channel.
  destruct (get_guild guild_id w) as [[gd |] |]; try done.
  destruct (find send_messages (text_channels gd)); [| done].
  apply total_xp_channel_send.
Qed.

Lemma logged_gain_connected user_id guild_id role_id role_name xp_awarded w :
  is_Some (db_connection (quest_bot w)) →
  is_Some (db_connection
             (quest_bot (logged_gain user_id guild_id role_id role_name
                           xp_awarded w))).
Proof.
  intros [db Hdb]. unfold logged_gain. rewrite Hdb. simpl. rewrite Hdb.
  by eexists.
Qed.

(** X21.  On a connected store, when a member who has opted in gains
    one role that counts (a role with an XP assignment, or a role named
    as a badge), and the amount of the role, if it is a streak role,
    fits the 64 bits of an SQLite INTEGER so that the gain is logged,
    then once [on_member_update] has completed the ledger caches the
    level of the member's total XP. *)
Theorem role_gain_refreshes_the_cached_level
    (user_id guild_id : Z) (before after : list Role) (role : Role) (w : World) :
  is_Some (db_connection (quest_bot w)) →
  added_roles before after = [role] →
  is_user_opted_in user_id guild_id w = true →
  is_Some (get_role_xp_and_type (quest_bot w) guild_id (Str.str (role_id role))) ∨
  Str.contains "badge" (Str.lower (role_name role)) = true →
  (∀ xp_amount,
     get_role_xp_and_type (quest_bot w) guild_id (Str.str (role_id role))
       = Some (xp_amount, "streak") →
     fits_int64 xp_amount = true) →
  let w' := completes (on_member_update user_id guild_id before after) w in
  (row_level <$> ledger_row w' user_id guild_id)
  = Some (calculate_level (calculate_total_user_xp user_id guild_id w').1).
Proof.
  intros Hdb Hadded Hopt Hcounts Hamount w'.
  assert (Haccepted : gain_refused user_id guild_id role w = false).
  { unfold gain_refused.
    destruct (get_role_xp_and_type (quest_bot w) guild_id (Str.str (role_id role)))
      as [[reward role_type] |]; [| by rewrite andb_false_r].
    destruct (decide (role_type = "streak")) as [-> | Hother].
    - rewrite (Hamount reward eq_refl). by rewrite !andb_false_r.
    - rewrite (bool_decide_eq_false_2 _ Hother). by rewrite andb_false_r. }
  assert (Hcheck : ∀ w0 (notice : Z → Z → Z → Notice),
            is_Some (db_connection (quest_bot w0)) →
            let w1 := (let '((old_level, new_level, total_xp), w1) :=
                         check_and_update_level_roles user_id guild_id w0 in
                       send_to_first_channel guild_id
                         (notice old_level new_level total_xp) w1) in
            (row_level <$> ledger_row (run_tasks w1) user_id guild_id)
            = Some (calculate_level
                      (calculate_total_user_xp user_id guild_id (run_tasks w1)).1)).
  { intros w0 notice [db0 Hdb0] w1. subst w1.
    pose proof (check_and_update_level_roles_level user_id guild_id w0 db0 Hdb0) as Hlevel.
    destruct (check_and_update_level_roles user_id guild_id w0)
      as [[[old_level new_level] total_xp] w1]. cbn [snd] in Hlevel.
    rewrite ledger_row_run_tasks, total_xp_run_tasks, send_to_first_channel_total.
    by rewrite (ledger_row_same_quest_bot w1)
      by apply send_to_first_channel_quest_bot. }
  unfold w', completes.
  rewrite (on_member_update_single _ _ _ _ _ _ Hadded), Haccepted.
  unfold role_added. rewrite Hopt. cbn [negb].
  destruct (get_role_xp_and_type (quest_bot w) guild_id (Str.str (role_id role)))
    as [[reward role_type] |] eqn:Hassigned.
  - case_bool_decide.
    + apply (Hcheck _ (λ old_level new_level total_xp,
               StreakRoleGained user_id role reward total_xp
                 (level_text old_level new_level))).
      by apply logged_gain_connected.
    + by apply (Hcheck _ (λ old_level new_level total_xp,
                  RoleGained user_id role reward total_xp
                    (level_text old_level new_level))).
  - destruct Hcounts as [[? ?] | Hbadge]; [done |]. rewrite Hbadge.
    by apply (Hcheck _ (λ old_level new_level total_xp,
                RoleGained user_id role 5 total_xp (level_text old_level new_level))).
Qed.

(** ** Saved settings *)

(** X22.  On a connected store, loading the settings a guild has just
    saved gives back the role XP assignments of the guild and the opt-in
    message id as they were when saved, whatever the bot held in
    between; the assignments of the other guilds are not touched. *)
Theorem saved_settings_load_back
    (guild_id : Z) (qb qb' : QuestBot) (settings : gmap Z SettingsRow) (db db' : DB) :
  db_connection qb = Some db →
  db_connection qb' = Some db' →
  let loaded := load_settings guild_id (save_settings guild_id qb settings) qb' in
  (∀ role_id,
     get_role_xp_and_type loaded guild_id role_id = get_role_xp_and_type qb guild_id role_id) ∧
  optin_message_id loaded = optin_message_id qb ∧
  (∀ g role_id, g ≠ guild_id →
     get_role_xp_and_type loaded g role_id = get_role_xp_and_type qb' g role_id) ∧
  db_connection loaded = db_connection qb'.
Proof.
  intros Hdb Hdb' loaded. unfold loaded, load_settings, save_settings.
  rewrite Hdb, Hdb', lookup_insert_eq. cbn [settings_role_xp settings_optin_message_id].
  split; [| split; [done | split; [| done]]].
  - intros role_id. unfold get_role_xp_and_type. cbn [role_xp_assignments].
    rewrite lookup_insert_eq, <- map_fmap_compose, lookup_fmap.
    destruct (role_xp_assignments qb !! guild_id) as [assignments |]; simpl.
    + by destruct (assignments !! role_id).
    + by rewrite lookup_empty.
  - intros g role_id Hne. unfold get_role_xp_and_type. cbn [role_xp_assignments].
    by rewrite lookup_insert_ne.
Qed.

(** X23.  [load_settings] reads an assignment saved in the old format,
    a bare amount, as a badge assignment of that amount, and an
    assignment in the new format as it is; so if the new-format
    assignments of the row are badge or streak ones, every assignment of
    the guild is one after loading.  The opt-in message id of the bot,
    which is not kept per guild, becomes that of the row loaded. *)
Theorem loading_settings_migrates_old_assignments
    (guild_id : Z) (settings : gmap Z SettingsRow) (qb : QuestBot) (db : DB)
    (row : SettingsRow) :
  db_connection qb = Some db →
  settings !! guild_id = Some row →
  let loaded := load_settings guild_id settings qb in
  (∀ role_id xp,
     settings_role_xp row !! role_id = Some (OldFormat xp) →
     get_role_xp_and_type loaded guild_id role_id = Some (xp, "badge")) ∧
  (∀ role_id data,
     settings_role_xp row !! role_id = Some (NewFormat data) →
     get_role_xp_and_type loaded guild_id role_id
     = Some (assigned_xp data, assigned_type data)) ∧
  (∀ role_id,
     settings_role_xp row !! role_id = None →
     get_role_xp_and_type loaded guild_id role_id = None) ∧
  (map_Forall (λ _ stored,
     match stored with
     | OldFormat _ => True
     | NewFormat data => assigned_type data = "badge" ∨ assigned_type data = "streak"
     end) (settings_role_xp row) →
   Spec.kinds_ok loaded guild_id) ∧
  optin_message_id loaded = settings_optin_message_id row.
Proof.
  intros Hdb Hrow loaded.
  assert (Hloaded : role_xp_assignments loaded
                    = <[guild_id := migrated <$> settings_role_xp row]>
                        (role_xp_assignments qb) ∧
                    optin_message_id loaded = settings_optin_message_id row).
  { unfold loaded, load_settings. by rewrite Hdb, Hrow. }
  destruct Hloaded as [Hassignments Hoptin].
  assert (Hget : ∀ role_id,
            get_role_xp_and_type loaded guild_id role_id
            = (λ data, (assigned_xp (migrated data), assigned_type (migrated data)))
                <$> settings_role_xp row !! role_id).
  { intros role_id. unfold get_role_xp_and_type.
    rewrite Hassignments, lookup_insert_eq, lookup_fmap.
    by destruct (settings_role_xp row !! role_id). }
  split; [| split; [| split; [| split; [| done]]]].
  - intros role_id xp Hold. by rewrite Hget, Hold.
  - intros role_id data Hnew. by rewrite Hget, Hnew.
  - intros role_id Hnone. by rewrite Hget, Hnone.
  - intros Hkinds. unfold Spec.kinds_ok.
    rewrite Hassignments, lookup_insert_eq. simpl. apply map_Forall_fmap.
    eapply map_Forall_impl; [exact Hkinds |]. intros role_id [xp | data]; simpl; auto.
Qed.

(** ** The assignment commands *)

Lemma get_role_xp_and_type_assign guild_id role_id xp_amount role_type qb g r :
  get_role_xp_and_type (assign_role_xp guild_id role_id xp_amount role_type qb) g r
  = if decide ((g, r) = (guild_id, role_id)) then Some (xp_amount, role_type)
    else get_role_xp_and_type qb g r.
Proof.
  unfold get_role_xp_and_type, assign_role_xp. cbn [role_xp_assignments].
  destruct (decide (g = guild_id)) as [-> | Hg].
  - rewrite lookup_insert_eq. destruct (decide (r = role_id)) as [-> | Hr].
    + by rewrite lookup_insert_eq, decide_True.
    + rewrite lookup_insert_ne, decide_False by congruence.
      destruct (role_xp_assignments qb !! guild_id); [done |]. simpl.
      by rewrite lookup_empty.
  - by rewrite lookup_insert_ne, decide_False by congruence.
Qed.

Lemma get_role_xp_and_type_unassign guild_id role_id qb g r :
  get_role_xp_and_type (unassign_role_xp guild_id role_id qb) g r
  = if decide ((g, r) = (guild_id, role_id)) then None
    else get_role_xp_and_type qb g r.
Proof.
  unfold get_role_xp_and_type, unassign_role_xp.
  destruct (role_xp_assignments qb !! guild_id) as [assignments |] eqn:Hguild.
  - destruct (assignments !! role_id) as [data |] eqn:Hrole.
    + cbn [role_xp_assignments]. destruct (decide (g = guild_id)) as [-> | Hg].
      * rewrite lookup_insert_eq. destruct (decide (r = role_id)) as [-> | Hr].
        -- by rewrite lookup_delete_eq, decide_True.
        -- rewrite lookup_delete_ne, decide_False by congruence. by rewrite Hguild.
      * by rewrite lookup_insert_ne, decide_False by congruence.
    + case_decide as Heq; [| done]. injection Heq as -> ->. by rewrite Hguild, Hrole.
  - case_decide as Heq; [| done]. injection Heq as -> ->. by rewrite Hguild.
Qed.

Lemma unassign_role_xp_kinds_ok qb guild_id role_id g :
  Spec.kinds_ok qb g → Spec.kinds_ok (unassign_role_xp guild_id role_id qb) g.
Proof.
  unfold Spec.kinds_ok, unassign_role_xp. intros Hkinds.
  destruct (role_xp_assignments qb !! guild_id) as [assignments |] eqn:Hguild; [| done].
  destruct (assignments !! role_id); [| done]. cbn [role_xp_assignments].
  destruct (decide (g = guild_id)) as [-> | Hg].
  - rewrite lookup_insert_eq. simpl. rewrite Hguild in Hkinds. simpl in Hkinds.
    by apply map_Forall_delete.
  - by rewrite lookup_insert_ne.
Qed.

Lemma listed_cases {A} (g guild_id : Z) (r x : string) (rest : list string)
    (hit other : A) :
  (if bool_decide (g = guild_id ∧ r ∈ rest) then hit
   else if decide ((g, r) = (guild_id, x)) then hit else other)
  = if bool_decide (g = guild_id ∧ r ∈ x :: rest) then hit else other.
Proof.
  destruct (decide (g = guild_id ∧ r ∈ rest)) as [[Hg Hin] | Hnot].
  - rewrite !bool_decide_eq_true_2; [done | | done].
    split; [done |]. by apply elem_of_cons; right.
  - rewrite (bool_decide_eq_false_2 _ Hnot).
    destruct (decide ((g, r) = (guild_id, x))) as [Heq | Hne].
    + injection Heq as -> ->. rewrite bool_decide_eq_true_2; [done |].
      split; [done |]. apply list_elem_of_here.
    + rewrite bool_decide_eq_false_2; [done |]. intros [-> Hin].
      apply elem_of_cons in Hin as [-> | Hin]; [by apply Hne | apply Hnot; by split].
Qed.

Lemma assign_all_spec role_type guild_id xp_amount (roles : list Role) :
  role_type = "badge" ∨ role_type = "streak" →
  ∀ qb,
    let qb' := fold_left (λ qb role,
                 assign_role_xp guild_id (Str.str (role_id role)) xp_amount role_type qb)
                 roles qb in
    (∀ g, Spec.kinds_ok qb g → Spec.kinds_ok qb' g) ∧
    (∀ g r, get_role_xp_and_type qb' g r
            = if bool_decide (g = guild_id ∧ r ∈ (Str.str ∘ role_id <$> roles))
              then Some (xp_amount, role_type)
              else get_role_xp_and_type qb g r).
Proof.
  intros Hkind. induction roles as [| role roles IH]; intros qb qb'.
  - split; [done |]. intros g r. rewrite bool_decide_eq_false_2; [done |].
    intros [_ Hin]. by apply elem_of_nil in Hin.
  - subst qb'. cbn [fold_left].
    destruct (IH (assign_role_xp guild_id (Str.str (role_id role)) xp_amount role_type qb))
      as [Hkinds Hget].
    split.
    + intros g Hok. apply Hkinds. by apply assign_role_xp_kinds_ok.
    + intros g r. rewrite Hget, get_role_xp_and_type_assign, fmap_cons.
      apply listed_cases.
Qed.

Lemma unassign_all_spec guild_id (roles : list Role) :
  ∀ qb,
    let qb' := fold_left (λ qb role,
                 unassign_role_xp guild_id (Str.str (role_id role)) qb) roles qb in
    (∀ g, Spec.kinds_ok qb g → Spec.kinds_ok qb' g) ∧
    (∀ g r, get_role_xp_and_type qb' g r
            = if bool_decide (g = guild_id ∧ r ∈ (Str.str ∘ role_id <$> roles))
              then None
              else get_role_xp_and_type qb g r).
Proof.
  induction roles as [| role roles IH]; intros qb qb'.
  - split; [done |]. intros g r. rewrite bool_decide_eq_false_2; [done |].
    intros [_ Hin]. by apply elem_of_nil in Hin.
  - subst qb'. cbn [fold_left].
    destruct (IH (unassign_role_xp guild_id (Str.str (role_id role)) qb))
      as [Hkinds Hget].
    split.
    + intros g Hok. apply Hkinds. by apply unassign_role_xp_kinds_ok.
    + intros g r. rewrite Hget, get_role_xp_and_type_unassign, fmap_cons.
      apply listed_cases.
Qed.

(** X24.  The assignment commands keep every assignment a badge or a
    streak one.  assignroleXP refuses any type but badge and streak;
    with one of the two it succeeds and stores the amount given, which
    may be zero or negative.  assignstreakXP and assignbadgeXP refuse an
    empty list of roles and an amount that is not positive; otherwise
    they succeed and give each role listed the amount with their type.
    unassignroleXP refuses an empty list of roles; otherwise it succeeds
    and leaves each role listed without an assignment.  No other role
    is affected, and each command that succeeds saves the settings of
    the guild. *)
Theorem assignment_commands_keep_the_kinds
    (guild_id : Z) (qb : QuestBot) (settings : gmap Z SettingsRow) :
  (∀ xp_amount role role_type_lower,
     (role_type_lower ≠ "badge" → role_type_lower ≠ "streak" →
      assign_role_xp_command guild_id xp_amount role role_type_lower qb settings = None) ∧
     (role_type_lower = "badge" ∨ role_type_lower = "streak" →
      ∃ qb',
        assign_role_xp_command guild_id xp_amount role role_type_lower qb settings
          = Some (qb', save_settings guild_id qb' settings) ∧
        (∀ g, Spec.kinds_ok qb g → Spec.kinds_ok qb' g) ∧
        (∀ g r, get_role_xp_and_type qb' g r
                = if decide ((g, r) = (guild_id, Str.str (role_id role)))
                  then Some (xp_amount, role_type_lower)
                  else get_role_xp_and_type qb g r))) ∧
  (∀ role_type xp_amount roles,
     role_type = "badge" ∨ role_type = "streak" →
     (roles = [] ∨ xp_amount ≤ 0 →
      assign_xp_multi role_type guild_id xp_amount roles qb settings = None) ∧
     (roles ≠ [] → 0 < xp_amount →
      ∃ qb',
        assign_xp_multi role_type guild_id xp_amount roles qb settings
          = Some (qb', save_settings guild_id qb' settings) ∧
        (∀ g, Spec.kinds_ok qb g → Spec.kinds_ok qb' g) ∧
        (∀ g r, get_role_xp_and_type qb' g r
                = if bool_decide (g = guild_id ∧ r ∈ (Str.str ∘ role_id <$> roles))
                  then Some (xp_amount, role_type)
                  else get_role_xp_and_type qb g r))) ∧
  (∀ roles,
     (roles = [] → unassign_role_xp_command guild_id roles qb settings = None) ∧
     (roles ≠ [] →
      ∃ qb',
        unassign_role_xp_command guild_id roles qb settings
          = Some (qb', save_settings guild_id qb' settings) ∧
        (∀ g, Spec.kinds_ok qb g → Spec.kinds_ok qb' g) ∧
        (∀ g r, get_role_xp_and_type qb' g r
                = if bool_decide (g = guild_id ∧ r ∈ (Str.str ∘ role_id <$> roles))
                  then None
                  else get_role_xp_and_type qb g r))).
Proof.
  split; [| split].
  - intros xp_amount role role_type_lower. unfold assign_role_xp_command. split.
    + intros Hbadge Hstreak. rewrite bool_decide_eq_true_2; [done |].
      rewrite !elem_of_cons, elem_of_nil. tauto.
    + intros Hkind. rewrite bool_decide_eq_false_2.
      2: { rewrite !elem_of_cons, elem_of_nil. tauto. }
      eexists. split; [reflexivity |]. split.
      * intros g Hok. by apply assign_role_xp_kinds_ok.
      * intros g r. apply get_role_xp_and_type_assign.
  - intros role_type xp_amount roles Hkind. unfold assign_xp_multi. split.
    + intros [-> | Hamount]; [done |]. destruct roles; [done |].
      by rewrite bool_decide_eq_true_2.
    + intros Hroles Hamount. destruct roles as [| role roles]; [done |].
      rewrite bool_decide_eq_false_2 by lia.
      destruct (assign_all_spec role_type guild_id xp_amount (role :: roles) Hkind qb)
        as [Hkinds Hget].
      eexists. split; [reflexivity |]. split; [exact Hkinds | exact Hget].
  - intros roles. unfold unassign_role_xp_command. split.
    + by intros ->.
    + intros Hroles. destruct roles as [| role roles]; [done |].
      destruct (unassign_all_spec guild_id (role :: roles) qb) as [Hkinds Hget].
      eexists. split; [reflexivity |]. split; [exact Hkinds | exact Hget].
Qed.

(** ** Handlers are about one user *)

#[local] Instance only_about_preorder user_id guild_id :
  PreOrder (only_about user_id guild_id).
Proof.
  split.
  - intros w. unfold only_about. repeat split; done.
  - intros w1 w2 w3 (Hrows & Hlogs & Hheld & Ha) (Hrows' & Hlogs' & Hheld' & Ha').
    unfold only_about. split; [| split; [| split]].
    + intros u g Hne. by rewrite Hrows', Hrows.
    + intros u g Hne. by rewrite Hlogs', Hlogs.
    + intros g u. by rewrite Hheld'.
    + congruence.
Qed.

Lemma role_and_streak_xp_same_log user_id guild_id w w' roles :
  role_xp_assignments (quest_bot w') = role_xp_assignments (quest_bot w) →
  streak_log w' user_id guild_id = streak_log w user_id guild_id →
  role_and_streak_xp (quest_bot w') user_id guild_id roles
  = role_and_streak_xp (quest_bot w) user_id guild_id roles.
Proof.
  intros Ha Hs. rewrite !role_and_streak_xp_spec.
  assert (Hiff : streak_log_sums_fit w' user_id guild_id
                 ↔ streak_log_sums_fit w user_id guild_id)
    by (unfold streak_log_sums_fit; by rewrite Hs).
  unfold Spec.accumulated_streak_xp. rewrite Hs.
  unfold custom_role_xp, auto_role_xp, get_role_xp_and_type. rewrite Ha.
  destruct (decide (streak_log_sums_fit w' user_id guild_id)),
           (decide (streak_log_sums_fit w user_id guild_id)); tauto || reflexivity.
Qed.

Lemma total_xp_offset_log user_id guild_id w w' :
  holdings guild_id user_id w' = holdings guild_id user_id w →
  role_xp_assignments (quest_bot w') = role_xp_assignments (quest_bot w) →
  streak_log w' user_id guild_id = streak_log w user_id guild_id →
  (calculate_total_user_xp user_id guild_id w').1 - stored_xp w' user_id guild_id
  = (calculate_total_user_xp user_id guild_id w).1 - stored_xp w user_id guild_id.
Proof.
  unfold holdings. intros Hh Ha Hs.
  destruct (member_roles guild_id user_id w) as [roles |] eqn:Hr;
    destruct (member_roles guild_id user_id w') as [roles' |] eqn:Hr'; try done.
  - injection Hh as Hn.
    rewrite (total_xp_non_level _ _ _ _ Hr), (total_xp_non_level _ _ _ _ Hr'), Hn.
    rewrite (role_and_streak_xp_same_log _ _ _ _ _ Ha Hs). lia.
  - rewrite (calculate_total_user_xp_unreadable _ _ _ Hr),
            (calculate_total_user_xp_unreadable _ _ _ Hr'), !base_xp_of_spec.
    simpl. lia.
Qed.

Lemma only_about_others user_id guild_id w w' :
  only_about user_id guild_id w w' → others_untouched user_id guild_id w w'.
Proof.
  intros (Hrows & Hlogs & Hheld & Ha) u g Hne. split; [by apply Hrows |].
  pose proof (total_xp_offset_log u g w w' (Hheld g u) Ha (Hlogs u g Hne)) as Hoff.
  unfold stored_xp in Hoff. rewrite (Hrows u g Hne) in Hoff. lia.
Qed.

Lemma same_state_only_about user_id guild_id w w' :
  (∀ g u, holdings g u w' = holdings g u w) → quest_bot w' = quest_bot w →
  only_about user_id guild_id w w'.
Proof.
  intros Hheld Hqb. unfold only_about, ledger_row, streak_log. rewrite Hqb.
  repeat split; done.
Qed.

Lemma holdings_same_guilds g u w w' : guilds w' = guilds w → holdings g u w' = holdings g u w.
Proof. intros Hg. unfold holdings. by rewrite (member_roles_same_guilds _ _ _ _ Hg). Qed.

Lemma same_holdings_only_about user_id guild_id w w' :
  same_holdings w w' → only_about user_id guild_id w w'.
Proof. intros [(Hqb & _) Hheld]. by apply same_state_only_about. Qed.

Lemma same_but_users_only_about user_id guild_id w w' :
  same_but_users w w' →
  (∀ u g, (u, g) ≠ (user_id, guild_id) → ledger_row w' u g = ledger_row w u g) →
  only_about user_id guild_id w w'.
Proof.
  intros (Hg & _ & _ & Ha & _ & _ & _ & Hs) Hrows. split; [done |]. split; [| split].
  - intros u g _. by apply streak_log_same_gains.
  - intros g u. by apply holdings_same_guilds.
  - done.
Qed.

Lemma ledger_row_get_user_data_other user_id guild_id w u g :
  (u, g) ≠ (user_id, guild_id) →
  ledger_row (get_user_data user_id guild_id w).2 u g = ledger_row w u g.
Proof.
  intros Hne. unfold ledger_row, get_user_data.
  destruct (db_connection (quest_bot w)) as [db |] eqn:Hdb; [| cbn [snd]; by rewrite Hdb].
  destruct (users db !! (user_id, guild_id)); [cbn [snd]; by rewrite Hdb |].
  simpl. rewrite Hdb. simpl. rewrite lookup_insert_ne; [done | congruence].
Qed.

Lemma get_user_data_only_about user_id guild_id w :
  only_about user_id guild_id w (get_user_data user_id guild_id w).2.
Proof.
  apply same_but_users_only_about; [apply get_user_data_frame |].
  intros u g Hne. by apply ledger_row_get_user_data_other.
Qed.

Lemma store_xp_only_about user_id guild_id new_xp w :
  only_about user_id guild_id w (store_xp user_id guild_id new_xp w).
Proof.
  apply same_but_users_only_about; [apply store_xp_frame |].
  intros u g Hne. rewrite ledger_row_store_xp. by rewrite decide_False by congruence.
Qed.

Lemma store_level_only_about user_id guild_id new_level w :
  only_about user_id guild_id w (store_level user_id guild_id new_level w).
Proof.
  apply same_but_users_only_about; [apply store_level_frame |].
  intros u g Hne. rewrite ledger_row_store_level. by rewrite decide_False by congruence.
Qed.

Lemma run_tasks_only_about user_id guild_id w :
  only_about user_id guild_id w (run_tasks w).
Proof.
  unfold run_tasks.
  transitivity (set_pending (λ _, []) w);
    [apply same_state_only_about; [intros g u; by apply holdings_same_guilds | done] |].
  generalize (set_pending (λ _, []) w). generalize (pending w). intros ts.
  induction ts as [| t ts IH]; intros w0; [reflexivity |].
  cbn [fold_left]. etransitivity; [| apply IH].
  apply same_holdings_only_about, update_user_level_role_holdings.
Qed.

Lemma channel_send_only_about user_id guild_id channel notice w :
  only_about user_id guild_id w (channel_send channel notice w).
Proof.
  unfold channel_send. etransitivity; [apply run_tasks_only_about |].
  apply same_state_only_about; [intros g u; by apply holdings_same_guilds | done].
Qed.

Lemma send_whitelisted_message_only_about user_id guild_id target notice w :
  only_about user_id guild_id w (send_whitelisted_message target notice w).2.
Proof.
  destruct (send_whitelisted_message_spec target notice w) as (_ & [-> | ->]);
    [reflexivity | apply channel_send_only_about].
Qed.

Lemma send_to_first_channel_only_about user_id guild_id guild notice w :
  only_about user_id guild_id w (send_to_first_channel guild notice w).
Proof.
  unfold send_to_first_channel.
  destruct (get_guild guild w) as [[gd |] |]; try reflexivity.
  destruct (find send_messages (text_channels gd)); [| reflexivity].
  apply channel_send_only_about.
Qed.

Lemma create_task_only_about user_id guild_id t w :
  only_about user_id guild_id w (create_task t w).
Proof.
  apply same_state_only_about; [intros g u; by apply holdings_same_guilds | done].
Qed.

Lemma updated_user_xp_only_about user_id guild_id xp_change w :
  only_about user_id guild_id w (updated_user_xp user_id guild_id xp_change w).2.
Proof.
  destruct (db_connection (quest_bot w)) as [db |] eqn:Hdb.
  - destruct (updated_user_xp_steps user_id guild_id xp_change w db Hdb) as (_ & _ & ->).
    assert (Hstored : only_about user_id guild_id w
                        (after_xp_stored user_id guild_id xp_change w)).
    { unfold after_xp_stored. etransitivity; [apply get_user_data_only_about |].
      apply store_xp_only_about. }
    case_bool_decide; cbn [snd]; [| done].
    etransitivity; [exact Hstored |].
    etransitivity; [apply store_level_only_about | apply create_task_only_about].
  - unfold updated_user_xp. rewrite Hdb. reflexivity.
Qed.

Lemma check_and_update_level_roles_disconnected user_id guild_id w :
  db_connection (quest_bot w) = None →
  (check_and_update_level_roles user_id guild_id w).2 = w.
Proof.
  intros Hdb. unfold check_and_update_level_roles, get_user_data. rewrite Hdb.
  rewrite (surjective_pairing (calculate_total_user_xp user_id guild_id w)).
  assert (Hworld : (calculate_total_user_xp user_id guild_id w).2 = w).
  { rewrite calculate_total_user_xp_world. unfold get_user_data. by rewrite Hdb. }
  rewrite Hworld. case_bool_decide; [| done]. by rewrite Hdb.
Qed.

Lemma check_and_update_level_roles_only_about user_id guild_id w :
  only_about user_id guild_id w (check_and_update_level_roles user_id guild_id w).2.
Proof.
  destruct (db_connection (quest_bot w)) as [db |] eqn:Hdb.
  - destruct (check_and_update_level_roles_steps user_id guild_id w db Hdb) as (_ & ->).
    case_bool_decide; [| apply get_user_data_only_about].
    etransitivity; [apply get_user_data_only_about |].
    etransitivity; [apply store_level_only_about | apply create_task_only_about].
  - rewrite (check_and_update_level_roles_disconnected _ _ _ Hdb). reflexivity.
Qed.

Lemma store_completed_users_only_about user_id guild_id message_id completed w :
  only_about user_id guild_id w (store_completed_users message_id completed w).
Proof.
  destruct (store_completed_users_tables message_id completed w) as (Ha & _ & _ & Hs).
  split; [| split; [| split]].
  - intros u g _. apply ledger_row_store_completed_users.
  - intros u g _. by apply streak_log_same_gains.
  - intros g u. by apply holdings_same_guilds.
  - done.
Qed.

Lemma logged_gain_only_about user_id guild_id role_id role_name xp_awarded w :
  only_about user_id guild_id w
    (logged_gain user_id guild_id role_id role_name xp_awarded w).
Proof.
  destruct (logged_gain_event user_id guild_id role_id role_name xp_awarded w)
    as (_ & Ha & _ & _ & _ & Hlogs & _).
  split; [| split; [done | split; [| done]]].
  - intros u g _. unfold ledger_row, logged_gain.
    destruct (db_connection (quest_bot w)) as [db |] eqn:Hdb; [| by rewrite Hdb].
    simpl. by rewrite Hdb.
  - intros g u. apply holdings_same_guilds. unfold logged_gain.
    by destruct (db_connection (quest_bot w)).
Qed.

Lemma insert_or_ignore_user_only_about user_id guild_id w :
  only_about user_id guild_id w (insert_or_ignore_user user_id guild_id w).
Proof.
  destruct (insert_or_ignore_user_tables user_id guild_id w) as (Ha & _ & _ & _ & Hs).
  split; [| split; [| split]].
  - intros u g Hne. destruct (db_connection (quest_bot w)) as [db |] eqn:Hdb.
    + rewrite ledger_row_insert_or_ignore by (by eexists).
      by rewrite decide_False by congruence.
    + unfold ledger_row, insert_or_ignore_user. simpl. by rewrite Hdb.
  - intros u g _. by apply streak_log_same_gains.
  - intros g u. by apply holdings_same_guilds.
  - done.
Qed.

Lemma on_quest_reaction_only_about reaction w :
  only_about (reaction_user reaction) (message_guild reaction) w
    (on_quest_reaction reaction w).
Proof.
  destruct (db_connection (quest_bot w)) as [db |] eqn:Hdb.
  2: { unfold on_quest_reaction. rewrite Hdb. reflexivity. }
  destruct (quests db !! message_id reaction) as [q |] eqn:Hq.
  2: { unfold on_quest_reaction. rewrite Hdb, Hq. reflexivity. }
  destruct (is_user_opted_in (reaction_user reaction) (message_guild reaction) w)
    eqn:Hopt.
  2: { rewrite on_quest_reaction_not_opted_in by done. reflexivity. }
  destruct (decide (reaction_user reaction ∈ completed_users q)) as [Hdone | Hnew].
  { rewrite (on_quest_reaction_completed reaction w q); [reflexivity | | done].
    unfold quest_row. by rewrite Hdb. }
  destruct (fits_int64 (Z.max 0 (stored_xp w (reaction_user reaction)
                                   (message_guild reaction)
                                 + default 50 (xp_reward q)))) eqn:Hfit.
  2: { rewrite (on_quest_reaction_refused reaction w db q Hdb Hq Hopt Hnew Hfit).
       apply get_user_data_only_about. }
  rewrite (on_quest_reaction_accepted reaction w db q Hdb Hq Hopt Hnew Hfit).
  etransitivity; [apply updated_user_xp_only_about |].
  etransitivity; [apply store_completed_users_only_about |].
  apply send_whitelisted_message_only_about.
Qed.

Lemma update_user_xp_only_about user_id guild_id xp_change :
  keeps (only_about user_id guild_id) (update_user_xp user_id guild_id xp_change).
Proof.
  intros w. destruct (db_connection (quest_bot w)) as [db |] eqn:Hdb.
  - destruct (fits_int64 (Z.max 0 (stored_xp w user_id guild_id + xp_change))) eqn:Hfit.
    + rewrite update_user_xp_returns by (by right). apply updated_user_xp_only_about.
    + rewrite (update_user_xp_raises _ _ _ _ db Hdb Hfit). apply get_user_data_only_about.
  - rewrite update_user_xp_returns by (by left). apply updated_user_xp_only_about.
Qed.

Lemma level_1_is_level_role (role : Role) :
  role_name role = "Level 1" → is_level_role role = true.
Proof. intros Hname. unfold is_level_role, Str.startswith. by rewrite Hname. Qed.

Lemma add_roles_holdings guild_id user_id role :
  is_level_role role = true → keeps same_holdings (add_roles guild_id user_id role).
Proof.
  intros Hlevel w. unfold add_roles.
  destruct (may_manage_roles guild_id w); [| reflexivity].
  apply update_member_roles_holdings. intros roles. by apply non_level_with_marker.
Qed.

Lemma create_level_roles_holdings guild_id :
  keeps_fn same_holdings (create_level_roles guild_id).
Proof.
  apply create_level_roles_keeps_relation; [apply _ |].
  intros name w. unfold create_role.
  destruct (may_manage_roles guild_id w); [| reflexivity].
  split; [apply update_guild_same |]. intros g u. unfold holdings. cbn [snd].
  by rewrite member_roles_update_guild_roles.
Qed.

Lemma grant_level_1_only_about reaction level_1_role :
  is_level_role level_1_role = true →
  keeps (only_about (reaction_user reaction) (message_guild reaction))
    (grant_level_1 reaction level_1_role).
Proof.
  intros Hlevel. apply keeps_bind; [apply _ | |].
  { apply (keeps_weaken same_holdings); [apply same_holdings_only_about |].
    by apply add_roles_holdings. }
  intros _. apply keeps_bind; [apply _ | |].
  { apply keeps_lift. intros w. apply insert_or_ignore_user_only_about. }
  intros _. apply keeps_lift. intros w. apply send_whitelisted_message_only_about.
Qed.

Lemma on_optin_reaction_only_about reaction :
  keeps_fn (only_about (reaction_user reaction) (message_guild reaction))
    (on_optin_reaction reaction).
Proof.
  apply keeps_try_except; [apply _ | | apply keeps_fn_id; apply _].
  apply keeps_bind; [apply _ | apply keeps_reading; apply _ |].
  intros [g |]; [| apply keeps_raise; apply _].
  apply keeps_bind; [apply _ | apply keeps_reading; apply _ |].
  intros [roles |]; [| apply keeps_ret; apply _].
  destruct (existsb is_level_role roles); cbn [negb]; [apply keeps_ret; apply _ |].
  destruct (utils_get (guild_roles g) "Level 1") as [level_1_role |] eqn:Hget.
  - apply keeps_lift, keeps_try_except; [apply _ | | apply keeps_fn_id; apply _].
    apply grant_level_1_only_about, level_1_is_level_role.
    by apply utils_get_Some in Hget as [_ ?].
  - apply keeps_lift, keeps_try_except; [apply _ | | apply keeps_fn_id; apply _].
    apply keeps_bind; [apply _ | |].
    { apply keeps_lift.
      apply (keeps_fn_weaken same_holdings); [apply same_holdings_only_about |].
      apply create_level_roles_holdings. }
    intros _. apply keeps_bind; [apply _ | apply keeps_reading; apply _ |].
    intros groles. destruct (utils_get groles "Level 1") as [level_1_role |] eqn:Hget';
      [| apply keeps_ret; apply _].
    apply grant_level_1_only_about, level_1_is_level_role.
    by apply utils_get_Some in Hget' as [_ ?].
Qed.

Lemma role_added_only_about user_id guild_id role w :
  only_about user_id guild_id w (role_added user_id guild_id role w).
Proof.
  assert (Hcheck : ∀ w0 (notice : Z → Z → Z → Notice),
            only_about user_id guild_id w0
              (let '((old_level, new_level, total_xp), w1) :=
                 check_and_update_level_roles user_id guild_id w0 in
               send_to_first_channel guild_id (notice old_level new_level total_xp) w1)).
  { intros w0 notice.
    pose proof (check_and_update_level_roles_only_about user_id guild_id w0) as Hstep.
    destruct (check_and_update_level_roles user_id guild_id w0)
      as [[[old_level new_level] total_xp] w1].
    etransitivity; [exact Hstep | apply send_to_first_channel_only_about]. }
  unfold role_added.
  destruct (is_user_opted_in user_id guild_id w); cbn [negb]; [| reflexivity].
  destruct (get_role_xp_and_type _ _ _) as [[reward role_type] |].
  - case_bool_decide.
    + etransitivity; [apply logged_gain_only_about |].
      apply (Hcheck _ (λ old_level new_level total_xp,
               StreakRoleGained user_id role reward total_xp
                 (level_text old_level new_level))).
    + apply (Hcheck _ (λ old_level new_level total_xp,
               RoleGained user_id role reward total_xp (level_text old_level new_level))).
  - destruct (Str.contains _ _); [| reflexivity].
    apply (Hcheck _ (λ old_level new_level total_xp,
             RoleGained user_id role 5 total_xp (level_text old_level new_level))).
Qed.

(** X25.  Each handler is about one user: once a reaction of a user, a
    role update of a member or an XP command for a member has completed,
    every other user (and the same user in every other guild) has the
    ledger row and the total XP they had. *)
Theorem handlers_leave_the_other_users (w : World) :
  (∀ reaction,
     others_untouched (reaction_user reaction) (message_guild reaction) w
       (completes (on_reaction_add reaction) w)) ∧
  (∀ user_id guild_id before after,
     others_untouched user_id guild_id w
       (completes (on_member_update user_id guild_id before after) w)) ∧
  (∀ guild_id channel amount member,
     others_untouched member guild_id w (add_xp_command guild_id channel amount member w) ∧
     others_untouched member guild_id w
       (remove_xp_command guild_id channel amount member w) ∧
     others_untouched member guild_id w
       (set_xp_command guild_id channel amount member w).2).
Proof.
  split; [| split].
  - intros reaction. apply only_about_others. unfold completes.
    etransitivity; [| apply run_tasks_only_about]. unfold on_reaction_add.
    destruct (user_bot reaction); [reflexivity |].
    destruct (emoji_is_check reaction); [| reflexivity].
    destruct (is_optin_message _ _);
      [apply on_optin_reaction_only_about | apply on_quest_reaction_only_about].
  - intros user_id guild_id before after. apply only_about_others. unfold completes.
    etransitivity; [| apply run_tasks_only_about].
    apply on_member_update_keeps; [apply _ |].
    intros role w0. apply role_added_only_about.
  - intros guild_id channel amount member.
    assert (Hupdate : ∀ xp_change (notice : Z → Z → Notice) (failure : Notice),
              only_about member guild_id w
                match update_user_xp member guild_id xp_change w with
                | (Return (new_total_xp, new_level), w1) =>
                    channel_send channel (notice new_total_xp new_level) w1
                | (Raise, w1) => channel_send channel failure w1
                end).
    { intros xp_change notice failure.
      pose proof (update_user_xp_only_about member guild_id xp_change w) as Hstep.
      destruct (update_user_xp member guild_id xp_change w)
        as [[[new_total_xp new_level] |] w1];
        (etransitivity; [exact Hstep | apply channel_send_only_about]). }
    split; [| split]; apply only_about_others.
    + unfold add_xp_command. destruct (is_user_opted_in member guild_id w); cbn [negb];
        [| apply channel_send_only_about].
      apply (Hupdate amount (λ new_total_xp new_level,
               XpAdded member amount new_total_xp new_level)).
    + unfold remove_xp_command. destruct (is_user_opted_in member guild_id w); cbn [negb];
        [| apply channel_send_only_about].
      apply (Hupdate (- amount) (λ new_total_xp new_level,
               XpRemoved member amount new_total_xp new_level)).
    + unfold set_xp_command. destruct (is_user_opted_in member guild_id w); cbn [negb];
        [| apply channel_send_only_about].
      pose proof (get_user_data_only_about member guild_id w) as Hread.
      destruct (get_user_data member guild_id w) as [current_data w0].
      pose proof (update_user_xp_only_about member guild_id
                    (amount - row_xp current_data) w0) as Hstep.
      destruct (update_user_xp member guild_id (amount - row_xp current_data) w0)
        as [[[new_total_xp new_level] |] w1];
        cbn [snd] in *; (etransitivity; [exact Hread |]);
        (etransitivity; [exact Hstep |]);
        [apply run_tasks_only_about | apply channel_send_only_about].
Qed.

(** * Examples *)

#[local] Transparent level_role_name ensure_level_roles.

Ltac decided :=
  match goal with |- ?P => apply (bool_decide_unpack P); vm_compute; exact I end.
Ltac computed := vm_compute; reflexivity.

Lemma total_xp_is_sum_of_sources_witness :
  (calculate_total_user_xp 7 1 Example.world).1
  = Spec.total_xp Example.world 7 1
      [Example.level_1; Example.gold_badge; Example.team_badge].
Proof.
  refine (proj1 (total_xp_is_sum_of_sources 7 1 Example.world
                   [Example.level_1; Example.gold_badge; Example.team_badge] _ _) _);
    [computed | decided | decided].
Defined.

(** Member 7 has gained twice a streak role worth 2^62 XP.  The roles
    of the member are read, yet the total is the base XP alone: the
    [SUM] over the two logged gains overflows. *)
Lemma streak_sum_beyond_64_bits_counterexample :
  let w := Scenario.after_two_large_gains in
  let held := [Example.gold_badge; Example.team_badge; Example.streak_7;
               Example.level_1] in
  member_roles 1 7 w = Return held ∧
  Spec.kinds_ok (quest_bot w) 1 ∧
  (calculate_total_user_xp 7 1 w).1 = 40 ∧
  Spec.total_xp w 7 1 held = 40 + 30 + 5 + 2 ^ 63 ∧
  (calculate_total_user_xp 7 1 w).1 ≠ Spec.total_xp w 7 1 held.
Proof.
  intros w held.
  assert (Htotal : (calculate_total_user_xp 7 1 w).1 = 40) by computed.
  assert (Hspec : Spec.total_xp w 7 1 held = 40 + 30 + 5 + 2 ^ 63) by computed.
  split; [computed |]. split; [decided |]. split; [exact Htotal |].
  split; [exact Hspec |]. rewrite Htotal, Hspec. discriminate.
Qed.

Lemma level_change_reconciles_marker_witness :
  ∃ marker held',
    member_roles 1 7 (update_user_level_role 7 1 1 2 Example.world).2 = Return held' ∧
    role_name marker = level_role_name 2 ∧
    level_markers held' = [marker] ∧
    Spec.non_level held'
    = Spec.non_level [Example.level_1; Example.gold_badge; Example.team_badge].
Proof.
  refine (proj1 (level_change_reconciles_marker 7 1 Example.world Example.db
                   Example.guild_1
                   [Example.level_1; Example.gold_badge; Example.team_badge]
                   _ _ _ _ _ _ _ _) 1 2 _);
    [reflexivity | reflexivity | computed | computed | reflexivity
    | decided | decided | decided | lia].
Defined.

Lemma stale_cached_level_counterexample :
  ¬ marker_matches_level 8 1 Example.rejoined_and_completed.
Proof.
  intros (marker & held & Hheld & Hmarkers & Hname).
  assert (member_roles 1 8 Example.rejoined_and_completed = Return [Example.level_1])
    as Hroles by computed.
  rewrite Hroles in Hheld. injection Hheld as <-.
  assert (level_markers [Example.level_1] = [Example.level_1]) as Hm by computed.
  rewrite Hm in Hmarkers. injection Hmarkers as <-.
  assert (level_role_name
            (calculate_level
               (calculate_total_user_xp 8 1 Example.rejoined_and_completed).1)
          = "Level 2") as Hl by computed.
  rewrite Hl in Hname. discriminate Hname.
Qed.

Lemma quest_completion_counts_once_witness :
  completes (on_reaction_add (Example.ack 5000 7))
    (completes (on_reaction_add (Example.ack 5000 7)) Example.world)
  = completes (on_reaction_add (Example.ack 5000 7)) Example.world.
Proof.
  refine (proj2 (proj2 (proj1 (quest_completion_counts_once (Example.ack 5000 7)
                                 Example.world Example.db _ _ _ _ _ _ _ _) _)));
    [reflexivity | reflexivity | computed | reflexivity | computed | computed | decided
    | decided].
Defined.

(** Member 7, opted in, has base XP 2^63 - 1 and acknowledges the quest
    worth 60 XP twice: the [UPDATE] raises both times, and neither the
    list of completions nor the base XP has changed. *)
Lemma quest_reward_beyond_64_bits_counterexample :
  let w := Scenario.rich_world in
  let w2 := completes (on_reaction_add (Example.ack 5000 7))
              (completes (on_reaction_add (Example.ack 5000 7)) w) in
  is_user_opted_in 7 1 w = true ∧
  stored_xp w 7 1 = INT64_MAX ∧
  (completed_users <$> quest_row w 5000) = Some [] ∧
  (completed_users <$> quest_row w2 5000) = Some [] ∧
  stored_xp w2 7 1 = stored_xp w 7 1.
Proof. repeat split; computed. Qed.



(** Gains beyond what the store holds.  A streak role worth 2^63 XP is
    never logged: the [INSERT] raises, and the handler ends without a
    message.  A streak role worth 2^62 XP is logged twice, after which
    the accumulated streak XP cannot be read; the member, who was at
    level 10 after the first gain, is back at level 1. *)
Lemma streak_gains_beyond_64_bits :
  streak_log (member_gains_role 7 1 Example.streak_7 Scenario.unstorable_world) 7 1 = [] ∧
  sent (member_gains_role 7 1 Example.streak_7 Scenario.unstorable_world) = [] ∧
  (xp_awarded <$> streak_log Scenario.after_two_large_gains 7 1) = [2 ^ 62; 2 ^ 62] ∧
  get_accumulated_streak_xp (quest_bot Scenario.after_two_large_gains) 7 1 = Raise ∧
  sent Scenario.after_two_large_gains
  = [(901, StreakRoleGained 7 Example.streak_7 (2 ^ 62) (2 ^ 62 + 75) (Some 10));
     (901, StreakRoleGained 7 Example.streak_7 (2 ^ 62) 40 (Some 1))].
Proof. repeat split; computed. Qed.

Lemma whitelist_command_counterexample :
  ¬ gate_as_specified Example.the_bot Example.whitelist_elsewhere 1.
Proof.
  intros [Hpass _].
  assert (is_channel_whitelisted_check Example.the_bot Example.whitelist_elsewhere = true)
    as Hcheck by reflexivity.
  destruct (Hpass Hcheck) as [Hpriv | [Hempty | Hin]].
  - discriminate Hpriv.
  - discriminate Hempty.
  - apply (bool_decide_pack _) in Hin. vm_compute in Hin. exact Hin.
Qed.

Lemma channel_gate_rule_witness :
  is_channel_whitelisted_check Example.the_bot Example.whitelist_elsewhere = true ↔
  ctx_manage_guild Example.whitelist_elsewhere = true ∨
  ctx_command Example.whitelist_elsewhere = Some "whitelist" ∨
  fst <$> get_whitelisted_channels Example.the_bot 1 = [] ∨
  ctx_channel Example.whitelist_elsewhere
    ∈ (fst <$> get_whitelisted_channels Example.the_bot 1).
Proof.
  refine (proj1 (channel_gate_rule Example.the_bot Example.whitelist_elsewhere 1 _)).
  reflexivity.
Defined.

Lemma total_xp_falls_back_to_base_witness :
  ∃ w', calculate_total_user_xp 9 1 Example.world = (stored_xp Example.world 9 1, w').
Proof. apply (total_xp_falls_back_to_base 9 1 Example.world). computed. Defined.

Lemma optin_is_idempotent_witness :
  ∃ level_1_role,
    role_name level_1_role = "Level 1" ∧
    member_roles 1 8 (on_reaction_add (Example.ack 4000 8) Example.world)
      = Return [level_1_role] ∧
    (is_Some (db_connection (quest_bot Example.world)) →
     ledger_row (on_reaction_add (Example.ack 4000 8) Example.world) 8 1
       = Some (default new_user_row (ledger_row Example.world 8 1)) ∧
     ∀ u g', (8, 1) ≠ (u, g') →
             ledger_row (on_reaction_add (Example.ack 4000 8) Example.world) u g'
             = ledger_row Example.world u g').
Proof.
  refine (proj2 (optin_is_idempotent (Example.ack 4000 8) Example.world Example.guild_1 []
                   _ _ _ _ _) _ _ _);
    [reflexivity | reflexivity | computed | computed | computed
    | reflexivity | reflexivity | reflexivity].
Defined.

Lemma update_user_xp_clamps_at_zero_witness :
  stored_xp (update_user_xp 7 1 (-100) Example.world).2 7 1
  = Z.max 0 (stored_xp Example.world 7 1 + -100).
Proof.
  refine (proj1 (proj2 (proj1 (update_user_xp_clamps_at_zero 7 1 (-100) Example.world
                                 Example.db _) _)));
    [reflexivity | decided].
Defined.

(** Staff add 2^63 XP to member 7, whose base XP is 40: the [UPDATE]
    raises and the base XP is still 40, not [max(0, 40 + 2^63)]. *)
Lemma xp_change_beyond_64_bits_counterexample :
  let result := update_user_xp 7 1 (2 ^ 63) Example.world in
  result.1 = Raise ∧
  stored_xp Example.world 7 1 = 40 ∧
  stored_xp result.2 7 1 = 40 ∧
  stored_xp result.2 7 1 ≠ Z.max 0 (stored_xp Example.world 7 1 + 2 ^ 63).
Proof.
  intros result.
  assert (Hafter : stored_xp result.2 7 1 = 40) by computed.
  split; [computed |]. split; [computed |]. split; [exact Hafter |].
  rewrite Hafter. vm_compute. discriminate.
Qed.

Lemma unreadable_member_is_not_opted_in_witness :
  is_user_opted_in 9 1 Example.world = false.
Proof.
  refine (proj1 (unreadable_member_is_not_opted_in 9 1 Example.world _)). computed.
Defined.

(** The notification of a role gain goes to the first channel the bot
    may write to, whitelisted or not: [send_whitelisted_message] would
    not have sent to it. *)
Lemma role_gain_notice_skips_the_gate :
  sent (member_gains_role 7 1 Example.streak_7 Example.world)
    = [(901, StreakRoleGained 7 Example.streak_7 10 85 None)] ∧
  (send_whitelisted_message {| channel_id := 901; channel_guild := Some 1 |}
     (StreakRoleGained 7 Example.streak_7 10 85 None) Example.world).1 = false.
Proof. split; computed. Qed.

Lemma create_level_roles_completes_the_ladder_witness :
  ∃ added,
    roles_of_guild 1 (create_level_roles 1 Example.world).2
    = Return (guild_roles Example.guild_1 ++ added).
Proof.
  destruct (create_level_roles_completes_the_ladder 1 Example.world Example.guild_1)
    as (added & Hroles & _); [computed | reflexivity |].
  exists added. exact Hroles.
Defined.

Lemma nothing_changes_without_permission_witness :
  (create_level_roles 1 Scenario.locked_world).2 = Scenario.locked_world.
Proof.
  refine (proj1 (nothing_changes_without_permission 1 Scenario.locked_world _)).
  computed.
Defined.

Lemma synchronizer_keeps_members_opted_in_witness :
  is_user_opted_in 7 1 (update_user_level_role 7 1 1 2 Example.world).2 = true.
Proof.
  refine (synchronizer_keeps_members_opted_in 7 1 1 2 Example.world 7 1 _ _ _);
    [lia | computed | computed].
Defined.

Lemma cached_level_follows_the_total_witness :
  ∃ total level after,
    update_user_xp 7 1 100 Example.world = (Return (total, level), after) ∧
    level = calculate_level total.
Proof.
  destruct (cached_level_follows_the_total 7 1 100 Example.world Example.db)
    as (total & level & after & Hreturned & Hlevel & _); [reflexivity | decided |].
  exists total, level, after. split; [exact Hreturned | exact Hlevel].
Defined.

Lemma quest_completion_adds_the_reward_witness :
  (row_level <$>
     ledger_row (completes (on_reaction_add (Example.ack 5000 7)) Example.world)
       (reaction_user (Example.ack 5000 7)) (message_guild (Example.ack 5000 7)))
  = Some (calculate_level
            (calculate_total_user_xp
               (reaction_user (Example.ack 5000 7)) (message_guild (Example.ack 5000 7))
               (completes (on_reaction_add (Example.ack 5000 7)) Example.world)).1).
Proof.
  refine (proj1 (proj2 (proj2
            (quest_completion_adds_the_reward (Example.ack 5000 7) Example.world
               Example.db
               {| quest_guild_id := 1; quest_channel_id := 900;
                  quest_title := "Introduce yourself";
                  completed_users := []; xp_reward := Some 60 |}
               _ _ _ _ _ _ _ _))));
    [reflexivity | reflexivity | computed | reflexivity | computed | computed | decided
    | decided].
Defined.

Lemma set_xp_command_sets_the_base_witness :
  stored_xp (set_xp_command 1 901 (-5) 7 Example.world).2 7 1 = Z.max 0 (-5).
Proof.
  refine (proj1 (proj1 (set_xp_command_sets_the_base 1 901 (-5) 7 Example.world
                          Example.db _) _ _));
    [reflexivity | computed | decided].
Defined.


Lemma losing_a_role_recomputes_nothing_witness :
  on_member_update 7 1 Scenario.roles_of_7 [Example.level_1; Example.team_badge]
    Example.world
  = Example.world.
Proof.
  refine (proj1 (losing_a_role_recomputes_nothing 7 1 Scenario.roles_of_7
                   [Example.level_1; Example.team_badge] Example.world _)).
  intros r Hr. unfold Scenario.roles_of_7.
  apply elem_of_cons in Hr as [-> | Hr]; [apply list_elem_of_here |].
  apply elem_of_cons in Hr as [-> | Hr]; [| by apply elem_of_nil in Hr].
  do 2 apply list_elem_of_further. apply list_elem_of_here.
Defined.

Lemma adding_a_channel_whitelists_it_witness :
  is_channel_whitelisted
    (add_whitelisted_channel 1 901 "general" Example.the_bot).2 1 901 = true.
Proof.
  refine (proj1 (proj2 (adding_a_channel_whitelists_it 1 901 "general" Example.the_bot
                          Example.db _))).
  reflexivity.
Defined.


Lemma first_whitelisted_channel_closes_the_others_witness :
  is_channel_whitelisted_check Example.the_bot
    {| ctx_guild := Some 2; ctx_manage_guild := false;
       ctx_command := Some "checkXP"; ctx_channel := 951 |} = true.
Proof.
  refine (proj1 (first_whitelisted_channel_closes_the_others 2 950 "lobby"
                   Example.the_bot Example.db _ _) _ _);
    [reflexivity | computed | reflexivity].
Defined.


Lemma leaderboard_ranks_the_opted_in_witness :
  ∃ ranking,
    get_leaderboard 1 10 Example.world = (take (Z.to_nat 10) ranking, Example.world).
Proof.
  destruct (leaderboard_ranks_the_opted_in 1 10 Example.world Example.db)
    as (ranking & Hboard & _); [reflexivity | lia |].
  exists ranking. exact Hboard.
Defined.

Lemma xp_report_adds_up_witness :
  ∃ report,
    (xp_report 1 7 Scenario.roles_of_7 Example.world).1 = Return report ∧
    report_xp report = (calculate_total_user_xp 7 1 Example.world).1.
Proof.
  destruct (xp_report_adds_up 1 7 Scenario.roles_of_7 Example.world) as [Hfigures _];
    [computed |].
  destruct Hfigures as (report & Hreturned & Hxp & _); [decided |].
  exists report. split; [exact Hreturned | exact Hxp].
Defined.

Lemma role_gain_refreshes_the_cached_level_witness :
  (row_level <$>
     ledger_row
       (completes (on_member_update 7 1 Scenario.roles_of_7
                     (Scenario.roles_of_7 ++ [Example.streak_7])) Example.world) 7 1)
  = Some (calculate_level
            (calculate_total_user_xp 7 1
               (completes (on_member_update 7 1 Scenario.roles_of_7
                             (Scenario.roles_of_7 ++ [Example.streak_7]))
                  Example.world)).1).
Proof.
  refine (role_gain_refreshes_the_cached_level 7 1 Scenario.roles_of_7
            (Scenario.roles_of_7 ++ [Example.streak_7]) Example.streak_7 Example.world
            _ _ _ _ _).
  - eexists. reflexivity.
  - computed.
  - computed.
  - left. eexists. computed.
  - intros xp_amount Hassigned. vm_compute in Hassigned.
    injection Hassigned as <-. reflexivity.
Defined.

Lemma saved_settings_load_back_witness :
  optin_message_id
    (load_settings 1 (save_settings 1 Example.the_bot ∅) Example.the_bot)
  = optin_message_id Example.the_bot.
Proof.
  refine (proj1 (proj2 (saved_settings_load_back 1 Example.the_bot Example.the_bot ∅
                          Example.db Example.db _ _)));
    reflexivity.
Defined.

Lemma loading_settings_migrates_old_assignments_witness :
  get_role_xp_and_type (load_settings 1 Scenario.old_settings Example.the_bot) 1 "201"
  = Some (30, "badge").
Proof.
  refine (proj1 (loading_settings_migrates_old_assignments 1 Scenario.old_settings
                   Example.the_bot Example.db Scenario.old_row _ _) "201" 30 _);
    [reflexivity | computed | computed].
Defined.
